(** * tacred-relation: the data-preparation and batching pipeline

    A shallow embedding of [data/process_data.py] (classes [DataProcessor]
    and [Batcher]) together with the properties its specification states
    about it.

    Conventions of the embedding:
    - Python [int] is [Z]; a Python [list] is a Rocq [list]; list indices
      that the code computes as integers stay in [Z] until they index.
    - A Python [dict] is an insertion-ordered association list ([odict]):
      iteration order of a dict is its insertion order, and
      [reverse_set_maps] depends on it.
    - A Python [set] is a [gset]; iteration over it is over [elements].
    - A raised exception is a value [Raise e] of the [result] monad.
    - [np.random] is an explicit generator state threaded through the
      calls that draw from it (class [Rng]). *)

From Stdlib Require Import ZArith QArith Qcanon List String Ascii Lia Bool Permutation Sorted.
From stdpp Require Import base option list sorting gmap sets strings.

Open Scope string_scope.
Open Scope list_scope.
Open Scope Z_scope.

(** ** Exceptions and the error monad *)

Inductive exn : Type :=
| KeyError (key : string)
| IndexError
| ValueError (msg : string)
| AttributeError (attr : string)
| AssertionError
| ZeroDivisionError
| TypeError
| FileNotFoundError (path : string).

Inductive result (A : Type) : Type :=
| Ok (a : A)
| Raise (e : exn).
Arguments Ok {A} a.
Arguments Raise {A} e.

#[global] Instance result_ret : MRet result := fun A a => Ok a.
#[global] Instance result_bind : MBind result := fun A B f m =>
  match m with
  | Ok a => f a
  | Raise e => Raise e
  end.
#[global] Instance result_fmap : FMap result := fun A B f m =>
  match m with
  | Ok a => Ok (f a)
  | Raise e => Raise e
  end.

Definition is_Ok {A} (r : result A) : Prop := exists a, r = Ok a.

Lemma result_bind_Ok {A B} (f : A -> result B) (m : result A) (b : B) :
  m ≫= f = Ok b <-> exists a, m = Ok a /\ f a = Ok b.
Proof.
  destruct m as [a|e]; simpl.
  - split; [eauto | intros (a' & [= ->] & H); exact H].
  - split; [discriminate | intros (a' & [=] & _)].
Qed.

(** [for x in xs: st = body(x, st)] with exceptions. *)
Fixpoint foldM {A S : Type} (body : A -> S -> result S) (xs : list A) (st : S)
  : result S :=
  match xs with
  | [] => Ok st
  | x :: xs' => body x st ≫= foldM body xs'
  end.

(** [[f(x) for x in xs]] with exceptions. *)
Fixpoint mapM_result {A B : Type} (f : A -> result B) (xs : list A)
  : result (list B) :=
  match xs with
  | [] => Ok []
  | x :: xs' => f x ≫= fun y => mapM_result f xs' ≫= fun ys => Ok (y :: ys)
  end.

(** ** Python built-ins on lists *)

Module Py.

(** [list(range(a, b))]: empty when [b <= a]. *)
Definition range (a b : Z) : list Z := seqZ a (b - a).

(** [[x] * n]: empty when [n <= 0]. *)
Definition repeat {A} (x : A) (n : Z) : list A := replicate (Z.to_nat n) x.

(** [len(l)] *)
Definition len {A} (l : list A) : Z := Z.of_nat (length l).

(** How a slice bound is clamped against a list of length [n]
    (the behaviour of [slice.indices] for step 1). *)
Definition clamp (n i : Z) : Z :=
  if i <? 0 then Z.max 0 (i + n) else Z.min i n.

(** [l[i:j] = new] (slice assignment, step 1); it never raises, and a
    slice that starts past the end appends. *)
Definition set_slice {A} (l : list A) (i j : Z) (new : list A) : list A :=
  let n := len l in
  let lo := clamp n i in
  let hi := Z.max lo (clamp n j) in
  take (Z.to_nat lo) l ++ new ++ drop (Z.to_nat hi) l.

(** [l[i]] for an integer [i]: negative indices count from the end. *)
Definition index {A} (l : list A) (i : Z) : result A :=
  let n := len l in
  let k := if i <? 0 then i + n else i in
  if (k <? 0) || (n <=? k) then Raise IndexError
  else match l !! Z.to_nat k with
       | Some x => Ok x
       | None => Raise IndexError
       end.

(** [l[i] = x] for an integer [i]. *)
Definition set_index {A} (l : list A) (i : Z) (x : A) : result (list A) :=
  let n := len l in
  let k := if i <? 0 then i + n else i in
  if (k <? 0) || (n <=? k) then Raise IndexError
  else Ok (<[Z.to_nat k := x]> l).

(** [l[i:j]] *)
Definition slice {A} (l : list A) (i j : Z) : list A :=
  let n := len l in
  let lo := clamp n i in
  let hi := clamp n j in
  take (Z.to_nat (hi - lo)) (drop (Z.to_nat lo) l).

(** [list(range(start, stop, step))] *)
Definition range_step (start stop step : Z) : result (list Z) :=
  if step =? 0 then Raise (ValueError "range() arg 3 must not be zero")
  else
    let count :=
      if 0 <? step then (stop - start + step - 1) / step
      else (start - stop - step - 1) / (- step) in
    Ok (map (fun k => start + Z.of_nat k * step) (seq 0 (Z.to_nat count))).

(** [needle in hay] on [str]: substring test. *)
Fixpoint str_in (needle hay : string) : bool :=
  String.prefix needle hay ||
  match hay with
  | EmptyString => false
  | String _ hay' => str_in needle hay'
  end.

End Py.

(** ** Insertion-ordered dictionaries *)

Section odict.
Context {K V : Type} `{EqDecision K}.

Definition odict : Type := list (K * V).

Fixpoint dict_get (k : K) (d : odict) : option V :=
  match d with
  | [] => None
  | (k', v) :: d' => if decide (k = k') then Some v else dict_get k d'
  end.

(** [d[k] = v]: an existing key keeps its position. *)
Fixpoint dict_set (k : K) (v : V) (d : odict) : odict :=
  match d with
  | [] => [(k, v)]
  | (k', v') :: d' =>
      if decide (k = k') then (k, v) :: d' else (k', v') :: dict_set k v d'
  end.

Definition dict_mem (k : K) (d : odict) : bool :=
  match dict_get k d with Some _ => true | None => false end.

Definition dict_keys (d : odict) : list K := d.*1.
Definition dict_values (d : odict) : list V := d.*2.

(** [d[k]] on a plain dict. *)
Definition dict_getitem (name : string) (k : K) (d : odict) : result V :=
  match dict_get k d with
  | Some v => Ok v
  | None => Raise (KeyError name)
  end.

Lemma dict_get_set_eq k v d : dict_get k (dict_set k v d) = Some v.
Proof.
  induction d as [|[k' v'] d IH]; simpl.
  - by rewrite decide_True.
  - destruct (decide (k = k')) as [->|Hne]; simpl.
    + by rewrite decide_True.
    + by rewrite decide_False.
Qed.

Lemma dict_get_set_ne k k' v d :
  k <> k' -> dict_get k' (dict_set k v d) = dict_get k' d.
Proof.
  intros Hne. induction d as [|[k0 v0] d IH]; simpl.
  - by rewrite decide_False.
  - destruct (decide (k = k0)) as [->|Hne0]; simpl.
    + by rewrite !decide_False.
    + destruct (decide (k' = k0)); [done | exact IH].
Qed.

Lemma dict_get_set k k' v d :
  dict_get k' (dict_set k v d) = if decide (k = k') then Some v else dict_get k' d.
Proof.
  destruct (decide (k = k')) as [->|Hne].
  - apply dict_get_set_eq.
  - by apply dict_get_set_ne.
Qed.

Lemma dict_get_Some_elem k v d : dict_get k d = Some v -> (k, v) ∈ d.
Proof.
  induction d as [|[k' v'] d IH]; simpl; [done|].
  destruct (decide (k = k')) as [->|Hne].
  - intros [= ->]. apply list_elem_of_here.
  - intros H. apply list_elem_of_further, IH, H.
Qed.

Lemma dict_get_None_keys k d : dict_get k d = None <-> k ∉ dict_keys d.
Proof.
  unfold dict_keys. induction d as [|[k' v'] d IH]; simpl.
  - split; [intros _; apply not_elem_of_nil | done].
  - rewrite not_elem_of_cons. destruct (decide (k = k')) as [->|Hne].
    + split; [done | intros [? _]; done].
    + rewrite IH. tauto.
Qed.

Lemma dict_get_is_Some_keys k d : is_Some (dict_get k d) <-> k ∈ dict_keys d.
Proof.
  destruct (dict_get k d) as [v|] eqn:E.
  - split; [intros _ | eauto].
    destruct (decide (k ∈ dict_keys d)) as [|Hn]; [done|].
    apply dict_get_None_keys in Hn. congruence.
  - split; [intros [? ?]; done|].
    intros Hin. apply dict_get_None_keys in E. done.
Qed.

Lemma dict_elem_keys k v d : (k, v) ∈ d -> k ∈ dict_keys d.
Proof. intros H. unfold dict_keys. apply list_elem_of_fmap. by exists (k, v). Qed.

Lemma dict_elem_values k v d : (k, v) ∈ d -> v ∈ dict_values d.
Proof. intros H. unfold dict_values. apply list_elem_of_fmap. by exists (k, v). Qed.

Lemma dict_keys_set k v d :
  dict_keys (dict_set k v d) =
  if dict_mem k d then dict_keys d else dict_keys d ++ [k].
Proof.
  unfold dict_mem, dict_keys. induction d as [|[k' v'] d IH]; [done|].
  cbn [dict_set dict_get]. destruct (decide (k = k')) as [->|Hne]; [done|].
  rewrite fmap_cons, IH. by destruct (dict_get k d).
Qed.

End odict.

Arguments odict : clear implicits.

(** ** Position sequences *)

(** [DataProcessor.get_positions] *)
Definition get_positions (start_idx end_idx length : Z) : list Z :=
  Py.range (- start_idx) 0 ++ Py.repeat 0 (end_idx - start_idx + 1) ++
  Py.range 1 (length - end_idx).

Example get_positions_2_3_6 : get_positions 2 3 6 = [-2; -1; 0; 0; 1; 2].
Proof. reflexivity. Qed.


(** ** Sorting a batch by sentence length *)

Section sort_all.
Context {V : Type}.
(** [==] and [<] on the values the batch's fields hold. *)
Variables (V_eqb V_ltb : V -> V -> bool).

(** One element of [zip(lens, range(len(lens)), *batch)]: the tuple
    [(length, position, field_1, ..., field_k)]. *)
Record row : Type := Row {
  row_len : Z;
  row_idx : Z;
  row_fields : list V
}.

(** [zip( *cols)]: the transposition, cut at the shortest column; [zip()]
    of no column at all is empty. *)
Fixpoint zip_star (cols : list (list V)) : list (list V) :=
  match cols with
  | [] => []
  | c :: cs =>
      match cs with
      | [] => map (fun x => [x]) c
      | _ :: _ => zip_with cons c (zip_star cs)
      end
  end.

(** The field part of each tuple of [zip(lens, range(n), *batch)]. *)
Definition field_rows (n : nat) (batch : list (list V)) : list (list V) :=
  match batch with
  | [] => replicate n []
  | _ :: _ => zip_star batch
  end.

Definition zip_rows (lens : list Z) (batch : list (list V)) : list row :=
  zip_with (fun li fs => Row li.1 li.2 fs)
           (zip lens (Py.range 0 (Py.len lens)))
           (field_rows (length lens) batch).

(** [<] on the field part of two tuples: the first position where they
    differ decides, a proper prefix is smaller. *)
Fixpoint fields_ltb (a b : list V) : bool :=
  match a, b with
  | x :: a', y :: b' => if V_eqb x y then fields_ltb a' b' else V_ltb x y
  | [], _ :: _ => true
  | _, [] => false
  end.

(** [<] on the tuples. *)
Definition row_ltb (a b : row) : bool :=
  if negb (row_len a =? row_len b) then row_len a <? row_len b
  else if negb (row_idx a =? row_idx b) then row_idx a <? row_idx b
  else fields_ltb (row_fields a) (row_fields b).

(** [sorted(rows, reverse=True)]: the stable sort into descending order;
    it compares with [<] only, and elements neither of which is smaller
    keep their order. *)
Fixpoint insert_desc (x : row) (l : list row) : list row :=
  match l with
  | [] => [x]
  | y :: l' => if row_ltb x y then y :: insert_desc x l' else x :: l
  end.

Definition sorted_reverse (rows : list row) : list row :=
  foldr insert_desc [] rows.

(** [Batcher.sort_all]. With no example at all [zip( *sorted(...))] is
    empty and [sorted_all[1]] raises. *)
Definition sort_all (batch : list (list V)) (lens : list Z)
  : result (list (list V) * list Z) :=
  let sorted_rows := sorted_reverse (zip_rows lens batch) in
  match sorted_rows with
  | [] => Raise IndexError
  | _ :: _ => Ok (zip_star (map row_fields sorted_rows), map row_idx sorted_rows)
  end.

End sort_all.

Arguments Row {V} _ _ _.
Arguments row_len {V} _.
Arguments row_idx {V} _.
Arguments row_fields {V} _.

(** Putting the item at sorted position [i] back at position
    [orig_idx[i]], as a consumer of a readied batch does to undo
    [sort_all]. *)
Definition restore_order {A} (orig_idx : list Z) (items : list A) (init : list A)
  : list A :=
  fold_left (fun acc jx => <[Z.to_nat jx.1 := jx.2]> acc) (zip orig_idx items) init.

Example sort_all_lengths_3_5_4 :
  sort_all Z.eqb Z.ltb [[10; 11; 12]; [20; 21; 22]] [3; 5; 4]
  = Ok ([[11; 12; 10]; [21; 22; 20]], [1; 2; 0]).
Proof. reflexivity. Qed.

Example sort_all_ties :
  sort_all Z.eqb Z.ltb [[10; 11; 12]] [4; 7; 4] = Ok ([[11; 12; 10]], [1; 2; 0]).
Proof. reflexivity. Qed.

Example restore_order_example :
  restore_order [1; 2; 0] [11; 12; 10] [0; 0; 0] = [10; 11; 12].
Proof. reflexivity. Qed.

(** ** Configuration, vocabulary and raw records *)

(** The options [DataProcessor] and [Batcher] read from [config]. The
    dropout rate is a float in [[0, 1]]; it is only ever compared with a
    draw of [np.random.random()], and both are rationals. *)
Record config : Type := Config {
  cfg_lower : bool;
  cfg_typed_relations : bool;
  cfg_relation_masking : bool;
  cfg_sample_size : option Z;
  cfg_batch_size : Z;
  cfg_word_dropout : Qc
}.

(** What the processor consumes from [utils.vocab] and [utils.constant]
    (neither module is part of the sources at hand, so their tables are
    parameters), and [str.lower]. *)
Record vocab_env : Type := VocabEnv {
  word2id : odict string Z;
  POS_TO_ID : odict string Z;
  NER_TO_ID : odict string Z;
  DEPREL_TO_ID : odict string Z;
  UNK_ID : Z;
  PAD_ID : Z;
  str_lower : string -> string
}.

(** One object of a partition file. The fields that are present have the
    types of the input format; a key the object lacks is [None]. *)
Record raw_record : Type := RawRecord {
  d_token : option (list string);
  d_subj_start : option Z;
  d_subj_end : option Z;
  d_obj_start : option Z;
  d_obj_end : option Z;
  d_subj_type : option string;
  d_obj_type : option string;
  d_stanford_pos : option (list string);
  d_stanford_ner : option (list string);
  d_stanford_deprel : option (list string);
  d_relation : option string
}.

(** [d[name]] on a raw record. *)
Definition getfield {A} (name : string) (field : option A) : result A :=
  match field with
  | Some a => Ok a
  | None => Raise (KeyError name)
  end.

(** ** Samples *)

Definition triple : Type := Z * Z * Z.

(** The dict under ['base']; ['activated_relations'] is the key that
    [create_iterator] adds. *)
Record base_sample : Type := BaseSample {
  base_tokens : list Z;
  base_pos : list Z;
  base_ner : list Z;
  base_deprel : list Z;
  base_subj_positions : list Z;
  base_obj_positions : list Z;
  base_relation : Z;
  base_subj_id : Z;
  base_obj_id : Z;
  base_activated_relations : option (list Z)
}.

(** The value under ['relation_masking']: the triple [parse_data] stores,
    or the 1-tuple [(known_relations,)] that [create_iterator] puts in
    its place. *)
Inductive masking_entry : Type :=
| MaskTriple (t : triple)
| MaskKnown (known_relations : gset Z).

(** The dict under ['supplemental']. *)
Record supplemental_sample : Type := SupplementalSample {
  supp_triple : triple;
  supp_relation_masking : option masking_entry
}.

Record sample : Type := Sample {
  base : base_sample;
  supplemental : supplemental_sample
}.

(** ** The label tables of [DataProcessor] *)

(** The tables [parse_data] computes once its loop is over, and
    [self.num_rel]. *)
Record derived_maps : Type := DerivedMaps {
  id2rel : odict Z string;
  rel2binary_rel : odict Z string;
  rel2subj : odict Z string;
  triple2subj_obj : odict triple string;
  rel2ids : odict string (gset Z);
  num_rel : Z
}.

(** [self.name2id] (without the constant tables, which are in
    [vocab_env]) and [self.graph]. [derived] is [None] until
    [parse_data] has run once. *)
Record processor : Type := Processor {
  subj2id : odict string Z;
  obj2id : odict string Z;
  rel2id : odict string Z;
  binary_rel2rels : odict string (gset Z);
  subj2rels : odict string (gset Z);
  subj_obj2triples : odict string (gset triple);
  graph : odict (Z * Z) (gset Z);
  derived : option derived_maps
}.

(** The tables as [DataProcessor.__init__] creates them. *)
Definition initial_processor : processor :=
  Processor [] [] [] [] [] [] [] None.

(** [d[k]] on a [defaultdict(lambda: set())], read only. *)
Definition dd_get {K A} `{EqDecision K} `{Countable A}
    (k : K) (d : odict K (gset A)) : gset A :=
  default ∅ (dict_get k d).

(** [d[k].add(x)] on a [defaultdict(lambda: set())]; also what
    [if k not in d: d[k] = set()] followed by [d[k].add(x)] does. *)
Definition dd_add {K A} `{EqDecision K} `{Countable A}
    (k : K) (x : A) (d : odict K (gset A)) : odict K (gset A) :=
  dict_set k ({[x]} ∪ dd_get k d) d.

(** [dict(pairs)]: a later pair overrides an earlier one with its key. *)
Definition dict_of_list {K A} `{EqDecision K} (pairs : list (K * A)) : odict K A :=
  fold_left (fun acc kv => dict_set kv.1 kv.2 acc) pairs [].

(** [DataProcessor.reverse_set_maps] *)
Definition reverse_set_maps {K A} `{EqDecision A} `{Countable A}
    (dict2set : odict K (gset A)) : odict A K :=
  fold_left
    (fun id2id kv =>
       fold_left (fun acc value => dict_set value kv.1 acc) (elements kv.2) id2id)
    dict2set [].

(** [DataProcessor.create_all_possible_triples] *)
Definition create_all_possible_triples (st : processor) : gset triple :=
  let subjects := dict_values (subj2id st) in
  let relations := dict_values (rel2id st) in
  let objects := dict_values (obj2id st) in
  fold_left
    (fun all_triples subject =>
       fold_left
         (fun all_triples relation =>
            fold_left
              (fun all_triples object =>
                 {[ (subject, relation, object) ]} ∪ all_triples)
              objects all_triples)
         relations all_triples)
    subjects ∅.

(** [DataProcessor.add_unused_triples] *)
Definition add_unused_triples (unused_triples : gset triple)
    (mappings : odict triple string) : result (odict triple string) :=
  foldM (fun unused_triple mappings =>
           if dict_mem unused_triple mappings then Raise AssertionError
           else Ok (dict_set unused_triple "no_relation" mappings))
        (elements unused_triples) mappings.

(** [DataProcessor.map_to_ids] *)
Definition map_to_ids (unk : Z) (names : list string) (mapper : odict string Z)
  : list Z :=
  map (fun t => default unk (dict_get t mapper)) names.

(** ** Parsing a partition *)

Section DataProcessor.
Variable cfg : config.
Variable env : vocab_env.

(** The name of the subject-type bucket of a relation name: the test for
    ["per"] comes first. *)
Definition subj_bucket (relation_name : string) : string :=
  if Py.str_in "per" relation_name then "per:relation"
  else if Py.str_in "org" relation_name then "org:relation"
  else "no_relation".

(** [relation_name] of a record: namespaced by the entity types when
    [typed_relations] is on. *)
Definition relation_name_of (subj_type relation obj_type : string) : string :=
  if cfg_typed_relations cfg
  then subj_type +:+ ":" +:+ relation +:+ ":" +:+ obj_type
  else relation.

(** [if relation_name not in rel2id: rel2id[relation_name] = len(rel2id)] *)
Definition add_relation (relation_name : string) (rel2id : odict string Z)
  : odict string Z :=
  if dict_mem relation_name rel2id then rel2id
  else dict_set relation_name (Py.len rel2id) rel2id.

(** The updates of the tables in the loop body, once the ids of the
    record are known. *)
Definition update_tables (st : processor) (subject_type object_type : string)
    (subject_id object_id : Z) (relation_name : string) (relation_id : Z)
  : processor :=
  let triple := (subject_id, relation_id, object_id) in
  Processor
    (dict_set subject_type subject_id (subj2id st))
    (dict_set object_type object_id (obj2id st))
    (add_relation relation_name (rel2id st))
    (if decide (relation_name = "no_relation")
     then dd_add "no_relation" relation_id (binary_rel2rels st)
     else dd_add "has_relation" relation_id (binary_rel2rels st))
    (dd_add (subj_bucket relation_name) relation_id (subj2rels st))
    (if decide (relation_name <> "no_relation")
     then dd_add (subject_type +:+ ":" +:+ object_type) triple (subj_obj2triples st)
     else dd_add "no_relation" triple (subj_obj2triples st))
    (if cfg_relation_masking cfg
     then dd_add (subject_id, object_id) relation_id (graph st)
     else graph st)
    (derived st).

(** The anonymised token ids of a record. *)
Definition anonymize (tokens : list string) (ss se os oe : Z)
    (subject_type object_type : string) : list Z :=
  let tokens := if cfg_lower cfg then map (str_lower env) tokens else tokens in
  let tokens := Py.set_slice tokens ss (se + 1) (Py.repeat subject_type (se - ss + 1)) in
  let tokens := Py.set_slice tokens os (oe + 1) (Py.repeat object_type (oe - os + 1)) in
  map_to_ids (UNK_ID env) tokens (word2id env).

(** The parsed sample of a record. *)
Definition make_sample (tokens : list Z) (ss se os oe : Z)
    (stanford_pos stanford_ner stanford_deprel : list string)
    (subject_id object_id relation_id : Z) : sample :=
  let pos := map_to_ids (UNK_ID env) stanford_pos (POS_TO_ID env) in
  let ner := map_to_ids (UNK_ID env) stanford_ner (NER_TO_ID env) in
  let deprel := map_to_ids (UNK_ID env) stanford_deprel (DEPREL_TO_ID env) in
  let l := Py.len tokens in
  let subj_positions := get_positions ss se l in
  let obj_positions := get_positions os oe l in
  let triple := (subject_id, relation_id, object_id) in
  Sample
    (BaseSample tokens pos ner deprel subj_positions obj_positions
                relation_id subject_id object_id None)
    (SupplementalSample triple
       (if cfg_relation_masking cfg then Some (MaskTriple triple) else None)).

(** The body of the loop of [DataProcessor.parse_data]: the tables after
    the record, and its parsed sample. The keys of the record and of the
    vocabulary are read in the order of the source. *)
Definition parse_record (d : raw_record) (st : processor)
  : result (processor * sample) :=
  tokens ← getfield "token" (d_token d);
  ss ← getfield "subj_start" (d_subj_start d);
  se ← getfield "subj_end" (d_subj_end d);
  os ← getfield "obj_start" (d_obj_start d);
  oe ← getfield "obj_end" (d_obj_end d);
  subj_type ← getfield "subj_type" (d_subj_type d);
  let subject_type := "SUBJ-" +:+ subj_type in
  obj_type ← getfield "obj_type" (d_obj_type d);
  let object_type := "OBJ-" +:+ obj_type in
  subject_id ← dict_getitem subject_type subject_type (word2id env);
  object_id ← dict_getitem object_type object_type (word2id env);
  let tokens := anonymize tokens ss se os oe subject_type object_type in
  stanford_pos ← getfield "stanford_pos" (d_stanford_pos d);
  stanford_ner ← getfield "stanford_ner" (d_stanford_ner d);
  stanford_deprel ← getfield "stanford_deprel" (d_stanford_deprel d);
  relation ← getfield "relation" (d_relation d);
  let relation_name := relation_name_of subj_type relation obj_type in
  relation_id ←
    dict_getitem relation_name relation_name
                 (add_relation relation_name (rel2id st));
  Ok (update_tables st subject_type object_type subject_id object_id
                    relation_name relation_id,
      make_sample tokens ss se os oe stanford_pos stanford_ner stanford_deprel
                  subject_id object_id relation_id).

(** The loop of [parse_data]. *)
Fixpoint parse_records (data : list raw_record) (st : processor)
    (parsed_data : list sample) : result (processor * list sample) :=
  match data with
  | [] => Ok (st, parsed_data)
  | d :: data' =>
      '(st', parsed_sample) ← parse_record d st;
      parse_records data' st' (parsed_data ++ [parsed_sample])
  end.

(** What [parse_data] computes after its loop. *)
Definition curriculum_mappings (st : processor) : result derived_maps :=
  let id2rel := dict_of_list (map (fun kv => (kv.2, kv.1)) (rel2id st)) in
  let rel2binary_rel := reverse_set_maps (binary_rel2rels st) in
  let rel2subj := reverse_set_maps (subj2rels st) in
  let triple2subj_obj := reverse_set_maps (subj_obj2triples st) in
  let all_possible_triples := create_all_possible_triples st in
  let unused_triples :=
    all_possible_triples ∖ list_to_set (dict_keys triple2subj_obj) in
  triple2subj_obj ← add_unused_triples unused_triples triple2subj_obj;
  let rel2ids := dict_of_list (map (fun kv => (kv.1, {[ kv.2 ]})) (rel2id st)) in
  Ok (DerivedMaps id2rel rel2binary_rel rel2subj triple2subj_obj rel2ids
                  (Py.len (rel2id st))).

Definition set_derived (st : processor) (dm : derived_maps) : processor :=
  Processor (subj2id st) (obj2id st) (rel2id st) (binary_rel2rels st)
            (subj2rels st) (subj_obj2triples st) (graph st) (Some dm).

(** [DataProcessor.parse_data] *)
Definition parse_data (data : list raw_record) (st : processor)
  : result (processor * list sample) :=
  '(st', parsed_data) ← parse_records data st [];
  dm ← curriculum_mappings st';
  Ok (set_derived st' dm, parsed_data).

(** [DataProcessor.preprocess_data]: [files] holds, for a partition name,
    the records [json.load] reads from its file. *)
Fixpoint preprocess_data (files : odict string (list raw_record))
    (partition_names : list string) (st : processor)
    (partitions : odict string (list sample))
  : result (processor * odict string (list sample)) :=
  match partition_names with
  | [] => Ok (st, partitions)
  | partition_name :: names =>
      partition_data ←
        match dict_get partition_name files with
        | Some records => Ok records
        | None => Raise (FileNotFoundError (partition_name +:+ ".json"))
        end;
      '(st', partition_parsed) ← parse_data partition_data st;
      preprocess_data files names st'
                      (dict_set partition_name partition_parsed partitions)
  end.

(** [DataProcessor.__init__] *)
Definition DataProcessor_init (files : odict string (list raw_record))
    (partition_names : list string)
  : result (processor * odict string (list sample)) :=
  preprocess_data files partition_names initial_processor [].

End DataProcessor.

(** ** A small corpus *)

(** Lower-casing of ASCII letters, for the example vocabulary. *)
Definition ascii_lower (c : ascii) : ascii :=
  let n := nat_of_ascii c in
  if ((65 <=? n) && (n <=? 90))%nat then ascii_of_nat (n + 32) else c.

Fixpoint lower_ascii (s : string) : string :=
  match s with
  | EmptyString => EmptyString
  | String c s' => String (ascii_lower c) (lower_ascii s')
  end.

Definition example_env : vocab_env :=
  VocabEnv
    [("<PAD>", 0); ("<UNK>", 1); ("SUBJ-PERSON", 2); ("OBJ-TITLE", 3);
     ("SUBJ-ORGANIZATION", 4); ("OBJ-PERSON", 5); ("she", 6); ("is", 7);
     ("the", 8); ("chairman", 9); ("of", 10); ("works", 11); ("for", 12)]
    [("<PAD>", 0); ("<UNK>", 1); ("NNP", 2); ("VBZ", 3); ("DT", 4); ("NN", 5);
     ("IN", 6)]
    [("<PAD>", 0); ("<UNK>", 1); ("O", 2); ("PERSON", 3); ("TITLE", 4);
     ("ORGANIZATION", 5)]
    [("<PAD>", 0); ("<UNK>", 1); ("nsubj", 2); ("cop", 3); ("det", 4);
     ("ROOT", 5); ("case", 6); ("nmod", 7)]
    1 0 lower_ascii.

Definition example_config : config :=
  Config true false true None 2 0%Qc.

(** "Rice is the chairman": a person and a title, no relation annotated. *)
Definition record_no_relation : raw_record :=
  RawRecord (Some ["Rice"; "is"; "the"; "chairman"])
            (Some 0) (Some 0) (Some 3) (Some 3)
            (Some "PERSON") (Some "TITLE")
            (Some ["NNP"; "VBZ"; "DT"; "NN"])
            (Some ["PERSON"; "O"; "O"; "TITLE"])
            (Some ["nsubj"; "cop"; "det"; "ROOT"])
            (Some "no_relation").

(** "She is the vice chairman of": the title spans two tokens. *)
Definition record_per_title : raw_record :=
  RawRecord (Some ["She"; "is"; "the"; "vice"; "chairman"; "of"])
            (Some 0) (Some 0) (Some 3) (Some 4)
            (Some "PERSON") (Some "TITLE")
            (Some ["NNP"; "VBZ"; "DT"; "NN"; "NN"; "IN"])
            (Some ["PERSON"; "O"; "O"; "TITLE"; "TITLE"; "O"])
            (Some ["nsubj"; "cop"; "det"; "ROOT"; "ROOT"; "case"])
            (Some "per:title").

(** "Acme works for Rice": an organisation and a person. *)
Definition record_org : raw_record :=
  RawRecord (Some ["Acme"; "works"; "for"; "Rice"])
            (Some 0) (Some 0) (Some 3) (Some 3)
            (Some "ORGANIZATION") (Some "PERSON")
            (Some ["NNP"; "VBZ"; "IN"; "NNP"])
            (Some ["ORGANIZATION"; "O"; "O"; "PERSON"])
            (Some ["nsubj"; "ROOT"; "case"; "nmod"])
            (Some "org:top_members/employees").

(** A record whose subject span lies past the end of its three tokens. *)
Definition record_span_out_of_range : raw_record :=
  RawRecord (Some ["she"; "is"; "the"])
            (Some 5) (Some 7) (Some 1) (Some 1)
            (Some "PERSON") (Some "TITLE")
            (Some ["NNP"; "VBZ"; "DT"])
            (Some ["PERSON"; "O"; "O"])
            (Some ["nsubj"; "cop"; "det"])
            (Some "per:title").

(** A record without the key ['subj_end']. *)
Definition record_without_subj_end : raw_record :=
  RawRecord (Some ["she"; "is"; "the"])
            (Some 0) None (Some 1) (Some 1)
            (Some "PERSON") (Some "TITLE")
            (Some ["NNP"; "VBZ"; "DT"])
            (Some ["PERSON"; "O"; "O"])
            (Some ["nsubj"; "cop"; "det"])
            (Some "per:title").

Definition example_corpus : list raw_record :=
  [record_no_relation; record_per_title; record_no_relation; record_org].

Example parse_record_per_title :
  snd <$> parse_record example_config example_env record_per_title initial_processor
  = Ok (Sample
          (BaseSample [2; 7; 8; 3; 3; 10] [2; 3; 4; 5; 5; 6] [3; 2; 2; 4; 4; 2]
                      [2; 3; 4; 5; 5; 6] [0; 1; 2; 3; 4; 5] [-3; -2; -1; 0; 0; 1]
                      0 2 3 None)
          (SupplementalSample (2, 0, 3) (Some (MaskTriple (2, 0, 3))))).
Proof. vm_compute. reflexivity. Qed.

Example parse_record_span_out_of_range :
  snd <$> parse_record example_config example_env record_span_out_of_range
                       initial_processor
  = Ok (Sample
          (BaseSample [6; 3; 8; 2; 2; 2] [2; 3; 4] [3; 2; 2] [2; 3; 4]
                      [-5; -4; -3; -2; -1; 0; 0; 0] [-1; 0; 1; 2; 3; 4]
                      0 2 3 None)
          (SupplementalSample (2, 0, 3) (Some (MaskTriple (2, 0, 3))))).
Proof. vm_compute. reflexivity. Qed.

Example parse_record_without_subj_end :
  parse_record example_config example_env record_without_subj_end initial_processor
  = Raise (KeyError "subj_end").
Proof. reflexivity. Qed.

(** ** Randomness *)

(** The draws of [np.random] that the pipeline makes, on an explicit
    generator state. [rng_choice g n k] is the draw behind
    [np.random.choice(n, k, replace=False)] for [k <= n]: [k] different
    positions below [n]. [rng_permutation g n] is the permutation that
    [np.random.shuffle] applies to a list of [n] items. [rng_random g] is
    [np.random.random()], a float in [[0, 1)]. *)
Class Rng (G : Type) : Type := {
  rng_choice : G -> nat -> nat -> list nat * G;
  rng_permutation : G -> nat -> list nat * G;
  rng_random : G -> Qc * G;
  rng_choice_length : forall g n k,
    (k <= n)%nat -> length (rng_choice g n k).1 = k;
  rng_choice_NoDup : forall g n k,
    (k <= n)%nat -> NoDup (rng_choice g n k).1;
  rng_choice_range : forall g n k i,
    (k <= n)%nat -> i ∈ (rng_choice g n k).1 -> (i < n)%nat;
  rng_permutation_perm : forall g n,
    Permutation (rng_permutation g n).1 (seq 0 n)
}.

(** A generator that is a counter: it rotates by its state, then counts up.
    It serves to run the pipeline on examples. *)
Definition rotate_positions (g n : nat) : list nat :=
  match n with
  | O => []
  | S _ => drop (g mod n) (seq 0 n) ++ take (g mod n) (seq 0 n)
  end.

Lemma rotate_positions_perm (g n : nat) :
  Permutation (rotate_positions g n) (seq 0 n).
Proof.
  unfold rotate_positions. destruct n as [|n]; [done|].
  rewrite Permutation_app_comm. by rewrite take_drop.
Qed.

#[global, refine] Instance counter_rng : Rng nat := {|
  rng_choice g n k := (take k (rotate_positions g n), S g);
  rng_permutation g n := (rotate_positions g n, S g);
  rng_random g := (0%Qc, S g)
|}.
Proof.
  - intros g n k Hk. simpl. rewrite length_take.
    rewrite (Permutation_length (rotate_positions_perm g n)), length_seq. lia.
  - intros g n k Hk. simpl. eapply sublist_NoDup; [|apply sublist_take].
    rewrite rotate_positions_perm. apply NoDup_seq.
  - intros g n k i Hk Hi. simpl in Hi. apply elem_of_take in Hi as (j & Hj & _).
    apply list_elem_of_lookup_2 in Hj. rewrite rotate_positions_perm in Hj.
    apply elem_of_seq in Hj. lia.
  - intros g n. simpl. apply rotate_positions_perm.
Defined.

Section numpy_random.
Context {G : Type} `{Rng G}.

(** [np.random.choice(a, size, replace=False)] for an integer [a]. *)
Definition np_random_choice_int (g : G) (a size : Z) : result (list Z * G) :=
  if size <? 0 then Raise (ValueError "negative dimensions are not allowed")
  else if (a <=? 0) && negb (size =? 0)
  then Raise (ValueError "a must be greater than 0 unless no samples are taken")
  else if a <? size
  then Raise (ValueError "Cannot take a larger sample than population when 'replace=False'")
  else let draw := rng_choice g (Z.to_nat a) (Z.to_nat size) in
       Ok (map Z.of_nat draw.1, draw.2).

(** [np.random.choice(a, size, replace=False)] for a list [a]. *)
Definition np_random_choice (g : G) (a : list Z) (size : Z) : result (list Z * G) :=
  '(positions, g') ← np_random_choice_int g (Py.len a) size;
  chosen ← mapM_result (Py.index a) positions;
  Ok (chosen, g').

(** [np.random.shuffle(l)], on the value of the list. *)
Definition np_random_shuffle {A} (g : G) (l : list A) : list A * G :=
  let draw := rng_permutation g (length l) in
  (omap (fun i => l !! i) draw.1, draw.2).

End numpy_random.

(** ** Stratified sampling *)

Section sampling.
Context {G : Type} `{Rng G}.

(** [DataProcessor.distribute_sample_size]. [int(sample_size / n)] is the
    float quotient cut towards zero, which for integers below [2^53] is
    the integer quotient. *)
Definition distribute_sample_size (g : G) (sample_size : Z)
    (rel2id : odict string Z) : result (odict Z Z * G) :=
  let n := Py.len rel2id in
  if n =? 0 then Raise ZeroDivisionError
  else
    let class_sample_size := Z.quot sample_size n in
    let remainder := sample_size mod n in
    '(class_sample_bonus, g') ← np_random_choice_int g n remainder;
    Ok (fold_left
          (fun class2size rel_id =>
             dict_set rel_id
               (if bool_decide (rel_id ∈ class_sample_bonus)
                then class_sample_size + 1 else class_sample_size)
               class2size)
          (dict_values rel2id) [],
        g').

(** [DataProcessor.group_by_class], on the relation of each example. *)
Definition group_by_class (relations : list Z) : odict Z (list Z) :=
  fold_left
    (fun class2indices ir =>
       dict_set ir.2 (default [] (dict_get ir.2 class2indices) ++ [ir.1])
                class2indices)
    (zip (Py.range 0 (Py.len relations)) relations) [].

(** [DataProcessor.sample_by_class] *)
Fixpoint sample_by_class_loop (g : G) (items : list (Z * list Z))
    (class2size : odict Z Z) (class2sample : odict Z (list Z))
  : result (odict Z (list Z) * G) :=
  match items with
  | [] => Ok (class2sample, g)
  | (relation, indices) :: items' =>
      size ← dict_getitem "relation" relation class2size;
      let sample_size := Z.min size (Py.len indices) in
      '(sample_indices, g') ← np_random_choice g indices sample_size;
      sample_by_class_loop g' items' class2size
                           (dict_set relation sample_indices class2sample)
  end.

Definition sample_by_class (g : G) (class2indices : odict Z (list Z))
    (class2size : odict Z Z) : result (odict Z (list Z) * G) :=
  sample_by_class_loop g class2indices class2size [].

(** [DataProcessor.aggregate_sample_indices]: [np.concatenate] refuses an
    empty list of arrays. *)
Definition aggregate_sample_indices (class2sample : odict Z (list Z))
  : result (list Z) :=
  match dict_values class2sample with
  | [] => Raise (ValueError "need at least one array to concatenate")
  | arrays => Ok (concat arrays)
  end.

(** [DataProcessor.perform_stratified_sampling], for [data] whose
    relation ids are [relations]. *)
Definition perform_stratified_sampling {A} (g : G) (sample_size : Z)
    (rel2id : odict string Z) (relations : list Z) (data : list A)
  : result (list A * G) :=
  '(class2size, g) ← distribute_sample_size g sample_size rel2id;
  let class2indices := group_by_class relations in
  '(class2sample, g) ← sample_by_class g class2indices class2size;
  sample_indices ← aggregate_sample_indices class2sample;
  sample_data ← mapM_result (Py.index data) sample_indices;
  Ok (sample_data, g).

End sampling.

Example stratified_sampling_example :
  fst <$> perform_stratified_sampling (G:=nat) 0%nat 4 [("a", 0); ("b", 1)]
            [0; 1; 1; 1] ["s0"; "s1"; "s2"; "s3"]
  = Ok ["s0"; "s3"; "s1"].
Proof. vm_compute. reflexivity. Qed.

(** [np.zeros(n)], a vector of floats that are all 0. *)
Definition np_zeros (n : Z) : result (list Z) :=
  if n <? 0 then Raise (ValueError "negative dimensions are not allowed")
  else Ok (Py.repeat 0 n).

(** ** Batches *)

(** The values a supplemental tuple holds: ids, and the set of known
    relations that [create_iterator] stores. *)
Inductive pyval : Type :=
| PInt (z : Z)
| PSet (s : gset Z).

(** [==] and [<] on these values ([<] on sets is proper inclusion). *)
Definition pyval_eqb (a b : pyval) : bool :=
  match a, b with
  | PInt x, PInt y => x =? y
  | PSet s, PSet t => bool_decide (s = t)
  | _, _ => false
  end.

Definition pyval_ltb (a b : pyval) : bool :=
  match a, b with
  | PInt x, PInt y => x <? y
  | PSet s, PSet t => bool_decide (s ⊆ t) && negb (bool_decide (s = t))
  | _, _ => false
  end.

(** [==] and [<] on lists of integers. *)
Definition list_eqb (a b : list Z) : bool := bool_decide (a = b).

Fixpoint list_ltb (a b : list Z) : bool :=
  match a, b with
  | x :: a', y :: b' => if x =? y then list_ltb a' b' else x <? y
  | [], _ :: _ => true
  | _, [] => false
  end.

(** One element of [Batcher.batches]: under ['base'] the 7-tuples that
    [base_mapper] makes, under ['supplemental'] for each name the tuples
    of the batch's examples. *)
Record data_batch : Type := DataBatch {
  batch_base : list (list (list Z));
  batch_supplemental : odict string (list (list pyval))
}.

(** [Batcher.base_mapper] *)
Definition base_mapper (b : base_sample) : result (list (list Z)) :=
  activated ← getfield "activated_relations" (base_activated_relations b);
  Ok [base_tokens b; base_pos b; base_ner b; base_deprel b;
      base_subj_positions b; base_obj_positions b; activated].

Definition triple_tuple (t : triple) : list pyval :=
  [PInt t.1.1; PInt t.1.2; PInt t.2].

(** [sample['supplemental'].keys()] *)
Definition supplemental_keys (s : supplemental_sample) : list string :=
  "triple" ::
  match supp_relation_masking s with
  | Some _ => ["relation_masking"]
  | None => []
  end.

(** [sample['supplemental'][name]] *)
Definition supplemental_getitem (name : string) (s : supplemental_sample)
  : result (list pyval) :=
  if decide (name = "triple") then Ok (triple_tuple (supp_triple s))
  else if decide (name = "relation_masking") then
    match supp_relation_masking s with
    | Some (MaskTriple t) => Ok (triple_tuple t)
    | Some (MaskKnown known_relations) => Ok [PSet known_relations]
    | None => Raise (KeyError name)
    end
  else Raise (KeyError name).

(** [Batcher.create_batches] *)
Definition create_batches (data : list sample) (batch_size : Z)
  : result (list data_batch) :=
  starts ← Py.range_step 0 (Py.len data) batch_size;
  mapM_result
    (fun batch_start =>
       let batch_end := batch_start + batch_size in
       let batch := Py.slice data batch_start batch_end in
       base_batch ← mapM_result (fun sample => base_mapper (base sample)) batch;
       first ← Py.index data 0;
       let supplemental_names := supplemental_keys (supplemental first) in
       supplemental ←
         foldM (fun name columns =>
                  column ← mapM_result
                             (fun sample =>
                                supplemental_getitem name (supplemental sample))
                             batch;
                  Ok (dict_set name column columns))
               supplemental_names [];
       Ok (DataBatch base_batch supplemental))
    starts.

(** The curriculum stage of an iterator: it selects [id2label],
    [label2id] and [triple2id_fn]. *)
Inductive curriculum_stage : Type := Binary | SubjType | SubjObjType | Full.

(** A [Batcher] object. [b_tables] holds the dict that [id2label] is an
    alias of. [b_rel2id] is the attribute [rel2id] that
    [ready_relation_masks_batch] and [ready_binary_labels_batch] read:
    [Batcher.__init__] does not assign it, and reading an attribute that
    is not there ([None]) raises [AttributeError]. *)
Record batcher : Type := Batcher {
  b_stage : curriculum_stage;
  b_tables : derived_maps;
  b_batch_size : Z;
  b_is_eval : bool;
  b_config : config;
  b_labels : list string;
  b_num_examples : Z;
  b_batches : list data_batch;
  b_rel2id : option (odict string Z)
}.

(** [triple2id_fn(triple)] followed by [id2label[...]]. *)
Definition id2label_lookup (stage : curriculum_stage) (dm : derived_maps)
    (t : triple) : result string :=
  match stage with
  | Binary => dict_getitem "rel2binary_rel" t.1.2 (rel2binary_rel dm)
  | SubjType => dict_getitem "rel2subj" t.1.2 (rel2subj dm)
  | SubjObjType => dict_getitem "triple2subj_obj" t (triple2subj_obj dm)
  | Full => dict_getitem "id2rel" t.1.2 (id2rel dm)
  end.

(** A readied tensor: a vector or a matrix of numbers. The float tensors
    of the pipeline hold nothing but 0 and 1. *)
Inductive tensor : Type :=
| Tensor1 (v : list Z)
| Tensor2 (rows : list (list Z)).

(** What [ready_data_batch] returns: the 9-tuple under ['base'],
    ['sentence_lengths'] and ['supplemental']. *)
Record readied_batch : Type := ReadiedBatch {
  rb_words : list (list Z);
  rb_masks : list (list bool);
  rb_pos : list (list Z);
  rb_ner : list (list Z);
  rb_deprel : list (list Z);
  rb_subj_positions : list (list Z);
  rb_obj_positions : list (list Z);
  rb_rels : list (list Z);
  rb_orig_idx : list Z;
  rb_sentence_lengths : list Z;
  rb_supplemental : odict string (list tensor)
}.

Section Batcher.
Context {G : Type} `{Rng G}.
Variable env : vocab_env.

(** A row filled up with [PAD_ID] to [token_len] entries. *)
Definition pad_row (token_len : nat) (s : list Z) : list Z :=
  s ++ replicate (token_len - length s) (PAD_ID env).

(** [Batcher.get_long_tensor]: the rows padded with [PAD_ID] to the
    longest, in a tensor of [batch_size] rows. *)
Definition get_long_tensor (tokens_list : list (list Z)) (batch_size : Z)
  : result (list (list Z)) :=
  match tokens_list with
  | [] => Raise (ValueError "max() arg is an empty sequence")
  | _ :: _ =>
      let token_len := max_list (map length tokens_list) in
      if batch_size <? Py.len tokens_list then Raise IndexError
      else
        Ok (map (pad_row token_len) tokens_list ++
            replicate (Z.to_nat batch_size - length tokens_list)
                      (replicate token_len (PAD_ID env)))
  end.

(** [Batcher.word_dropout]: a draw is made only for a token that is not
    [UNK_ID]. *)
Fixpoint word_dropout (g : G) (tokens : list Z) (dropout : Qc) : list Z * G :=
  match tokens with
  | [] => ([], g)
  | x :: tokens' =>
      if decide (x = UNK_ID env) then
        let r := word_dropout g tokens' dropout in (x :: r.1, r.2)
      else
        let draw := rng_random g in
        let r := word_dropout draw.2 tokens' dropout in
        ((if decide (draw.1 < dropout)%Qc then UNK_ID env else x) :: r.1, r.2)
  end.

Fixpoint word_dropout_all (g : G) (sents : list (list Z)) (dropout : Qc)
  : list (list Z) * G :=
  match sents with
  | [] => ([], g)
  | sent :: sents' =>
      let r := word_dropout g sent dropout in
      let rs := word_dropout_all r.2 sents' dropout in
      (r.1 :: rs.1, rs.2)
  end.

(** [Batcher.ready_base_batch] *)
Definition ready_base_batch (self : batcher) (g : G)
    (base_batch : list (list (list Z))) (batch_size : Z)
  : result (readied_batch * G) :=
  let batch := zip_star base_batch in
  if negb (length batch =? 7)%nat then Raise AssertionError
  else
    tokens ← Py.index batch 0;
    let lens := map Py.len tokens in
    '(batch, orig_idx) ← sort_all list_eqb list_ltb batch lens;
    sorted_tokens ← Py.index batch 0;
    let '(words, g') :=
      if negb (b_is_eval self)
      then word_dropout_all g sorted_tokens (cfg_word_dropout (b_config self))
      else (sorted_tokens, g) in
    words ← get_long_tensor words batch_size;
    let masks := map (map (fun w => w =? 0)) words in
    pos ← Py.index batch 1 ≫= fun c => get_long_tensor c batch_size;
    ner ← Py.index batch 2 ≫= fun c => get_long_tensor c batch_size;
    deprel ← Py.index batch 3 ≫= fun c => get_long_tensor c batch_size;
    subj_positions ← Py.index batch 4 ≫= fun c => get_long_tensor c batch_size;
    obj_positions ← Py.index batch 5 ≫= fun c => get_long_tensor c batch_size;
    rels ← Py.index batch (-1) ≫= fun c => get_long_tensor c batch_size;
    Ok (ReadiedBatch words masks pos ner deprel subj_positions obj_positions
                     rels orig_idx lens [], g').

(** [self.rel2id] *)
Definition get_rel2id (self : batcher) : result (odict string Z) :=
  match b_rel2id self with
  | Some rel2id => Ok rel2id
  | None => Raise (AttributeError "rel2id")
  end.

Definition pyval_int (v : pyval) : result Z :=
  match v with
  | PInt z => Ok z
  | PSet _ => Raise TypeError
  end.

(** [binary_labels[list(sample_labels)] = 1.] on [np.zeros(num_rel)] *)
Definition multi_hot (num_rel : Z) (sample_labels : pyval) : result (list Z) :=
  match sample_labels with
  | PInt _ => Raise TypeError
  | PSet s =>
      binary_labels ← np_zeros num_rel;
      foldM (fun i labels => Py.set_index labels i 1) (elements s) binary_labels
  end.

(** [Batcher.ready_relation_masks_batch] *)
Definition ready_relation_masks_batch (self : batcher)
    (mask_batch : list (list pyval)) (sentence_lengths : list Z)
  : result (list tensor) :=
  rel2id ← get_rel2id self;
  let num_rel := Py.len rel2id in
  let batch := zip_star mask_batch in
  '(known_relations, _) ← sort_all pyval_eqb pyval_ltb batch sentence_lengths;
  column ← Py.index known_relations 0;
  labels ← mapM_result (multi_hot num_rel) column;
  Ok [Tensor2 labels].

(** The body of the loop of [ready_binary_labels_batch]. *)
Definition binary_label_vector (num_rel : Z) (label : Z) : result (list Z) :=
  binary_labels ← np_zeros num_rel;
  if label <? num_rel then Py.set_index binary_labels label 1
  else Ok binary_labels.

(** [Batcher.ready_binary_labels_batch] *)
Definition ready_binary_labels_batch (self : batcher)
    (label_batch : list (list pyval)) (sentence_lengths : list Z)
  : result (list tensor) :=
  rel2id ← get_rel2id self;
  let num_rel := Py.len rel2id - 1 in
  let batch := zip_star label_batch in
  '(batch_labels, _) ← sort_all pyval_eqb pyval_ltb batch sentence_lengths;
  column ← Py.index batch_labels 0;
  labels ← mapM_result
             (fun label => pyval_int label ≫= binary_label_vector num_rel)
             column;
  Ok [Tensor2 labels].

(** [Batcher.ready_triple_batch] *)
Definition ready_triple_batch (self : batcher)
    (triple_batch : list (list pyval)) (sentence_lengths : list Z)
  : result (list tensor) :=
  let batch := zip_star triple_batch in
  '(sorted_batch, _) ← sort_all pyval_eqb pyval_ltb batch sentence_lengths;
  match sorted_batch with
  | [subjects; relations; objects] =>
      subjects ← mapM_result pyval_int subjects;
      relations ← mapM_result pyval_int relations;
      objects ← mapM_result pyval_int objects;
      Ok [Tensor1 subjects; Tensor1 relations; Tensor1 objects]
  | _ => Raise (ValueError "not enough or too many values to unpack")
  end.

(** The loop of [ready_data_batch] over the supplemental fields: a name
    that is none of the three it knows is passed over. *)
Definition ready_supplemental (self : batcher) (sentence_lengths : list Z)
    (name_batch : string * list (list pyval))
    (readied_supplemental : odict string (list tensor))
  : result (odict string (list tensor)) :=
  let '(name, supplemental_batch) := name_batch in
  if decide (name = "relation_masks") then
    readied ← ready_relation_masks_batch self supplemental_batch sentence_lengths;
    Ok (dict_set name readied readied_supplemental)
  else if decide (name = "binary_labels") then
    readied ← ready_binary_labels_batch self supplemental_batch sentence_lengths;
    Ok (dict_set name readied readied_supplemental)
  else if decide (name = "triple") then
    readied ← ready_triple_batch self supplemental_batch sentence_lengths;
    Ok (dict_set name readied readied_supplemental)
  else Ok readied_supplemental.

Definition set_supplemental (r : readied_batch)
    (supplemental : odict string (list tensor)) : readied_batch :=
  ReadiedBatch (rb_words r) (rb_masks r) (rb_pos r) (rb_ner r) (rb_deprel r)
               (rb_subj_positions r) (rb_obj_positions r) (rb_rels r)
               (rb_orig_idx r) (rb_sentence_lengths r) supplemental.

(** [Batcher.ready_data_batch] *)
Definition ready_data_batch (self : batcher) (g : G) (batch : data_batch)
  : result (readied_batch * G) :=
  let batch_size := Py.len (batch_base batch) in
  '(readied_batch, g') ← ready_base_batch self g (batch_base batch) batch_size;
  readied_supplemental ←
    foldM (ready_supplemental self (rb_sentence_lengths readied_batch))
          (batch_supplemental batch) [];
  Ok (set_supplemental readied_batch readied_supplemental, g').

(** [Batcher.__getitem__], for an integer [item]. *)
Definition Batcher_getitem (self : batcher) (g : G) (item : Z)
  : result (readied_batch * G) :=
  if (item <? 0) || (Py.len (b_batches self) <=? item) then Raise IndexError
  else
    batch ← Py.index (b_batches self) item;
    ready_data_batch self g batch.

End Batcher.

(** ** The object store *)

(** The partitions are lists of dicts that [create_iterator] copies and
    whose copies it changes in place; which object a change reaches is
    what matters, so samples live in a store. A sample is three objects:
    the outer dict and the dicts under ['base'] and ['supplemental'].
    The sequences and tuples inside them are never changed in place and
    stay values. *)
Abbreviation loc := nat.

Inductive obj : Type :=
| OSample (base_ref supplemental_ref : loc)
| OBase (b : base_sample)
| OSupp (s : supplemental_sample)
| OList (items : list loc).

Abbreviation heap := (list obj).

(** A new object. *)
Definition alloc (h : heap) (o : obj) : heap * loc := (h ++ [o], length h).

(** Overwriting the object at [l]. *)
Definition store (h : heap) (l : loc) (o : obj) : result heap :=
  if decide (l < length h)%nat then Ok (<[l := o]> h) else Raise TypeError.

Definition load_sample (h : heap) (l : loc) : result (loc * loc) :=
  match h !! l with
  | Some (OSample base_ref supplemental_ref) => Ok (base_ref, supplemental_ref)
  | _ => Raise TypeError
  end.

Definition load_base (h : heap) (l : loc) : result base_sample :=
  match h !! l with
  | Some (OBase b) => Ok b
  | _ => Raise TypeError
  end.

Definition load_supp (h : heap) (l : loc) : result supplemental_sample :=
  match h !! l with
  | Some (OSupp s) => Ok s
  | _ => Raise TypeError
  end.

Definition load_list (h : heap) (l : loc) : result (list loc) :=
  match h !! l with
  | Some (OList items) => Ok items
  | _ => Raise TypeError
  end.

(** The value of the sample at [l]. *)
Definition read_sample (h : heap) (l : loc) : result sample :=
  '(base_ref, supplemental_ref) ← load_sample h l;
  b ← load_base h base_ref;
  s ← load_supp h supplemental_ref;
  Ok (Sample b s).

(** The samples of the list at [l], in its order. *)
Definition read_samples (h : heap) (l : loc) : result (list sample) :=
  items ← load_list h l;
  mapM_result (read_sample h) items.

(** A new sample object for a parsed sample. *)
Definition alloc_sample (h : heap) (s : sample) : heap * loc :=
  let '(h, base_ref) := alloc h (OBase (base s)) in
  let '(h, supplemental_ref) := alloc h (OSupp (supplemental s)) in
  alloc h (OSample base_ref supplemental_ref).

Fixpoint alloc_samples (h : heap) (samples : list sample) : heap * list loc :=
  match samples with
  | [] => (h, [])
  | s :: samples' =>
      let '(h, l) := alloc_sample h s in
      let '(h, ls) := alloc_samples h samples' in
      (h, l :: ls)
  end.

(** [self.partitions] in the store: for each partition name its list. *)
Fixpoint alloc_partitions (h : heap) (partitions : odict string (list sample))
  : heap * odict string loc :=
  match partitions with
  | [] => (h, [])
  | (name, samples) :: partitions' =>
      let '(h, items) := alloc_samples h samples in
      let '(h, l) := alloc h (OList items) in
      let '(h, refs) := alloc_partitions h partitions' in
      (h, (name, l) :: refs)
  end.

(** [deepcopy(raw_sample)]: new objects for the sample and for both
    dicts inside it. *)
Definition deepcopy (h : heap) (raw_sample : loc) : result (heap * loc) :=
  '(base_ref, supplemental_ref) ← load_sample h raw_sample;
  b ← load_base h base_ref;
  s ← load_supp h supplemental_ref;
  let '(h, base_ref') := alloc h (OBase b) in
  let '(h, supplemental_ref') := alloc h (OSupp s) in
  Ok (alloc h (OSample base_ref' supplemental_ref')).

(** [l.append(x)] *)
Definition list_append (h : heap) (l : loc) (x : loc) : result heap :=
  items ← load_list h l;
  store h l (OList (items ++ [x])).

(** ** Iterators *)

Definition parse_stage (name : string) : result curriculum_stage :=
  if decide (name = "binary") then Ok Binary
  else if decide (name = "subj_type") then Ok SubjType
  else if decide (name = "subj_obj_type") then Ok SubjObjType
  else if decide (name = "full") then Ok Full
  else Raise (ValueError "Curriculum stage unsupported.").

(** [np.unique]: the different values, sorted. *)
Definition np_unique (l : list Z) : list Z := merge_sort Z.le (remove_dups l).

(** The relation ids under a label, [matched_ids] before [np.unique].
    The first three tables are [defaultdict]s. *)
Definition matched_ids_of (stage : curriculum_stage) (st : processor)
    (dm : derived_maps) (relation_label : string) : result (list Z) :=
  match stage with
  | Binary => Ok (elements (dd_get relation_label (binary_rel2rels st)))
  | SubjType => Ok (elements (dd_get relation_label (subj2rels st)))
  | SubjObjType =>
      Ok (map (fun t : triple => t.1.2)
              (elements (dd_get relation_label (subj_obj2triples st))))
  | Full => elements <$> dict_getitem relation_label relation_label (rel2ids dm)
  end.

(** [activated_relations[matched_ids] = 1.] on [np.zeros(num_rel)];
    an empty [np.unique] is an array of floats, which cannot index. *)
Definition activate (num_rel : Z) (matched_ids : list Z) : result (list Z) :=
  activated_relations ← np_zeros num_rel;
  match matched_ids with
  | [] => Raise IndexError
  | _ :: _ =>
      foldM (fun i activated => Py.set_index activated i 1) matched_ids
            activated_relations
  end.

Definition set_activated (b : base_sample) (activated : list Z) : base_sample :=
  BaseSample (base_tokens b) (base_pos b) (base_ner b) (base_deprel b)
             (base_subj_positions b) (base_obj_positions b)
             (base_relation b) (base_subj_id b) (base_obj_id b) (Some activated).

Section iterators.
Context {G : Type} `{Rng G}.

(** [Batcher.__init__]; [dataset] is the list object it is given, which
    it shuffles in place. *)
Definition Batcher_init (h : heap) (g : G) (dataset : loc) (cfg : config)
    (stage : curriculum_stage) (dm : derived_maps) (batch_size : Z)
    (is_eval : bool) : result (heap * batcher * G) :=
  items ← load_list h dataset;
  '(h, g) ←
    (if negb is_eval then
       let shuffled := np_random_shuffle g items in
       h ← store h dataset (OList shuffled.1);
       Ok (h, shuffled.2)
     else Ok (h, g));
  samples ← read_samples h dataset;
  labels ← mapM_result
             (fun d => id2label_lookup stage dm (supp_triple (supplemental d)))
             samples;
  batches ← create_batches samples batch_size;
  Ok (h,
      Batcher stage dm batch_size is_eval cfg labels (Py.len samples) batches None,
      g).

(** The body of the loop of [create_iterator]. *)
Definition enrich (st : processor) (dm : derived_maps) (stage : curriculum_stage)
    (config : config) (cleaned_data : loc) (raw_sample : loc) (h : heap)
  : result heap :=
  '(h, sample) ← deepcopy h raw_sample;
  '(base_ref, supplemental_ref) ← load_sample h sample;
  b ← load_base h base_ref;
  let match_triple := (base_subj_id b, base_relation b, base_obj_id b) in
  relation_label ← id2label_lookup stage dm match_triple;
  matched_ids ← matched_ids_of stage st dm relation_label;
  activated_relations ← activate (num_rel dm) (np_unique matched_ids);
  h ← store h base_ref (OBase (set_activated b activated_relations));
  h ←
    (if cfg_relation_masking config then
       s ← load_supp h supplemental_ref;
       entry ← getfield "relation_masking" (supp_relation_masking s);
       match entry with
       | MaskTriple (subject, _, object) =>
           known_relations ← dict_getitem "graph" (subject, object) (graph st);
           store h supplemental_ref
                 (OSupp (SupplementalSample (supp_triple s)
                                            (Some (MaskKnown known_relations))))
       | MaskKnown _ =>
           Raise (ValueError "not enough values to unpack (expected 3, got 1)")
       end
     else Ok h);
  list_append h cleaned_data sample.

(** [DataProcessor.create_iterator]. [cfg] is [self.config], [config] the
    argument. [self.partitions] is a [defaultdict(list)]: an unknown
    partition name gets a new empty list. *)
Definition create_iterator (cfg : config) (st : processor)
    (partitions : odict string loc) (h : heap) (g : G)
    (config : config) (partition_name curriculum_stage : string)
  : result (heap * odict string loc * batcher * G) :=
  let '(h, partitions, partition_ref) :=
    match dict_get partition_name partitions with
    | Some l => (h, partitions, l)
    | None =>
        let '(h', l) := alloc h (OList []) in
        (h', dict_set partition_name l partitions, l)
    end in
  partition_data ← load_list h partition_ref;
  let '(h, cleaned_data) := alloc h (OList []) in
  let is_eval := bool_decide (partition_name <> "train") in
  '(partition_data, g) ←
    match cfg_sample_size cfg with
    | Some sample_size =>
        relations ← mapM_result
                      (fun l => (fun s => base_relation (base s)) <$> read_sample h l)
                      partition_data;
        perform_stratified_sampling g sample_size (rel2id st) relations
                                    partition_data
    | None => Ok (partition_data, g)
    end;
  stage ← parse_stage curriculum_stage;
  dm ← match derived st with
       | Some dm => Ok dm
       | None => Raise (KeyError "id2label")
       end;
  h ← foldM (enrich st dm stage config cleaned_data) partition_data h;
  '(h, b, g) ← Batcher_init h g cleaned_data cfg stage dm (cfg_batch_size cfg)
                            is_eval;
  Ok (h, partitions, b, g).

(** Any number of calls of [create_iterator], one after the other. *)
Fixpoint create_iterators (cfg : config) (st : processor)
    (partitions : odict string loc) (h : heap) (g : G)
    (calls : list (config * string * string))
  : result (heap * odict string loc * list batcher * G) :=
  match calls with
  | [] => Ok (h, partitions, [], g)
  | (config, partition_name, curriculum_stage) :: calls' =>
      '(h, partitions, b, g) ←
        create_iterator cfg st partitions h g config partition_name
                        curriculum_stage;
      '(h, partitions, bs, g) ← create_iterators cfg st partitions h g calls';
      Ok (h, partitions, b :: bs, g)
  end.

End iterators.
(** * Properties *)

(** ** Position sequences *)

Lemma get_positions_length (start_idx end_idx length : Z) :
  0 <= start_idx <= end_idx -> end_idx < length ->
  Py.len (get_positions start_idx end_idx length) = length.
Proof.
  intros Hs He. unfold get_positions, Py.len, Py.range, Py.repeat.
  rewrite !length_app, !length_seqZ, length_replicate. lia.
Qed.

Lemma get_positions_before (start_idx end_idx length i : Z) :
  0 <= i < start_idx ->
  get_positions start_idx end_idx length !! Z.to_nat i = Some (i - start_idx).
Proof.
  intros Hi. unfold get_positions, Py.range.
  rewrite lookup_app_l by (rewrite length_seqZ; lia).
  rewrite lookup_seqZ. split; [|lia]. f_equal. lia.
Qed.

Lemma get_positions_inside (start_idx end_idx length i : Z) :
  0 <= start_idx <= i -> i <= end_idx ->
  get_positions start_idx end_idx length !! Z.to_nat i = Some 0.
Proof.
  intros Hs Hi. unfold get_positions, Py.range, Py.repeat.
  rewrite lookup_app_r by (rewrite length_seqZ; lia).
  rewrite length_seqZ.
  rewrite lookup_app_l by (rewrite length_replicate; lia).
  apply lookup_replicate_2. lia.
Qed.

Lemma get_positions_after (start_idx end_idx length i : Z) :
  0 <= start_idx <= end_idx -> end_idx < i < length ->
  get_positions start_idx end_idx length !! Z.to_nat i = Some (i - end_idx).
Proof.
  intros Hs Hi. unfold get_positions, Py.range, Py.repeat.
  rewrite lookup_app_r by (rewrite length_seqZ; lia).
  rewrite length_seqZ.
  rewrite lookup_app_r by (rewrite length_replicate; lia).
  rewrite length_replicate, lookup_seqZ. split; [|lia]. f_equal. lia.
Qed.

(** ** Sorting a batch by sentence length *)

Section sort_all_facts.
Context {V : Type}.
Variables (V_eqb V_ltb : V -> V -> bool).

(** The order [sort_all] realises: by length, then by original position. *)
Definition key_ltb (a b : row (V:=V)) : bool :=
  (row_len a <? row_len b) ||
  ((row_len a =? row_len b) && (row_idx a <? row_idx b)).

Definition key_gt (a b : row (V:=V)) : Prop := key_ltb b a = true.

Lemma key_gt_iff a b :
  key_gt a b <->
  row_len b < row_len a \/ (row_len b = row_len a /\ row_idx b < row_idx a).
Proof.
  unfold key_gt, key_ltb.
  rewrite orb_true_iff, andb_true_iff, !Z.ltb_lt, Z.eqb_eq. tauto.
Qed.

Lemma key_gt_trans a b c : key_gt a b -> key_gt b c -> key_gt a c.
Proof. rewrite !key_gt_iff. lia. Qed.

(** Two tuples at different positions are ordered before any field value
    is looked at. *)
Lemma row_ltb_key a b :
  row_idx a <> row_idx b -> row_ltb V_eqb V_ltb a b = key_ltb a b.
Proof.
  intros Hne. unfold row_ltb, key_ltb.
  destruct (Z.eqb_spec (row_len a) (row_len b)) as [E|E]; simpl.
  - destruct (Z.eqb_spec (row_idx a) (row_idx b)); [done|]; simpl.
    rewrite E, Z.ltb_irrefl. done.
  - destruct (Z.ltb_spec (row_len a) (row_len b)); done.
Qed.

Lemma row_ltb_false_gt a b :
  row_idx a <> row_idx b -> row_ltb V_eqb V_ltb a b = false -> key_gt a b.
Proof.
  intros Hne. rewrite row_ltb_key by done. rewrite key_gt_iff.
  unfold key_ltb. rewrite orb_false_iff, andb_false_iff, !Z.ltb_ge, Z.eqb_neq.
  lia.
Qed.

Lemma insert_desc_perm x l :
  Permutation (insert_desc V_eqb V_ltb x l) (x :: l).
Proof.
  induction l as [|y l IH]; simpl; [done|].
  destruct (row_ltb V_eqb V_ltb x y); [|done].
  rewrite IH. apply perm_swap.
Qed.

Lemma sorted_reverse_perm rows :
  Permutation (sorted_reverse V_eqb V_ltb rows) rows.
Proof.
  induction rows as [|x rows IH]; simpl; [done|].
  rewrite insert_desc_perm. by constructor.
Qed.

Lemma insert_desc_sorted x l :
  Forall (fun y => row_idx y <> row_idx x) l ->
  StronglySorted key_gt l ->
  StronglySorted key_gt (insert_desc V_eqb V_ltb x l).
Proof.
  induction l as [|y l IH]; simpl; intros Hne Hs.
  - repeat constructor.
  - apply Forall_cons_1 in Hne as [Hy Hne].
    apply StronglySorted_inv in Hs as [Hs Hall].
    destruct (row_ltb V_eqb V_ltb x y) eqn:E.
    + constructor; [by apply IH|].
      rewrite insert_desc_perm. constructor; [|done].
      rewrite row_ltb_key in E by done. exact E.
    + assert (key_gt x y) as Hxy by (apply row_ltb_false_gt; done).
      constructor; [by constructor|].
      constructor; [done|].
      eapply Forall_impl; [exact Hall|].
      intros z Hz. by eapply key_gt_trans.
Qed.

Lemma sorted_reverse_sorted rows :
  NoDup (map row_idx rows) ->
  StronglySorted key_gt (sorted_reverse V_eqb V_ltb rows).
Proof.
  induction rows as [|x rows IH]; simpl; intros Hnd.
  - constructor.
  - apply NoDup_cons in Hnd as [Hx Hnd].
    apply insert_desc_sorted; [|by apply IH].
    rewrite sorted_reverse_perm. apply Forall_forall.
    intros y Hy E. apply Hx. rewrite <- E.
    apply list_elem_of_fmap. by exists y.
Qed.

End sort_all_facts.

(** The sorted order does not depend on how field values compare. *)
Lemma insert_desc_fields_irrelevant {V} (eqb ltb eqb' ltb' : V -> V -> bool) x l :
  Forall (fun y => row_idx y <> row_idx x) l ->
  insert_desc eqb ltb x l = insert_desc eqb' ltb' x l.
Proof.
  induction 1 as [|y l Hy Hall IHl]; simpl; [done|].
  rewrite !row_ltb_key by done. by rewrite IHl.
Qed.

Lemma sorted_reverse_fields_irrelevant {V} (eqb ltb eqb' ltb' : V -> V -> bool) rows :
  NoDup (map row_idx rows) ->
  sorted_reverse eqb ltb rows = sorted_reverse eqb' ltb' rows.
Proof.
  induction rows as [|x rows IH]; simpl; intros Hnd; [done|].
  apply NoDup_cons in Hnd as [Hx Hnd]. rewrite IH by done.
  apply insert_desc_fields_irrelevant.
  rewrite sorted_reverse_perm. apply Forall_forall.
  intros y Hy E. apply Hx. rewrite <- E. apply list_elem_of_fmap. by exists y.
Qed.

(** [zip_star] is the transposition of columns of one length. *)
Lemma zip_star_spec {V} (cols : list (list V)) (n : nat) :
  cols <> [] -> Forall (fun c => length c = n) cols ->
  length (zip_star cols) = n /\
  forall i r, zip_star cols !! i = Some r ->
    length r = length cols /\ forall j, r !! j = cols !! j ≫= (.!! i).
Proof.
  induction cols as [|c cs IH]; [done|]. intros _ Hall.
  apply Forall_cons_1 in Hall as [Hc Hall].
  destruct cs as [|c2 cs].
  - simpl. split; [by rewrite length_map|].
    intros i r Hr. rewrite list_lookup_fmap in Hr.
    destruct (c !! i) as [x|] eqn:Hx; [|done]. injection Hr as <-.
    split; [done|]. intros [|j]; simpl; [by rewrite Hx | done].
  - destruct IH as [Hlen Hrows]; [done|done|].
    change (zip_star (c :: c2 :: cs)) with (zip_with cons c (zip_star (c2 :: cs))).
    split; [rewrite length_zip_with; lia|].
    intros i r Hr. apply lookup_zip_with_Some in Hr as (x & r' & -> & Hx & Hr').
    destruct (Hrows i r' Hr') as [Hl Hj]. split; [simpl; by rewrite Hl|].
    intros [|j]; [simpl; by rewrite Hx | apply Hj].
Qed.

Lemma field_rows_spec {V} (batch : list (list V)) (n : nat) :
  Forall (fun c => length c = n) batch ->
  length (field_rows n batch) = n /\
  forall i r, field_rows n batch !! i = Some r ->
    length r = length batch /\ forall j, r !! j = batch !! j ≫= (.!! i).
Proof.
  intros Hall. destruct batch as [|c cs].
  - simpl. split; [by rewrite length_replicate|].
    intros i r [-> _]%lookup_replicate. done.
  - by apply zip_star_spec.
Qed.

Lemma zip_rows_length {V} (lens : list Z) (batch : list (list V)) :
  Forall (fun c => length c = length lens) batch ->
  length (zip_rows lens batch) = length lens.
Proof.
  intros Hall. unfold zip_rows.
  destruct (field_rows_spec batch (length lens) Hall) as [Hl _].
  rewrite length_zip_with, length_zip, Hl. unfold Py.range, Py.len.
  rewrite length_seqZ. lia.
Qed.

Lemma zip_rows_lookup {V} (lens : list Z) (batch : list (list V)) i r :
  Forall (fun c => length c = length lens) batch ->
  zip_rows lens batch !! i = Some r ->
  row_idx r = Z.of_nat i /\ lens !! i = Some (row_len r) /\
  length (row_fields r) = length batch /\
  forall j, row_fields r !! j = batch !! j ≫= (.!! i).
Proof.
  intros Hall Hr. unfold zip_rows in Hr.
  apply lookup_zip_with_Some in Hr as ([l o] & fs & -> & Hlo & Hfs).
  apply lookup_zip_with_Some in Hlo as (l' & o' & [= <- <-] & Hl & Ho).
  unfold Py.range in Ho. apply lookup_seqZ in Ho as [-> _].
  destruct (field_rows_spec batch (length lens) Hall) as [_ Hrows].
  destruct (Hrows i fs Hfs) as [Hlen Hj]. simpl.
  repeat split; done.
Qed.

Lemma zip_rows_idx {V} (lens : list Z) (batch : list (list V)) :
  Forall (fun c => length c = length lens) batch ->
  map row_idx (zip_rows lens batch) = Py.range 0 (Py.len lens).
Proof.
  intros Hall. apply list_eq. intros i.
  change (map row_idx) with (fmap (M:=list) (@row_idx V)).
  rewrite list_lookup_fmap.
  destruct (zip_rows lens batch !! i) as [r|] eqn:Hr; simpl.
  - destruct (zip_rows_lookup _ _ _ _ Hall Hr) as (Hi & _).
    symmetry. unfold Py.range. apply lookup_seqZ.
    apply lookup_lt_Some in Hr. rewrite zip_rows_length in Hr by done.
    unfold Py.len. rewrite Hi. lia.
  - symmetry. apply lookup_ge_None. apply lookup_ge_None in Hr.
    rewrite zip_rows_length in Hr by done.
    unfold Py.range, Py.len. rewrite length_seqZ. lia.
Qed.

Lemma range_NoDup (a b : Z) : NoDup (Py.range a b).
Proof. apply NoDup_seqZ. Qed.

Lemma StronglySorted_lookup_lt {A} (R : A -> A -> Prop) (l : list A) i j x y :
  StronglySorted R l -> (i < j)%nat -> l !! i = Some x -> l !! j = Some y -> R x y.
Proof.
  intros Hs. revert i j. induction Hs as [|z l Hs IH Hall]; intros i j Hij Hx Hy.
  - done.
  - destruct j as [|j]; [lia|]. destruct i as [|i]; simpl in *.
    + injection Hx as ->. rewrite Forall_forall in Hall.
      apply Hall. by eapply list_elem_of_lookup_2.
    + apply (IH i j); [lia | done | done].
Qed.

(** What the claim of a stable tie-break says, and what the code does. *)
Definition reordered_by {A} (orig_idx : list Z) (c c' : list A) : Prop :=
  length c' = length c /\
  forall i o, orig_idx !! i = Some o -> c' !! i = c !! Z.to_nat o.

Definition lengths_descending (lens orig_idx : list Z) : Prop :=
  forall i j oi oj, (i < j)%nat ->
    orig_idx !! i = Some oi -> orig_idx !! j = Some oj ->
    exists li lj, lens !! Z.to_nat oi = Some li /\ lens !! Z.to_nat oj = Some lj /\
                  lj <= li.

Definition ties_earlier_first (lens orig_idx : list Z) : Prop :=
  forall i j oi oj, (i < j)%nat ->
    orig_idx !! i = Some oi -> orig_idx !! j = Some oj ->
    lens !! Z.to_nat oi = lens !! Z.to_nat oj -> oi < oj.

Definition ties_later_first (lens orig_idx : list Z) : Prop :=
  forall i j oi oj, (i < j)%nat ->
    orig_idx !! i = Some oi -> orig_idx !! j = Some oj ->
    lens !! Z.to_nat oi = lens !! Z.to_nat oj -> oj < oi.

Section sort_all_spec.
Context {V : Type}.
Variables (V_eqb V_ltb : V -> V -> bool).

(** The shape of a successful [sort_all]. *)
Lemma sort_all_inv (batch : list (list V)) (lens : list Z) sorted orig_idx :
  sort_all V_eqb V_ltb batch lens = Ok (sorted, orig_idx) ->
  let srows := sorted_reverse V_eqb V_ltb (zip_rows lens batch) in
  srows <> [] /\ sorted = zip_star (map row_fields srows) /\
  orig_idx = map row_idx srows.
Proof.
  unfold sort_all. simpl.
  destruct (sorted_reverse V_eqb V_ltb (zip_rows lens batch)) as [|r rs]; [done|].
  intros [= <- <-]. done.
Qed.

Lemma sort_all_returns (batch : list (list V)) (lens : list Z) :
  lens <> [] ->
  Forall (fun c => length c = length lens) batch ->
  exists sorted orig_idx, sort_all V_eqb V_ltb batch lens = Ok (sorted, orig_idx).
Proof.
  intros Hne Hall. unfold sort_all.
  destruct (sorted_reverse V_eqb V_ltb (zip_rows lens batch)) as [|r rs] eqn:E.
  - exfalso. pose proof (sorted_reverse_perm V_eqb V_ltb (zip_rows lens batch)) as Hp.
    rewrite E in Hp. apply Permutation_length in Hp.
    rewrite zip_rows_length in Hp by done. destruct lens; [done | simpl in Hp; lia].
  - eauto.
Qed.

Lemma sorted_row_origin (batch : list (list V)) (lens : list Z) i r :
  Forall (fun c => length c = length lens) batch ->
  sorted_reverse V_eqb V_ltb (zip_rows lens batch) !! i = Some r ->
  0 <= row_idx r /\
  lens !! Z.to_nat (row_idx r) = Some (row_len r) /\
  length (row_fields r) = length batch /\
  forall j, row_fields r !! j = batch !! j ≫= (.!! Z.to_nat (row_idx r)).
Proof.
  intros Hall Hr.
  assert (r ∈ zip_rows lens batch) as Hin.
  { rewrite <- (sorted_reverse_perm V_eqb V_ltb). by eapply list_elem_of_lookup_2. }
  apply list_elem_of_lookup_1 in Hin as [p Hp].
  destruct (zip_rows_lookup _ _ _ _ Hall Hp) as (Hi & Hl & Hlen & Hj).
  rewrite Hi, Nat2Z.id. repeat split; [lia | done | done | done].
Qed.

Lemma sort_all_perm (batch : list (list V)) (lens : list Z) sorted orig_idx :
  Forall (fun c => length c = length lens) batch ->
  sort_all V_eqb V_ltb batch lens = Ok (sorted, orig_idx) ->
  Permutation orig_idx (Py.range 0 (Py.len lens)).
Proof.
  intros Hall Hs. apply sort_all_inv in Hs as (_ & _ & ->).
  rewrite <- (zip_rows_idx lens batch) by done.
  apply Permutation_map, sorted_reverse_perm.
Qed.

Lemma sort_all_reordered (batch : list (list V)) (lens : list Z) sorted orig_idx :
  Forall (fun c => length c = length lens) batch ->
  sort_all V_eqb V_ltb batch lens = Ok (sorted, orig_idx) ->
  Forall2 (reordered_by orig_idx) batch sorted.
Proof.
  intros Hall Hs. pose proof (sort_all_perm _ _ _ _ Hall Hs) as Hperm.
  apply sort_all_inv in Hs as (Hne & -> & ->).
  set (srows := sorted_reverse V_eqb V_ltb (zip_rows lens batch)) in *.
  assert (Forall (fun c => length c = length batch) (map row_fields srows)) as Hk.
  { apply Forall_forall. intros fs Hfs.
    apply list_elem_of_fmap in Hfs as (r & -> & Hr).
    apply list_elem_of_lookup_1 in Hr as [i Hi].
    by destruct (sorted_row_origin _ _ _ _ Hall Hi) as (_ & _ & ? & _). }
  destruct (zip_star_spec (map row_fields srows) (length batch)) as [Hlen Hcols];
    [by destruct srows | done |].
  apply Forall2_same_length_lookup_2; [done|].
  intros j c c' Hc Hc'. destruct (Hcols j c' Hc') as [Hl Hij].
  assert (length srows = length lens) as Hn.
  { unfold srows. rewrite (Permutation_length (sorted_reverse_perm _ _ _)).
    by apply zip_rows_length. }
  split.
  - rewrite Hl, length_map, Hn. rewrite Forall_forall in Hall.
    symmetry. apply Hall. by eapply list_elem_of_lookup_2.
  - intros i o Ho.
    change (map row_idx) with (fmap (M:=list) (@row_idx V)) in Ho.
    rewrite list_lookup_fmap in Ho.
    destruct (srows !! i) as [r|] eqn:Hr; [|done]. injection Ho as <-.
    rewrite Hij.
    change (map row_fields) with (fmap (M:=list) (@row_fields V)).
    rewrite list_lookup_fmap, Hr. simpl.
    destruct (sorted_row_origin _ _ _ _ Hall Hr) as (_ & _ & _ & Hf).
    rewrite Hf, Hc. done.
Qed.

Lemma sort_all_order (batch : list (list V)) (lens : list Z) sorted orig_idx :
  Forall (fun c => length c = length lens) batch ->
  sort_all V_eqb V_ltb batch lens = Ok (sorted, orig_idx) ->
  forall i j oi oj, (i < j)%nat ->
    orig_idx !! i = Some oi -> orig_idx !! j = Some oj ->
    exists li lj, lens !! Z.to_nat oi = Some li /\ lens !! Z.to_nat oj = Some lj /\
                  (lj < li \/ (lj = li /\ oj < oi)).
Proof.
  intros Hall Hs i j oi oj Hij Hi Hj.
  apply sort_all_inv in Hs as (Hne & -> & ->).
  set (srows := sorted_reverse V_eqb V_ltb (zip_rows lens batch)) in *.
  change (map row_idx) with (fmap (M:=list) (@row_idx V)) in Hi, Hj.
  rewrite list_lookup_fmap in Hi, Hj.
  destruct (srows !! i) as [ri|] eqn:Hri; [|done]. injection Hi as <-.
  destruct (srows !! j) as [rj|] eqn:Hrj; [|done]. injection Hj as <-.
  destruct (sorted_row_origin _ _ _ _ Hall Hri) as (_ & Hli & _).
  destruct (sorted_row_origin _ _ _ _ Hall Hrj) as (_ & Hlj & _).
  exists (row_len ri), (row_len rj). split; [done|]. split; [done|].
  apply key_gt_iff.
  apply (StronglySorted_lookup_lt key_gt srows i j); [|done..].
  apply sorted_reverse_sorted. rewrite zip_rows_idx by done. apply range_NoDup.
Qed.

End sort_all_spec.

(** ** Undoing the sort *)

Lemma restore_order_length {A} (orig_idx : list Z) (items init : list A) :
  length (restore_order orig_idx items init) = length init.
Proof.
  unfold restore_order. revert init.
  induction (zip orig_idx items) as [|[o x] l IH]; intros init; simpl; [done|].
  rewrite IH. apply length_insert.
Qed.

Lemma restore_order_untouched {A} (orig_idx : list Z) (items init : list A) p :
  Forall (fun o => Z.to_nat o <> p) orig_idx ->
  restore_order orig_idx items init !! p = init !! p.
Proof.
  unfold restore_order. revert items init.
  induction orig_idx as [|o os IH]; intros items init Hall; [done|].
  destruct items as [|x items]; [done|]. simpl.
  apply Forall_cons_1 in Hall as [Ho Hall].
  rewrite IH by done. by apply list_lookup_insert_ne.
Qed.

Lemma restore_order_placed {A} (orig_idx : list Z) (items init : list A) i o x :
  NoDup (Z.to_nat <$> orig_idx) ->
  orig_idx !! i = Some o -> items !! i = Some x ->
  (Z.to_nat o < length init)%nat ->
  restore_order orig_idx items init !! Z.to_nat o = Some x.
Proof.
  revert items init i.
  induction orig_idx as [|o0 os IH]; intros items init i Hnd Ho Hx Hlt; [done|].
  destruct items as [|x0 items]; [done|].
  rewrite fmap_cons in Hnd. apply NoDup_cons in Hnd as [Hnin Hnd].
  change (restore_order (o0 :: os) (x0 :: items) init)
    with (restore_order os items (<[Z.to_nat o0 := x0]> init)).
  destruct i as [|i]; simpl in Ho, Hx.
  - injection Ho as ->. injection Hx as ->.
    rewrite restore_order_untouched.
    + by apply list_lookup_insert_eq.
    + apply Forall_forall. intros o' Ho' E. apply Hnin.
      rewrite <- E. apply list_elem_of_fmap. by exists o'.
  - apply (IH items _ i); [done | done | done |]. by rewrite length_insert.
Qed.

(** Restoring along a permutation of the positions undoes the reordering. *)
Lemma restore_order_reordered {A} (orig_idx : list Z) (c c' init : list A) :
  Permutation orig_idx (Py.range 0 (Py.len c)) ->
  reordered_by orig_idx c c' ->
  length init = length c ->
  restore_order orig_idx c' init = c.
Proof.
  intros Hperm [Hlen Hre] Hinit.
  assert (NoDup (Z.to_nat <$> orig_idx)) as Hnd.
  { rewrite Hperm. unfold Py.range, Py.len.
    apply NoDup_fmap_2_strong; [|apply NoDup_seqZ].
    intros a b Ha%elem_of_seqZ Hb%elem_of_seqZ E. lia. }
  apply list_eq. intros p.
  destruct (decide (p < length c)%nat) as [Hp|Hp].
  - assert (Z.of_nat p ∈ orig_idx) as Hin.
    { rewrite Hperm. unfold Py.range, Py.len. apply elem_of_seqZ. lia. }
    apply list_elem_of_lookup_1 in Hin as [i Hi].
    assert (i < length c')%nat as Hic.
    { rewrite Hlen. apply lookup_lt_Some in Hi.
      rewrite (Permutation_length Hperm) in Hi.
      unfold Py.range, Py.len in Hi. rewrite length_seqZ in Hi. lia. }
    destruct (lookup_lt_is_Some_2 c' i Hic) as [x Hx].
    pose proof (restore_order_placed orig_idx c' init i _ x Hnd Hi Hx) as Hr.
    rewrite Nat2Z.id in Hr. rewrite Hr by lia.
    rewrite <- Hx, (Hre i _ Hi), Nat2Z.id. done.
  - rewrite (lookup_ge_None_2 c) by lia.
    apply lookup_ge_None_2. rewrite restore_order_length. lia.
Qed.

Lemma sort_all_restore {V} (V_eqb V_ltb : V -> V -> bool)
    (batch : list (list V)) (lens : list Z) sorted orig_idx (init : list V) :
  Forall (fun c => length c = length lens) batch ->
  length init = length lens ->
  sort_all V_eqb V_ltb batch lens = Ok (sorted, orig_idx) ->
  Forall2 (fun c c' => restore_order orig_idx c' init = c) batch sorted.
Proof.
  intros Hall Hinit Hs.
  pose proof (sort_all_perm _ _ _ _ _ _ Hall Hs) as Hperm.
  pose proof (sort_all_reordered _ _ _ _ _ _ Hall Hs) as Hre.
  rewrite Forall_forall in Hall.
  apply Forall2_same_length_lookup_2; [by eapply Forall2_length|].
  intros j c c' Hc Hc'.
  assert (length c = length lens) as Hcl by (apply Hall; by eapply list_elem_of_lookup_2).
  apply restore_order_reordered.
  - unfold Py.len in *. by rewrite Hcl.
  - by eapply Forall2_lookup_lr.
  - congruence.
Qed.

(** ** Dictionaries of sets *)

Lemma dict_set_length_new {K A} `{EqDecision K} (k : K) (v : A) (d : odict K A) :
  dict_get k d = None -> length (dict_set k v d) = S (length d).
Proof.
  induction d as [|[k' v'] d IH]; simpl; [done|].
  destruct (decide (k = k')); [done|]. intros H. simpl. by rewrite IH.
Qed.

Lemma dict_mem_true {K A} `{EqDecision K} (k : K) (d : odict K A) :
  dict_mem k d = true <-> is_Some (dict_get k d).
Proof.
  unfold dict_mem. destruct (dict_get k d); split; try done; try eauto.
Qed.

Lemma dict_mem_false {K A} `{EqDecision K} (k : K) (d : odict K A) :
  dict_mem k d = false <-> dict_get k d = None.
Proof. unfold dict_mem. by destruct (dict_get k d). Qed.

Lemma dict_get_values {K A} `{EqDecision K} (k : K) (v : A) (d : odict K A) :
  dict_get k d = Some v -> v ∈ dict_values d.
Proof. intros H. eapply dict_elem_values, dict_get_Some_elem, H. Qed.

Lemma dd_get_add {K A} `{EqDecision K} `{Countable A}
    (k k' : K) (x y : A) (d : odict K (gset A)) :
  y ∈ dd_get k' (dd_add k x d) <-> (k' = k /\ y = x) \/ y ∈ dd_get k' d.
Proof.
  unfold dd_add, dd_get. rewrite dict_get_set.
  destruct (decide (k = k')) as [->|Hne]; simpl.
  - rewrite elem_of_union, elem_of_singleton. tauto.
  - split; [tauto|]. intros [[-> _]|?]; done.
Qed.

(** Every member of a bucket is a member of some entry, and conversely
    when keys are not repeated (which [dict_set] maintains). *)
Lemma dd_get_elem {K A} `{EqDecision K} `{Countable A}
    (k : K) (x : A) (d : odict K (gset A)) :
  x ∈ dd_get k d -> exists s, (k, s) ∈ d /\ x ∈ s.
Proof.
  unfold dd_get. destruct (dict_get k d) as [s|] eqn:E; simpl; [|set_solver].
  intros Hx. exists s. split; [by apply dict_get_Some_elem | done].
Qed.

(** ** [reverse_set_maps] *)

Lemma fold_dict_set_get {K A} `{EqDecision A} (key : K) (values : list A)
    (acc : odict A K) (x : A) :
  dict_get x (fold_left (fun acc value => dict_set value key acc) values acc) =
  if decide (x ∈ values) then Some key else dict_get x acc.
Proof.
  revert acc. induction values as [|v values IH]; intros acc.
  - case_decide as Hin; [by apply elem_of_nil in Hin | done].
  - cbn [fold_left]. rewrite IH, dict_get_set.
    repeat case_decide; subst; try done.
    + exfalso. match goal with H : _ ∉ _ :: _ |- _ => apply H end.
      by apply list_elem_of_further.
    + exfalso. match goal with H : _ ∉ _ :: _ |- _ => apply H end.
      apply list_elem_of_here.
    + exfalso. match goal with H : _ ∈ _ :: _ |- _ =>
        apply elem_of_cons in H as [?|?] end; done.
Qed.

Lemma reverse_set_maps_fold_is_Some {K A} `{EqDecision A} `{Countable A}
    (dict2set : odict K (gset A)) (acc : odict A K) (x : A) :
  is_Some (dict_get x
    (fold_left
       (fun id2id kv =>
          fold_left (fun acc value => dict_set value kv.1 acc) (elements kv.2) id2id)
       dict2set acc)) <->
  is_Some (dict_get x acc) \/ exists key s, (key, s) ∈ dict2set /\ x ∈ s.
Proof.
  revert acc. induction dict2set as [|[key s] d IH]; intros acc; simpl.
  - split; [by left|]. intros [?|(k & s & Hin & _)]; [done|].
    by apply elem_of_nil in Hin.
  - rewrite IH, fold_dict_set_get. split.
    + intros [Hs|(k' & s' & Hin & Hx)].
      * destruct (decide (x ∈ elements s)) as [Hin|Hnin]; [|by left].
        right. exists key, s. split; [apply list_elem_of_here|].
        by apply elem_of_elements.
      * right. exists k', s'. split; [by apply list_elem_of_further | done].
    + intros [Hs|(k' & s' & Hin & Hx)].
      * left. destruct (decide (x ∈ elements s)); [eauto | done].
      * apply elem_of_cons in Hin as [[= -> ->]|Hin].
        -- left. rewrite decide_True; [eauto | by apply elem_of_elements].
        -- right. eauto.
Qed.

Lemma reverse_set_maps_is_Some {K A} `{EqDecision A} `{Countable A}
    (dict2set : odict K (gset A)) (x : A) :
  is_Some (dict_get x (reverse_set_maps dict2set)) <->
  exists key s, (key, s) ∈ dict2set /\ x ∈ s.
Proof.
  unfold reverse_set_maps. rewrite reverse_set_maps_fold_is_Some. simpl.
  split; [intros [[? ?]|?]; done | by right].
Qed.

(** ** The closed triple world *)

Lemma fold_union_singleton_elem {A B} `{Countable B} (f : A -> B) (l : list A)
    (acc : gset B) (y : B) :
  y ∈ fold_left (fun acc x => {[ f x ]} ∪ acc) l acc <->
  y ∈ acc \/ exists x, x ∈ l /\ y = f x.
Proof.
  revert acc. induction l as [|x l IH]; intros acc; simpl.
  - split; [by left|]. intros [?|(x & Hx & _)]; [done|]. by apply elem_of_nil in Hx.
  - rewrite IH, elem_of_union, elem_of_singleton. split.
    + intros [[->|?]|(x' & Hx' & ->)].
      * right. exists x. split; [apply list_elem_of_here | done].
      * by left.
      * right. exists x'. split; [by apply list_elem_of_further | done].
    + intros [?|(x' & [->|Hx']%elem_of_cons & ->)].
      * left. by right.
      * left. by left.
      * right. eauto.
Qed.

Lemma fold_fold_elem {A B} `{Countable B} (g : gset B -> A -> gset B)
    (P : A -> B -> Prop) (l : list A) (acc : gset B) (y : B) :
  (forall a acc y, y ∈ g acc a <-> y ∈ acc \/ P a y) ->
  y ∈ fold_left g l acc <->
  y ∈ acc \/ exists a, a ∈ l /\ P a y.
Proof.
  intros Hg. revert acc. induction l as [|a l IH]; intros acc; simpl.
  - split; [by left|]. intros [?|(x & Hx & _)]; [done|]. by apply elem_of_nil in Hx.
  - rewrite IH, Hg. split.
    + intros [[?|?]|(a' & Ha' & ?)].
      * by left.
      * right. exists a. split; [apply list_elem_of_here | done].
      * right. exists a'. split; [by apply list_elem_of_further | done].
    + intros [?|(a' & [->|Ha']%elem_of_cons & ?)].
      * left. by left.
      * left. by right.
      * right. eauto.
Qed.

Lemma create_all_possible_triples_elem (st : processor) (s r o : Z) :
  (s, r, o) ∈ create_all_possible_triples st <->
  s ∈ dict_values (subj2id st) /\ r ∈ dict_values (rel2id st) /\
  o ∈ dict_values (obj2id st).
Proof.
  unfold create_all_possible_triples.
  etrans.
  { apply (fold_fold_elem _
      (fun subject y => exists relation object,
         relation ∈ dict_values (rel2id st) /\ object ∈ dict_values (obj2id st) /\
         y = (subject, relation, object))).
    intros subject acc y. cbv beta. etrans.
    { apply (fold_fold_elem _
        (fun relation y => exists object,
           object ∈ dict_values (obj2id st) /\ y = (subject, relation, object))).
      intros relation acc' y'. cbv beta.
      apply (fold_union_singleton_elem (fun object => (subject, relation, object))). }
    split.
    - intros [?|(r' & Hr & o' & Ho & ->)]; [by left|]. right. by exists r', o'.
    - intros [?|(r' & o' & Hr & Ho & ->)]; [by left|]. right. exists r'.
      split; [done|]. by exists o'. }
  split.
  - intros [Hin|(s' & Hs & r' & o' & Hr & Ho & [= -> -> ->])]; [|done].
    by apply not_elem_of_empty in Hin.
  - intros (Hs & Hr & Ho). right. exists s. split; [done|]. by exists r, o.
Qed.

(** The assertion of [add_unused_triples] never fires on triples that are
    pairwise different and not yet keys. *)
Lemma add_unused_list_spec (l : list triple) (m : odict triple string) :
  NoDup l -> (forall t, t ∈ l -> dict_get t m = None) ->
  exists m',
    foldM (fun unused_triple mappings =>
             if dict_mem unused_triple mappings then Raise AssertionError
             else Ok (dict_set unused_triple "no_relation" mappings)) l m = Ok m' /\
    forall t, dict_get t m' =
              if decide (t ∈ l) then Some "no_relation" else dict_get t m.
Proof.
  revert m. induction l as [|t0 l IH]; intros m Hnd Hnew; cbn [foldM].
  - exists m. split; [done|]. intros t.
    case_decide as Hin; [by apply elem_of_nil in Hin | done].
  - apply NoDup_cons in Hnd as [Hnin Hnd].
    assert (dict_mem t0 m = false) as ->.
    { apply dict_mem_false, Hnew, list_elem_of_here. }
    cbn [mbind result_bind]. destruct (IH (dict_set t0 "no_relation" m)) as (m' & Hm' & Hget); [done| |].
    + intros t Ht. rewrite dict_get_set_ne; [|by intros ->].
      apply Hnew. by apply list_elem_of_further.
    + exists m'. split; [done|]. intros t. rewrite Hget, dict_get_set.
      destruct (decide (t ∈ l)) as [Hl|Hl], (decide (t ∈ t0 :: l)) as [Hc|Hc],
               (decide (t0 = t)) as [->|Hne]; try done;
        try (exfalso; apply Hc; rewrite elem_of_cons; auto; fail).
      apply elem_of_cons in Hc as [?|?]; done.
Qed.

Lemma add_unused_triples_spec (all : gset triple) (m : odict triple string) :
  exists m',
    add_unused_triples (all ∖ list_to_set (dict_keys m)) m = Ok m' /\
    forall t, dict_get t m' =
              match dict_get t m with
              | Some label => Some label
              | None => if decide (t ∈ all) then Some "no_relation" else None
              end.
Proof.
  unfold add_unused_triples.
  destruct (add_unused_list_spec (elements (all ∖ list_to_set (dict_keys m))) m)
    as (m' & Hm' & Hget).
  - apply NoDup_elements.
  - intros t Ht. apply elem_of_elements, elem_of_difference in Ht as [_ Hnk].
    apply dict_get_None_keys. intros Hk. apply Hnk. by apply elem_of_list_to_set.
  - exists m'. split; [done|]. intros t. rewrite Hget.
    destruct (dict_get t m) as [label|] eqn:E.
    + case_decide as Hin; [|done].
      apply elem_of_elements, elem_of_difference in Hin as [_ Hnk].
      exfalso. apply Hnk, elem_of_list_to_set, dict_get_is_Some_keys. by rewrite E.
    + apply dict_get_None_keys in E.
      repeat case_decide; try done.
      * exfalso. match goal with H : _ ∉ all |- _ => apply H end.
        match goal with H : _ ∈ elements _ |- _ =>
          apply elem_of_elements, elem_of_difference in H as [? _] end. done.
      * exfalso. match goal with H : _ ∉ elements _ |- _ => apply H end.
        apply elem_of_elements, elem_of_difference. split; [done|].
        by rewrite elem_of_list_to_set.
Qed.

(** The computation of the curriculum mappings always completes. *)
Lemma curriculum_mappings_spec (st : processor) :
  exists dm,
    curriculum_mappings st = Ok dm /\
    num_rel dm = Py.len (rel2id st) /\
    forall t, dict_get t (triple2subj_obj dm) =
              match dict_get t (reverse_set_maps (subj_obj2triples st)) with
              | Some label => Some label
              | None => if decide (t ∈ create_all_possible_triples st)
                        then Some "no_relation" else None
              end.
Proof.
  unfold curriculum_mappings.
  destruct (add_unused_triples_spec (create_all_possible_triples st)
              (reverse_set_maps (subj_obj2triples st))) as (m' & -> & Hget).
  simpl. eexists. split; [done|]. simpl. done.
Qed.

(** ** Parsing one record *)

Lemma dict_getitem_Ok {K A} `{EqDecision K} (name : string) (k : K)
    (d : odict K A) (v : A) :
  dict_getitem name k d = Ok v <-> dict_get k d = Some v.
Proof.
  unfold dict_getitem. destruct (dict_get k d); split; intros [=]; by subst.
Qed.

Lemma bind_Raise {A B} (f : A -> result B) (m : result A) (e : exn) :
  m ≫= f = Raise e -> m = Raise e \/ exists a, m = Ok a /\ f a = Raise e.
Proof. destruct m; simpl; [eauto | intros [= ->]; by left]. Qed.

Lemma add_relation_get (relation_name : string) (rel2id : odict string Z) :
  exists relation_id,
    dict_get relation_name (add_relation relation_name rel2id) = Some relation_id.
Proof.
  unfold add_relation. destruct (dict_mem relation_name rel2id) eqn:E.
  - apply dict_mem_true in E as [v Hv]. eauto.
  - rewrite dict_get_set_eq. eauto.
Qed.

Section parse_record_facts.
Variable cfg : config.
Variable env : vocab_env.

(** Reading the loop body backwards: what a record that parses holds, and
    what the loop body made of it. *)
Lemma parse_record_Ok (d : raw_record) (st st' : processor) (s : sample) :
  parse_record cfg env d st = Ok (st', s) <->
  exists tokens ss se os oe subj_type obj_type subject_id object_id
         stanford_pos stanford_ner stanford_deprel relation relation_id,
    d = RawRecord (Some tokens) (Some ss) (Some se) (Some os) (Some oe)
                  (Some subj_type) (Some obj_type) (Some stanford_pos)
                  (Some stanford_ner) (Some stanford_deprel) (Some relation) /\
    dict_get ("SUBJ-" +:+ subj_type) (word2id env) = Some subject_id /\
    dict_get ("OBJ-" +:+ obj_type) (word2id env) = Some object_id /\
    dict_get (relation_name_of cfg subj_type relation obj_type)
             (add_relation (relation_name_of cfg subj_type relation obj_type)
                           (rel2id st)) = Some relation_id /\
    st' = update_tables cfg st ("SUBJ-" +:+ subj_type) ("OBJ-" +:+ obj_type)
            subject_id object_id
            (relation_name_of cfg subj_type relation obj_type) relation_id /\
    s = make_sample cfg env
          (anonymize cfg env tokens ss se os oe
                     ("SUBJ-" +:+ subj_type) ("OBJ-" +:+ obj_type))
          ss se os oe stanford_pos stanford_ner stanford_deprel
          subject_id object_id relation_id.
Proof.
  split.
  - intros H. unfold parse_record in H. cbv zeta in H.
    destruct d as [tk ss se os oe sty oty sp sn sd rl]. cbn [d_token d_subj_start
      d_subj_end d_obj_start d_obj_end d_subj_type d_obj_type d_stanford_pos
      d_stanford_ner d_stanford_deprel d_relation] in H.
    destruct tk as [tk|]; [|done]. destruct ss as [ss|]; [|done].
    destruct se as [se|]; [|done]. destruct os as [os|]; [|done].
    destruct oe as [oe|]; [|done]. destruct sty as [sty|]; [|done].
    destruct oty as [oty|]; [|done]. cbn [getfield mbind result_bind] in H.
    apply result_bind_Ok in H as (subject_id & Hs%dict_getitem_Ok & H).
    apply result_bind_Ok in H as (object_id & Ho%dict_getitem_Ok & H).
    destruct sp as [sp|]; [|done]. destruct sn as [sn|]; [|done].
    destruct sd as [sd|]; [|done]. destruct rl as [rl|]; [|done].
    cbn [getfield mbind result_bind] in H.
    apply result_bind_Ok in H as (relation_id & Hr%dict_getitem_Ok & H).
    injection H as <- <-.
    exists tk, ss, se, os, oe, sty, oty, subject_id, object_id, sp, sn, sd, rl,
           relation_id. done.
  - intros (tk & ss & se & os & oe & sty & oty & subject_id & object_id & sp & sn
            & sd & rl & relation_id & -> & Hs & Ho & Hr & -> & ->).
    unfold parse_record. cbv zeta. cbn [d_token d_subj_start
      d_subj_end d_obj_start d_obj_end d_subj_type d_obj_type d_stanford_pos
      d_stanford_ner d_stanford_deprel d_relation getfield mbind result_bind].
    unfold dict_getitem. rewrite Hs, Ho. cbn [mbind result_bind]. rewrite Hr.
    done.
Qed.

(** Which records have all the keys [parse_data] reads. *)
Definition has_required_fields (d : raw_record) : Prop :=
  is_Some (d_token d) /\ is_Some (d_subj_start d) /\ is_Some (d_subj_end d) /\
  is_Some (d_obj_start d) /\ is_Some (d_obj_end d) /\
  is_Some (d_subj_type d) /\ is_Some (d_obj_type d) /\
  is_Some (d_stanford_pos d) /\ is_Some (d_stanford_ner d) /\
  is_Some (d_stanford_deprel d) /\ is_Some (d_relation d).

(** The entity-type tokens of the record are words of the vocabulary. *)
Definition entity_types_in_vocab (d : raw_record) : Prop :=
  forall subj_type obj_type,
    d_subj_type d = Some subj_type -> d_obj_type d = Some obj_type ->
    is_Some (dict_get ("SUBJ-" +:+ subj_type) (word2id env)) /\
    is_Some (dict_get ("OBJ-" +:+ obj_type) (word2id env)).

(** The span condition of the specification:
    [0 <= start <= end < len(tokens)] for subject and object. *)
Definition spans_in_range (d : raw_record) : Prop :=
  exists tokens ss se os oe,
    d_token d = Some tokens /\ d_subj_start d = Some ss /\ d_subj_end d = Some se /\
    d_obj_start d = Some os /\ d_obj_end d = Some oe /\
    0 <= ss <= se /\ se < Py.len tokens /\ 0 <= os <= oe /\ oe < Py.len tokens.

Lemma parse_record_succeeds (d : raw_record) (st : processor) :
  has_required_fields d -> entity_types_in_vocab d ->
  exists st' s, parse_record cfg env d st = Ok (st', s).
Proof.
  intros (Ht & Hss & Hse & Hos & Hoe & Hsty & Hoty & Hsp & Hsn & Hsd & Hrl) Hv.
  destruct d as [tk ss se os oe sty oty sp sn sd rl]. simpl in *.
  destruct Ht as [tk' ->], Hss as [ss' ->], Hse as [se' ->], Hos as [os' ->],
    Hoe as [oe' ->], Hsty as [sty' ->], Hoty as [oty' ->], Hsp as [sp' ->],
    Hsn as [sn' ->], Hsd as [sd' ->], Hrl as [rl' ->].
  destruct (Hv sty' oty' eq_refl eq_refl) as [[sid Hsid] [oid Hoid]].
  destruct (add_relation_get (relation_name_of cfg sty' rl' oty') (rel2id st))
    as [rid Hrid].
  eexists _, _. apply parse_record_Ok.
  exists tk', ss', se', os', oe', sty', oty', sid, oid, sp', sn', sd', rl', rid.
  done.
Qed.

Lemma parse_record_Ok_fields (d : raw_record) (st st' : processor) (s : sample) :
  parse_record cfg env d st = Ok (st', s) ->
  has_required_fields d /\ entity_types_in_vocab d.
Proof.
  intros (tk & ss & se & os & oe & sty & oty & subject_id & object_id & sp & sn
          & sd & rl & relation_id & -> & Hs & Ho & _)%parse_record_Ok.
  split.
  - unfold has_required_fields. simpl. repeat split; eauto.
  - intros sty' oty' [= <-] [= <-]. split; eauto.
Qed.

(** The loop body raises nothing but [KeyError]. *)
Lemma parse_record_Raise (d : raw_record) (st : processor) (e : exn) :
  parse_record cfg env d st = Raise e -> exists key, e = KeyError key.
Proof.
  unfold parse_record, getfield, dict_getitem. cbv zeta. intros H.
  repeat match type of H with
  | (match ?x with Some _ => _ | None => _ end) ≫= _ = Raise _ =>
      destruct x; cbn [mbind result_bind] in H;
      [|injection H as <-; eexists; reflexivity]
  end.
  done.
Qed.

End parse_record_facts.

(** ** Substrings *)

(** [needle] occurs in [hay]. *)
Definition substring_of (needle hay : string) : Prop :=
  exists pre post, hay = pre +:+ needle +:+ post.

Lemma append_cons (c : ascii) (s1 s2 : string) :
  String c s1 +:+ s2 = String c (s1 +:+ s2).
Proof. reflexivity. Qed.

Lemma append_nil (s : string) : "" +:+ s = s.
Proof. reflexivity. Qed.

Lemma prefix_spec (needle hay : string) :
  String.prefix needle hay = true <-> exists post, hay = needle +:+ post.
Proof.
  revert hay. induction needle as [|c needle IH]; intros hay.
  - split; [intros _; by exists hay | intros _; by destruct hay].
  - destruct hay as [|c' hay]; simpl; [split; [done | intros [? [=]]]|].
    destruct (Ascii.ascii_dec c c') as [->|Hne].
    + rewrite IH. split; intros [post E]; exists post;
        rewrite append_cons in *; congruence.
    + split; [done | intros [post E]]. rewrite append_cons in E. congruence.
Qed.

Lemma str_in_spec (needle hay : string) :
  Py.str_in needle hay = true <-> substring_of needle hay.
Proof.
  unfold substring_of. induction hay as [|c hay IH]; cbn [Py.str_in].
  - rewrite orb_false_r, prefix_spec. split.
    + intros [post E]. by exists "", post.
    + intros (pre & post & E). destruct pre as [|c pre].
      * by exists post.
      * rewrite append_cons in E. done.
  - rewrite orb_true_iff, IH, prefix_spec. split.
    + intros [[post E]|(pre & post & E)].
      * by exists "", post.
      * exists (String c pre), post. rewrite append_cons. by rewrite E.
    + intros (pre & post & E). destruct pre as [|c' pre].
      * left. by exists post.
      * right. rewrite append_cons in E. injection E as -> E. by exists pre, post.
Qed.

Lemma subj_bucket_per (name : string) :
  subj_bucket name = "per:relation" <-> substring_of "per" name.
Proof.
  unfold subj_bucket. rewrite <- str_in_spec.
  destruct (Py.str_in "per" name); [done|].
  destruct (Py.str_in "org" name); done.
Qed.

Lemma subj_bucket_org (name : string) :
  subj_bucket name = "org:relation" <->
  ~ substring_of "per" name /\ substring_of "org" name.
Proof.
  unfold subj_bucket. rewrite <- !str_in_spec.
  destruct (Py.str_in "per" name); [split; [done | intros [? _]; done]|].
  destruct (Py.str_in "org" name); [split; [done | done]|].
  split; [done | intros [_ ?]; done].
Qed.

Lemma subj_bucket_no_relation (name : string) :
  subj_bucket name = "no_relation" <->
  ~ substring_of "per" name /\ ~ substring_of "org" name.
Proof.
  unfold subj_bucket. rewrite <- !str_in_spec.
  destruct (Py.str_in "per" name); [split; [done | intros [? _]; done]|].
  destruct (Py.str_in "org" name); [split; [done | intros [_ ?]; done]|].
  split; [done | done].
Qed.

(** ** The loop of [parse_data] *)

Section parse_data_facts.
Variable cfg : config.
Variable env : vocab_env.

(** The loop-invariant rule of [parse_records]. *)
Lemma parse_records_invariant (P : processor -> list sample -> Prop)
    (data : list raw_record) (st st' : processor) (parsed parsed' : list sample) :
  P st parsed ->
  (forall st1 p1 d st2 s,
     P st1 p1 -> d ∈ data -> parse_record cfg env d st1 = Ok (st2, s) ->
     P st2 (p1 ++ [s])) ->
  parse_records cfg env data st parsed = Ok (st', parsed') ->
  P st' parsed'.
Proof.
  revert st parsed. induction data as [|d data IH]; intros st parsed HP Hstep H.
  - simpl in H. by injection H as <- <-.
  - simpl in H. apply result_bind_Ok in H as ([st2 s] & Hd & H).
    apply (IH st2 (parsed ++ [s])); [| |done].
    + apply (Hstep st parsed d); [done | apply list_elem_of_here | done].
    + intros st1 p1 d' st3 s' HP1 Hin. apply Hstep; [done|].
      by apply list_elem_of_further.
Qed.

Lemma parse_records_succeeds (data : list raw_record) (st : processor)
    (parsed : list sample) :
  Forall (fun d => has_required_fields d /\ entity_types_in_vocab env d) data ->
  exists st' parsed',
    parse_records cfg env data st parsed = Ok (st', parsed') /\
    length parsed' = (length parsed + length data)%nat.
Proof.
  revert st parsed. induction data as [|d data IH]; intros st parsed Hall.
  - exists st, parsed. simpl. split; [done | lia].
  - apply Forall_cons_1 in Hall as [[Hf Hv] Hall].
    destruct (parse_record_succeeds cfg env d st Hf Hv) as (st1 & s & Hd).
    destruct (IH st1 (parsed ++ [s]) Hall) as (st' & parsed' & Hp & Hlen).
    exists st', parsed'. simpl. rewrite Hd. simpl. split; [done|].
    rewrite Hlen, length_app. simpl. lia.
Qed.

Lemma parse_records_Raise (data : list raw_record) (st : processor)
    (parsed : list sample) (e : exn) :
  parse_records cfg env data st parsed = Raise e -> exists key, e = KeyError key.
Proof.
  revert st parsed. induction data as [|d data IH]; intros st parsed H; [done|].
  simpl in H. apply bind_Raise in H as [H|([st1 s] & _ & H)].
  - by eapply parse_record_Raise.
  - by eapply IH.
Qed.

Lemma parse_records_Ok_fields (data : list raw_record) (st st' : processor)
    (parsed parsed' : list sample) :
  parse_records cfg env data st parsed = Ok (st', parsed') ->
  Forall (fun d => has_required_fields d /\ entity_types_in_vocab env d) data.
Proof.
  revert st parsed. induction data as [|d data IH]; intros st parsed H; [done|].
  simpl in H. apply result_bind_Ok in H as ([st1 s] & Hd & H).
  constructor; [by eapply parse_record_Ok_fields | by eapply IH].
Qed.

Lemma parse_data_Ok (data : list raw_record) (st st' : processor)
    (parsed : list sample) :
  parse_data cfg env data st = Ok (st', parsed) <->
  exists st1 dm,
    parse_records cfg env data st [] = Ok (st1, parsed) /\
    curriculum_mappings st1 = Ok dm /\ st' = set_derived st1 dm.
Proof.
  unfold parse_data. split.
  - intros H. apply result_bind_Ok in H as ([st1 p] & Hp & H).
    apply result_bind_Ok in H as (dm & Hdm & H). injection H as <- <-.
    by exists st1, dm.
  - intros (st1 & dm & -> & Hdm & ->). simpl. rewrite Hdm. done.
Qed.

Lemma parse_data_succeeds (data : list raw_record) (st : processor) :
  Forall (fun d => has_required_fields d /\ entity_types_in_vocab env d) data ->
  exists st' parsed,
    parse_data cfg env data st = Ok (st', parsed) /\ length parsed = length data.
Proof.
  intros Hall.
  destruct (parse_records_succeeds data st [] Hall) as (st1 & parsed & Hp & Hlen).
  destruct (curriculum_mappings_spec st1) as (dm & Hdm & _).
  exists (set_derived st1 dm), parsed. split; [|done].
  apply parse_data_Ok. by exists st1, dm.
Qed.

Lemma parse_data_Raise (data : list raw_record) (st : processor) (e : exn) :
  parse_data cfg env data st = Raise e -> exists key, e = KeyError key.
Proof.
  unfold parse_data. intros H. apply bind_Raise in H as [H|([st1 p] & _ & H)].
  - by eapply parse_records_Raise.
  - destruct (curriculum_mappings_spec st1) as (dm & Hdm & _).
    rewrite Hdm in H. done.
Qed.

End parse_data_facts.

(** ** Observed triples *)

(** A triple is observed when the parser has put it in some bucket of
    [subj_obj2triples]. *)
Definition observed (st : processor) (t : triple) : Prop :=
  exists key bucket, (key, bucket) ∈ subj_obj2triples st /\ t ∈ bucket.

Lemma dd_add_members {K A} `{EqDecision K} `{Countable A}
    (k : K) (x y : A) (d : odict K (gset A)) :
  (exists key bucket, (key, bucket) ∈ dd_add k x d /\ y ∈ bucket) <->
  y = x \/ exists key bucket, (key, bucket) ∈ d /\ y ∈ bucket.
Proof.
  unfold dd_add, dd_get. induction d as [|[k0 b0] d IH].
  - simpl. split.
    + intros (key & bucket & Hin & Hy).
      apply list_elem_of_singleton in Hin as [= -> ->].
      apply elem_of_union in Hy as [->%elem_of_singleton|Hy]; [by left|].
      by apply not_elem_of_empty in Hy.
    + intros [->|(key & bucket & Hin & _)]; [|by apply elem_of_nil in Hin].
      exists k, ({[x]} ∪ ∅). split; [apply list_elem_of_here|].
      apply elem_of_union. left. by apply elem_of_singleton.
  - cbn [dict_set dict_get]. destruct (decide (k = k0)) as [->|Hne]; simpl.
    + split.
      * intros (key & bucket & [[= -> ->]|Hin]%elem_of_cons & Hy).
        -- apply elem_of_union in Hy as [->%elem_of_singleton|Hy]; [by left|].
           right. exists k0, b0. split; [apply list_elem_of_here | done].
        -- right. exists key, bucket. split; [by apply list_elem_of_further | done].
      * intros [->|(key & bucket & [[= -> ->]|Hin]%elem_of_cons & Hy)].
        -- exists k0, ({[x]} ∪ b0). split; [apply list_elem_of_here|].
           apply elem_of_union. left. by apply elem_of_singleton.
        -- exists k0, ({[x]} ∪ b0). split; [apply list_elem_of_here|].
           apply elem_of_union. by right.
        -- exists key, bucket. split; [by apply list_elem_of_further | done].
    + split.
      * intros (key & bucket & [[= -> ->]|Hin]%elem_of_cons & Hy).
        -- right. exists k0, b0. split; [apply list_elem_of_here | done].
        -- destruct (proj1 IH) as [->|(key' & bucket' & Hin' & Hy')];
             [by exists key, bucket | by left |].
           right. exists key', bucket'.
           split; [by apply list_elem_of_further | done].
      * intros [->|(key & bucket & [[= -> ->]|Hin]%elem_of_cons & Hy)].
        -- destruct (proj2 IH (or_introl eq_refl)) as (key & bucket & Hin & Hy).
           exists key, bucket. split; [by apply list_elem_of_further | done].
        -- exists k0, b0. split; [apply list_elem_of_here | done].
        -- destruct (proj2 IH) as (key' & bucket' & Hin' & Hy');
             [right; by exists key, bucket|].
           exists key', bucket'. split; [by apply list_elem_of_further | done].
Qed.

Section closed_world.
Variable cfg : config.
Variable env : vocab_env.

Lemma parse_record_observed (d : raw_record) (st st' : processor) (s : sample)
    (t : triple) :
  parse_record cfg env d st = Ok (st', s) ->
  observed st' t <-> t = supp_triple (supplemental s) \/ observed st t.
Proof.
  intros (tk & ss & se & os & oe & sty & oty & subject_id & object_id & sp & sn
          & sd & rl & relation_id & -> & Hs & Ho & Hr & -> & ->)%parse_record_Ok.
  unfold observed, update_tables, make_sample. cbn [subj_obj2triples supplemental
    supp_triple].
  case_decide; apply dd_add_members.
Qed.

Lemma parse_records_observed (data : list raw_record) (st st' : processor)
    (parsed : list sample) (t : triple) :
  parse_records cfg env data st [] = Ok (st', parsed) ->
  observed st' t <->
  observed st t \/ exists p, p ∈ parsed /\ supp_triple (supplemental p) = t.
Proof.
  apply (parse_records_invariant cfg env
    (fun st1 p1 => observed st1 t <->
       observed st t \/ exists p, p ∈ p1 /\ supp_triple (supplemental p) = t)).
  - split; [by left|]. intros [?|(p & Hp & _)]; [done|]. by apply elem_of_nil in Hp.
  - intros st1 p1 d st2 s IH _ Hd.
    rewrite (parse_record_observed d st1 st2 s t Hd), IH. split.
    + intros [->|[?|(p & Hp & Ht)]].
      * right. exists s. split; [|done]. apply elem_of_app. right.
        apply list_elem_of_here.
      * by left.
      * right. exists p. split; [|done]. apply elem_of_app. by left.
    + intros [?|(p & [Hp|Hp%list_elem_of_singleton]%elem_of_app & Ht)].
      * right. by left.
      * right. right. by exists p.
      * left. by subst.
Qed.

End closed_world.

(** ** Relation ids and subject-type buckets *)

(** The states of the label tables that the processor goes through. *)
Inductive reachable (cfg : config) (env : vocab_env) : processor -> Prop :=
| reachable_init : reachable cfg env initial_processor
| reachable_record d st st' s :
    reachable cfg env st -> parse_record cfg env d st = Ok (st', s) ->
    reachable cfg env st'
| reachable_mappings st dm :
    reachable cfg env st -> curriculum_mappings st = Ok dm ->
    reachable cfg env (set_derived st dm).

(** Relation ids are the positions of first occurrence, and each bucket of
    [subj2rels] holds the ids of the names that fall under it. *)
Definition relation_tables_consistent (st : processor) : Prop :=
  (forall name id, dict_get name (rel2id st) = Some id ->
                   0 <= id < Py.len (rel2id st)) /\
  (forall n1 n2 id, dict_get n1 (rel2id st) = Some id ->
                    dict_get n2 (rel2id st) = Some id -> n1 = n2) /\
  (forall b r, r ∈ dd_get b (subj2rels st) <->
               exists name, dict_get name (rel2id st) = Some r /\ subj_bucket name = b).

Lemma add_relation_lookup (name n : string) (rel2id : odict string Z) (id : Z) :
  dict_get name (add_relation name rel2id) = Some id ->
  dict_get n (add_relation name rel2id) =
  if decide (name = n) then Some id else dict_get n rel2id.
Proof.
  unfold add_relation. destruct (dict_mem name rel2id) eqn:E.
  - intros H. case_decide; [by subst | done].
  - rewrite dict_get_set_eq. intros [= <-]. apply dict_get_set.
Qed.

Lemma add_relation_new_id (name : string) (rel2id : odict string Z) (id : Z) :
  dict_get name (add_relation name rel2id) = Some id ->
  (dict_get name rel2id = Some id /\ add_relation name rel2id = rel2id) \/
  (dict_get name rel2id = None /\ id = Py.len rel2id /\
   Py.len (add_relation name rel2id) = Py.len rel2id + 1).
Proof.
  unfold add_relation. destruct (dict_mem name rel2id) eqn:E.
  - intros H. by left.
  - apply dict_mem_false in E. rewrite dict_get_set_eq. intros [= <-]. right.
    split; [done|]. split; [done|]. unfold Py.len.
    rewrite dict_set_length_new by done. lia.
Qed.

Lemma parse_record_consistent cfg env (d : raw_record) (st st' : processor)
    (s : sample) :
  relation_tables_consistent st ->
  parse_record cfg env d st = Ok (st', s) ->
  relation_tables_consistent st'.
Proof.
  intros (Hrange & Hinj & Hbuckets).
  intros (tk & ss & se & os & oe & sty & oty & subject_id & object_id & sp & sn
          & sd & rl & relation_id & -> & Hs & Ho & Hr & -> & _)%parse_record_Ok.
  set (name := relation_name_of cfg sty rl oty) in *.
  pose proof (add_relation_lookup name) as Hlook.
  specialize (Hlook) with (1 := Hr).
  unfold relation_tables_consistent, update_tables. cbn [rel2id subj2rels].
  destruct (add_relation_new_id _ _ _ Hr) as [[Hold Heq]|(Hnew & -> & Hlen)].
  - rewrite Heq in *. split; [done|]. split; [done|].
    intros b r. rewrite dd_get_add, Hbuckets. split.
    + intros [[-> ->]|?]; [by exists name | done].
    + intros ?. by right.
  - split; [|split].
    + intros n id. rewrite Hlook, Hlen. case_decide.
      * intros [= <-]. unfold Py.len. lia.
      * intros Hn%Hrange. lia.
    + intros n1 n2 id. rewrite !Hlook.
      destruct (decide (name = n1)) as [<-|Hn1], (decide (name = n2)) as [<-|Hn2];
        try done.
      * intros [= <-] Hn%Hrange. lia.
      * intros Hn%Hrange [= <-]. lia.
      * apply Hinj.
    + intros b r. rewrite dd_get_add, Hbuckets. split.
      * intros [[-> ->]|(n & Hn & Hb)].
        -- exists name. by rewrite Hlook, decide_True.
        -- exists n. rewrite Hlook. case_decide; [|done]. subst. congruence.
      * intros (n & Hn & Hb). rewrite Hlook in Hn.
        destruct (decide (name = n)) as [<-|Hne].
        -- injection Hn as <-. by left.
        -- right. by exists n.
Qed.

Lemma reachable_consistent cfg env (st : processor) :
  reachable cfg env st -> relation_tables_consistent st.
Proof.
  induction 1 as [|d st st' s _ IH Hd|st dm _ IH _].
  - split; [done|]. split; [done|]. intros b r. split.
    + intros Hr. by apply not_elem_of_empty in Hr.
    + intros (n & Hn & _). done.
  - by eapply parse_record_consistent.
  - exact IH.
Qed.

Lemma parse_records_reachable cfg env (data : list raw_record)
    (st st' : processor) (parsed parsed' : list sample) :
  reachable cfg env st ->
  parse_records cfg env data st parsed = Ok (st', parsed') ->
  reachable cfg env st'.
Proof.
  intros Hst. apply (parse_records_invariant cfg env (fun st1 _ => reachable cfg env st1));
    [done|]. intros st1 p1 d st2 s H1 _ Hd. by eapply reachable_record.
Qed.

Lemma parse_data_reachable cfg env (data : list raw_record)
    (st st' : processor) (parsed : list sample) :
  reachable cfg env st ->
  parse_data cfg env data st = Ok (st', parsed) ->
  reachable cfg env st'.
Proof.
  intros Hst (st1 & dm & Hp & Hdm & ->)%parse_data_Ok.
  eapply reachable_mappings; [|done]. by eapply parse_records_reachable.
Qed.

Lemma preprocess_data_reachable cfg env files (names : list string)
    (st st' : processor) (partitions partitions' : odict string (list sample)) :
  reachable cfg env st ->
  preprocess_data cfg env files names st partitions = Ok (st', partitions') ->
  reachable cfg env st'.
Proof.
  revert st partitions. induction names as [|name names IH];
    intros st partitions Hst H; simpl in H.
  - by injection H as <- <-.
  - apply result_bind_Ok in H as (records & _ & H).
    apply result_bind_Ok in H as ([st1 parsed] & Hp & H).
    eapply IH; [|done]. by eapply parse_data_reachable.
Qed.

Lemma DataProcessor_init_reachable cfg env files (names : list string)
    (st : processor) (partitions : odict string (list sample)) :
  DataProcessor_init cfg env files names = Ok (st, partitions) ->
  reachable cfg env st.
Proof.
  unfold DataProcessor_init. intros H.
  eapply preprocess_data_reachable; [|exact H]. constructor.
Qed.

(** ** Draws *)

Lemma mapM_result_Ok {A B} (f : A -> result B) (xs : list A) (ys : list B) :
  mapM_result f xs = Ok ys <-> Forall2 (fun x y => f x = Ok y) xs ys.
Proof.
  revert ys. induction xs as [|x xs IH]; intros ys; simpl.
  - split; [intros [= <-]; constructor | intros Hf; by inversion Hf].
  - split.
    + intros (y & Hy & (ys' & Hys & [= <-])%result_bind_Ok)%result_bind_Ok.
      constructor; [done | by apply IH].
    + intros Hf. inversion Hf as [|? y ? ys' Hy Hys]; subst.
      rewrite Hy. simpl. apply IH in Hys. rewrite Hys. done.
Qed.

Lemma Py_index_Ok {A} (l : list A) (i : Z) (x : A) :
  0 <= i -> Py.index l i = Ok x <-> l !! Z.to_nat i = Some x.
Proof.
  intros Hi. unfold Py.index, Py.len.
  destruct (Z.ltb_spec i 0) as [?|_]; [lia|].
  destruct (Z.ltb_spec i 0) as [?|_]; [lia|]. simpl.
  destruct (Z.leb_spec (Z.of_nat (length l)) i) as [Hge|Hlt].
  - split; [done|]. intros Hl%lookup_lt_Some. lia.
  - destruct (l !! Z.to_nat i); split; intros [=]; by subst.
Qed.


Section draws.
Context {G : Type} `{Rng G}.

Lemma np_random_choice_int_spec (g : G) (a size : Z) :
  0 <= size <= a ->
  exists l g',
    np_random_choice_int g a size = Ok (l, g') /\
    Py.len l = size /\ NoDup l /\ Forall (fun i => 0 <= i < a) l.
Proof.
  intros Hsize. unfold np_random_choice_int.
  destruct (Z.ltb_spec size 0) as [?|_]; [lia|].
  assert ((a <=? 0) && negb (size =? 0) = false) as ->.
  { destruct (Z.leb_spec a 0), (Z.eqb_spec size 0); simpl; try done; lia. }
  destruct (Z.ltb_spec a size) as [?|_]; [lia|].
  assert (Z.to_nat size <= Z.to_nat a)%nat as Hk by lia.
  eexists _, _. split; [done|]. split; [|split].
  - unfold Py.len. rewrite length_map, (rng_choice_length g _ _ Hk). lia.
  - apply (NoDup_fmap_2 Z.of_nat), (rng_choice_NoDup g _ _ Hk).
  - apply Forall_forall. intros i (j & -> & Hj)%list_elem_of_fmap.
    apply (rng_choice_range g _ _ _ Hk) in Hj. lia.
Qed.


End draws.

(** ** Quotas *)

Lemma dict_set_keys_NoDup {K A} `{EqDecision K} (k : K) (v : A) (d : odict K A) :
  NoDup (dict_keys d) -> NoDup (dict_keys (dict_set k v d)).
Proof.
  intros Hnd. rewrite dict_keys_set. destruct (dict_mem k d) eqn:E; [done|].
  apply NoDup_app. split; [done|]. split; [|apply NoDup_singleton].
  intros x Hx ->%list_elem_of_singleton.
  apply dict_mem_false, dict_get_None_keys in E. done.
Qed.

Lemma dict_set_new {K A} `{EqDecision K} (k : K) (v : A) (d : odict K A) :
  dict_get k d = None -> dict_set k v d = d ++ [(k, v)].
Proof.
  induction d as [|[k' v'] d IH]; simpl; [done|].
  destruct (decide (k = k')); [done|]. intros Hn. by rewrite IH.
Qed.

Lemma dict_elem_get {K A} `{EqDecision K} (k : K) (v : A) (d : odict K A) :
  NoDup (dict_keys d) -> (k, v) ∈ d -> dict_get k d = Some v.
Proof.
  unfold dict_keys. induction d as [|[k' v'] d IH]; simpl.
  - intros _ Hin. by apply elem_of_nil in Hin.
  - intros [Hk Hnd]%NoDup_cons [[= -> ->]|Hin]%elem_of_cons.
    + by rewrite decide_True.
    + destruct (decide (k = k')) as [->|Hne]; [|by apply IH].
      exfalso. apply Hk. apply list_elem_of_fmap. by exists (k', v).
Qed.

Lemma fold_dict_set_fun_get {K A} `{EqDecision K} (f : K -> A) (ks : list K)
    (acc : odict K A) (x : K) :
  dict_get x (fold_left (fun acc k => dict_set k (f k) acc) ks acc) =
  if decide (x ∈ ks) then Some (f x) else dict_get x acc.
Proof.
  revert acc. induction ks as [|k ks IH]; intros acc.
  - case_decide as Hin; [by apply elem_of_nil in Hin | done].
  - cbn [fold_left]. rewrite IH, dict_get_set.
    destruct (decide (x ∈ ks)) as [Hl|Hl], (decide (x ∈ k :: ks)) as [Hc|Hc],
             (decide (k = x)) as [->|Hne]; try done;
      try (exfalso; apply Hc; rewrite elem_of_cons; auto; fail).
    apply elem_of_cons in Hc as [?|?]; done.
Qed.

Section quotas.
Context {G : Type} `{Rng G}.

(** Each relation id gets the floor of [sample_size / n] or one more; the
    ids that get one more are [sample_size mod n] different ids. *)
Lemma distribute_sample_size_spec (g : G) (sample_size : Z)
    (rel2id : odict string Z) :
  0 <= sample_size -> rel2id <> [] ->
  exists class2size g' bonus,
    distribute_sample_size g sample_size rel2id = Ok (class2size, g') /\
    NoDup bonus /\ Py.len bonus = sample_size mod Py.len rel2id /\
    forall r, dict_get r class2size =
              if decide (r ∈ dict_values rel2id)
              then Some (sample_size / Py.len rel2id +
                         (if decide (r ∈ bonus) then 1 else 0))
              else None.
Proof.
  intros Hs Hne. unfold distribute_sample_size.
  assert (0 < Py.len rel2id) as Hn.
  { unfold Py.len. destruct rel2id; [done | simpl; lia]. }
  destruct (Z.eqb_spec (Py.len rel2id) 0) as [?|_]; [lia|].
  destruct (np_random_choice_int_spec g (Py.len rel2id)
              (sample_size mod Py.len rel2id)) as (bonus & g' & -> & Hlen & Hnd & _).
  { pose proof (Z.mod_pos_bound sample_size (Py.len rel2id) Hn). lia. }
  eexists _, g', bonus. cbn [mbind result_bind]. split; [done|].
  split; [done|]. split; [done|]. intros r.
  rewrite (fold_dict_set_fun_get
    (fun rel_id => if bool_decide (rel_id ∈ bonus)
                   then Z.quot sample_size (Py.len rel2id) + 1
                   else Z.quot sample_size (Py.len rel2id))).
  rewrite Z.quot_div_nonneg by lia.
  destruct (decide (r ∈ dict_values rel2id)) as [_|_]; [|done].
  destruct (decide (r ∈ bonus)) as [Hb|Hb].
  - by rewrite bool_decide_eq_true_2.
  - rewrite bool_decide_eq_false_2 by done. f_equal. lia.
Qed.

End quotas.

(** ** Grouping by relation *)

(** The positions, counted from [start], of the examples of relation [r]. *)
Fixpoint positions_from (start : Z) (r : Z) (relations : list Z) : list Z :=
  match relations with
  | [] => []
  | x :: relations' =>
      (if decide (x = r) then [start] else []) ++
      positions_from (start + 1) r relations'
  end.

Lemma positions_from_spec (start r : Z) (relations : list Z) (i : Z) :
  i ∈ positions_from start r relations <->
  start <= i /\ relations !! Z.to_nat (i - start) = Some r.
Proof.
  revert start. induction relations as [|x relations IH]; intros start; simpl.
  - split; [intros Hi; by apply elem_of_nil in Hi | intros [_ ?]; done].
  - rewrite elem_of_app, IH. split.
    + intros [Hi|[Hle Hi]].
      * case_decide; [|by apply elem_of_nil in Hi].
        apply list_elem_of_singleton in Hi as ->. subst.
        split; [lia|]. by rewrite Z.sub_diag.
      * split; [lia|]. replace (Z.to_nat (i - start)) with (S (Z.to_nat (i - (start + 1))))
          by lia. done.
    + intros [Hle Hi]. destruct (decide (i = start)) as [->|Hne].
      * left. rewrite Z.sub_diag in Hi. injection Hi as ->.
        rewrite decide_True by done. apply list_elem_of_here.
      * right. split; [lia|].
        replace (Z.to_nat (i - start)) with (S (Z.to_nat (i - (start + 1)))) in Hi
          by lia. done.
Qed.



Lemma group_by_class_fold (start : Z) (relations : list Z)
    (acc : odict Z (list Z)) :
  let result :=
    fold_left
      (fun class2indices ir =>
         dict_set ir.2 (default [] (dict_get ir.2 class2indices) ++ [ir.1])
                  class2indices)
      (zip (seqZ start (Py.len relations)) relations) acc in
  (NoDup (dict_keys acc) -> NoDup (dict_keys result)) /\
  (forall r, default [] (dict_get r result) =
             default [] (dict_get r acc) ++ positions_from start r relations) /\
  (forall r, is_Some (dict_get r result) <->
             is_Some (dict_get r acc) \/ r ∈ relations).
Proof.
  revert start acc. induction relations as [|x relations IH]; intros start acc.
  - simpl. split; [done|]. split; [intros r; by rewrite app_nil_r|].
    intros r. split; [by left|]. intros [?|Hr]; [done|]. by apply elem_of_nil in Hr.
  - unfold Py.len. cbn [length]. rewrite Nat2Z.inj_succ, seqZ_cons by lia.
    replace (Z.pred (Z.succ (Z.of_nat (length relations))))
      with (Py.len relations) by (unfold Py.len; lia).
    replace (Z.succ start) with (start + 1) by lia.
    cbn [zip zip_with fold_left fst snd].
    destruct (IH (start + 1)
                (dict_set x (default [] (dict_get x acc) ++ [start]) acc))
      as (Hnd & Hget & Hsome).
    split; [|split].
    + intros Hacc. apply Hnd. by apply dict_set_keys_NoDup.
    + intros r. rewrite Hget, dict_get_set. cbn [positions_from].
      destruct (decide (x = r)) as [->|Hne]; simpl; [|done].
      by rewrite <- app_assoc.
    + intros r. rewrite Hsome, dict_get_set, elem_of_cons.
      destruct (decide (x = r)) as [->|Hne].
      * split; [intros _; right; by left | intros _; left; eauto].
      * split; [intros [?|?]; [by left | right; by right]|].
        intros [?|[?|?]]; [by left | done | by right].
Qed.

Lemma group_by_class_spec (relations : list Z) :
  NoDup (dict_keys (group_by_class relations)) /\
  (forall r, default [] (dict_get r (group_by_class relations)) =
             positions_from 0 r relations) /\
  (forall r, is_Some (dict_get r (group_by_class relations)) <-> r ∈ relations).
Proof.
  unfold group_by_class, Py.range. rewrite Z.sub_0_r.
  destruct (group_by_class_fold 0 relations []) as (Hnd & Hget & Hsome).
  split; [apply Hnd; constructor|]. split; [apply Hget|].
  intros r. rewrite (Hsome r). simpl. split; [intros [[? ?]|?]; done | by right].
Qed.

(** ** Sampling by class *)



Section sample_by_class_facts.
Context {G : Type} `{Rng G}.


End sample_by_class_facts.



(** ** Counting per relation *)









(** ** The stratified sample *)


(** ** Readying a batch *)

(** The loop-invariant rule of [foldM]. *)
Lemma foldM_invariant {A S} (P : S -> Prop) (body : A -> S -> result S)
    (xs : list A) (st st' : S) :
  P st ->
  (forall x s s', x ∈ xs -> P s -> body x s = Ok s' -> P s') ->
  foldM body xs st = Ok st' -> P st'.
Proof.
  revert st. induction xs as [|x xs IH]; intros st HP Hstep H; simpl in H.
  - by injection H as <-.
  - apply result_bind_Ok in H as (s1 & Hx & H).
    apply (IH s1); [| |done].
    + apply (Hstep x st); [apply list_elem_of_here | done | done].
    + intros y s s' Hy. apply Hstep. by apply list_elem_of_further.
Qed.

Section readying.
Context {G : Type} `{Rng G}.
Variable env : vocab_env.

(** [ready_data_batch] readies the supplemental fields named
    ['relation_masks'], ['binary_labels'] and ['triple'], and no other. *)
Lemma ready_supplemental_keys (self : batcher) (lens : list Z)
    (name_batch : string * list (list pyval))
    (acc acc' : odict string (list tensor)) (key : string) :
  key <> "relation_masks" -> key <> "binary_labels" -> key <> "triple" ->
  ready_supplemental self lens name_batch acc = Ok acc' ->
  dict_get key acc' = dict_get key acc.
Proof.
  intros H1 H2 H3. unfold ready_supplemental. destruct name_batch as [name sb].
  repeat case_decide; subst.
  - intros (r & _ & [= <-])%result_bind_Ok. by rewrite dict_get_set_ne.
  - intros (r & _ & [= <-])%result_bind_Ok. by rewrite dict_get_set_ne.
  - intros (r & _ & [= <-])%result_bind_Ok. by rewrite dict_get_set_ne.
  - by intros [= <-].
Qed.

Lemma ready_data_batch_supplemental (self : batcher) (g g' : G)
    (batch : data_batch) (r : readied_batch) (key : string) :
  key <> "relation_masks" -> key <> "binary_labels" -> key <> "triple" ->
  ready_data_batch env self g batch = Ok (r, g') ->
  dict_get key (rb_supplemental r) = None.
Proof.
  intros H1 H2 H3. unfold ready_data_batch.
  intros ([rb g1] & _ & (rs & Hfold & [= <- <-])%result_bind_Ok)%result_bind_Ok.
  simpl. revert Hfold.
  apply (foldM_invariant (fun acc => dict_get key acc = None)); [done|].
  intros x s s' _ Hs Hx. by rewrite (ready_supplemental_keys _ _ _ _ _ _ H1 H2 H3 Hx).
Qed.

End readying.

(** What [Batcher.__init__] leaves unset. *)
Lemma Batcher_init_rel2id {G : Type} `{Rng G} (h h' : heap) (g g' : G)
    (dataset : loc) (cfg : config) (stage : curriculum_stage) (dm : derived_maps)
    (batch_size : Z) (is_eval : bool) (b : batcher) :
  Batcher_init h g dataset cfg stage dm batch_size is_eval = Ok (h', b, g') ->
  b_rel2id b = None.
Proof.
  unfold Batcher_init.
  intros (items & _ & H0)%result_bind_Ok.
  apply result_bind_Ok in H0 as ([h1 g1] & _ & H0).
  apply result_bind_Ok in H0 as (samples & _ & H0).
  apply result_bind_Ok in H0 as (labels & _ & H0).
  apply result_bind_Ok in H0 as (batches & _ & H0).
  by injection H0 as <- <- <-.
Qed.

(** The loop body of [ready_binary_labels_batch], for the width
    [num_rel] of the label vector: the reserved index [num_rel] (and any
    index past it) sets no bit, an index below it sets its own bit. *)
Lemma binary_label_vector_spec (num_rel label : Z) :
  0 <= num_rel -> 0 <= label ->
  binary_label_vector num_rel label =
  Ok (if decide (label < num_rel)
      then <[Z.to_nat label := 1]> (replicate (Z.to_nat num_rel) 0)
      else replicate (Z.to_nat num_rel) 0).
Proof.
  intros Hn Hl. unfold binary_label_vector, np_zeros.
  destruct (Z.ltb_spec num_rel 0) as [?|_]; [lia|]. cbn [mbind result_bind].
  unfold Py.repeat, Py.set_index, Py.len. rewrite length_replicate.
  destruct (Z.ltb_spec label num_rel) as [Hlt|Hge].
  - rewrite decide_True by done.
    destruct (Z.ltb_spec label 0) as [?|_]; [lia|].
    destruct (Z.ltb_spec label 0) as [?|_]; [lia|].
    destruct (Z.leb_spec (Z.of_nat (Z.to_nat num_rel)) label) as [?|_]; [lia|].
    done.
  - rewrite decide_False by lia. done.
Qed.

(** ** What the store keeps *)

(** [h0] is kept in [h]: the objects of [h0] are in [h], unchanged. *)
Definition kept (h0 h : heap) : Prop := take (length h0) h = h0.

Lemma kept_refl (h : heap) : kept h h.
Proof. unfold kept. by rewrite firstn_all. Qed.

Lemma kept_length (h0 h : heap) : kept h0 h -> (length h0 <= length h)%nat.
Proof.
  unfold kept. intros E. rewrite <- E at 1. rewrite length_take. lia.
Qed.

Lemma kept_trans (h0 h1 h2 : heap) : kept h0 h1 -> kept h1 h2 -> kept h0 h2.
Proof.
  intros H01 H12. pose proof (kept_length _ _ H01) as Hlen. unfold kept in *.
  rewrite <- H12 in H01. rewrite take_take in H01.
  by replace (length h0 `min` length h1)%nat with (length h0) in H01 by lia.
Qed.

Lemma kept_lookup (h0 h : heap) (l : loc) (o : obj) :
  kept h0 h -> h0 !! l = Some o -> h !! l = Some o.
Proof.
  unfold kept. intros E Hl. rewrite <- E in Hl.
  rewrite lookup_take_Some in Hl. by destruct Hl.
Qed.

Lemma kept_alloc (h0 h h' : heap) (o : obj) (l : loc) :
  kept h0 h -> alloc h o = (h', l) -> kept h0 h' /\ l = length h.
Proof.
  intros Hk [= <- <-]. split; [|done].
  pose proof (kept_length _ _ Hk). unfold kept in *.
  by rewrite take_app_le.
Qed.

Lemma kept_store (h0 h h' : heap) (l : loc) (o : obj) :
  kept h0 h -> (length h0 <= l)%nat -> store h l o = Ok h' ->
  kept h0 h' /\ length h' = length h.
Proof.
  intros Hk Hl. unfold store. case_decide; [|done]. intros [= <-].
  split; [|apply length_insert]. unfold kept in *. by rewrite take_insert_ge.
Qed.

Lemma deepcopy_spec (h h' : heap) (raw_sample sample : loc) :
  deepcopy h raw_sample = Ok (h', sample) ->
  exists b s,
    h' = h ++ [OBase b; OSupp s; OSample (length h) (S (length h))] /\
    sample = S (S (length h)).
Proof.
  unfold deepcopy.
  intros ([bl sl] & _ & H0)%result_bind_Ok.
  apply result_bind_Ok in H0 as (b & _ & H0).
  apply result_bind_Ok in H0 as (s & _ & H0).
  unfold alloc in H0. injection H0 as <- <-.
  exists b, s. rewrite !length_app. simpl. rewrite <- !app_assoc. simpl.
  split; [repeat f_equal; lia | lia].
Qed.

Lemma list_append_kept (h0 h h' : heap) (l x : loc) :
  kept h0 h -> (length h0 <= l)%nat -> list_append h l x = Ok h' -> kept h0 h'.
Proof.
  intros Hk Hl. unfold list_append.
  intros (items & _ & Hs)%result_bind_Ok.
  by destruct (kept_store _ _ _ _ _ Hk Hl Hs).
Qed.

(** The loop body of [create_iterator] writes to the copy and to
    [cleaned_data] only. *)
Lemma enrich_kept (h0 h h' : heap) (st : processor) (dm : derived_maps)
    (stage : curriculum_stage) (config : config) (cleaned_data raw_sample : loc) :
  kept h0 h -> (length h0 <= cleaned_data)%nat ->
  enrich st dm stage config cleaned_data raw_sample h = Ok h' ->
  kept h0 h'.
Proof.
  intros Hk Hc. unfold enrich.
  intros ([h1 sample] & Hcopy & H0)%result_bind_Ok.
  destruct (deepcopy_spec _ _ _ _ Hcopy) as (b0 & s0 & -> & ->).
  pose proof (kept_length _ _ Hk) as Hlen.
  assert (kept h0 (h ++ [OBase b0; OSupp s0; OSample (length h) (S (length h))]))
    as Hk1.
  { unfold kept in *. by rewrite take_app_le. }
  apply result_bind_Ok in H0 as ([base_ref supplemental_ref] & Hload & H0).
  unfold load_sample in Hload.
  rewrite lookup_app_r in Hload by lia.
  replace (S (S (length h)) - length h)%nat with 2%nat in Hload by lia.
  simpl in Hload. injection Hload as <- <-.
  apply result_bind_Ok in H0 as (b & _ & H0).
  apply result_bind_Ok in H0 as (label & _ & H0).
  apply result_bind_Ok in H0 as (ids & _ & H0).
  apply result_bind_Ok in H0 as (act & _ & H0).
  apply result_bind_Ok in H0 as (h2 & Hst & H0).
  destruct (kept_store _ _ _ (length h) _ Hk1 Hlen Hst) as [Hk2 Hlen2].
  apply result_bind_Ok in H0 as (h3 & Hmask & H0).
  assert (kept h0 h3) as Hk3.
  { destruct (cfg_relation_masking config); [|by injection Hmask as <-].
    apply result_bind_Ok in Hmask as (s & _ & Hmask).
    apply result_bind_Ok in Hmask as (entry & _ & Hmask).
    destruct entry as [[[subject r] object]|?]; [|done].
    apply result_bind_Ok in Hmask as (known & _ & Hmask).
    assert (length h0 <= S (length h))%nat as Hlen' by lia.
    by destruct (kept_store _ _ _ (S (length h)) _ Hk2 Hlen' Hmask). }
  exact (list_append_kept _ _ _ _ _ Hk3 Hc H0).
Qed.

Section iterator_frame.
Context {G : Type} `{Rng G}.

Lemma Batcher_init_kept (h0 h h' : heap) (g g' : G) (dataset : loc)
    (cfg : config) (stage : curriculum_stage) (dm : derived_maps)
    (batch_size : Z) (is_eval : bool) (b : batcher) :
  kept h0 h -> (length h0 <= dataset)%nat ->
  Batcher_init h g dataset cfg stage dm batch_size is_eval = Ok (h', b, g') ->
  kept h0 h'.
Proof.
  intros Hk Hd. unfold Batcher_init.
  intros (items & _ & H0)%result_bind_Ok.
  apply result_bind_Ok in H0 as ([h1 g1] & Hsh & H0).
  assert (kept h0 h1) as Hk1.
  { destruct (negb is_eval); [|by injection Hsh as <- <-].
    apply result_bind_Ok in Hsh as (h2 & Hst & [= <- <-]).
    by destruct (kept_store _ _ _ _ _ Hk Hd Hst). }
  apply result_bind_Ok in H0 as (samples & _ & H0).
  apply result_bind_Ok in H0 as (labels & _ & H0).
  apply result_bind_Ok in H0 as (batches & _ & H0).
  by injection H0 as <- <- <-.
Qed.

Lemma create_iterator_kept (cfg : config) (st : processor)
    (partitions partitions' : odict string loc) (h h' : heap) (g g' : G)
    (config : config) (partition_name curriculum_stage : string) (b : batcher) :
  create_iterator cfg st partitions h g config partition_name curriculum_stage
    = Ok (h', partitions', b, g') ->
  kept h h' /\
  forall name l, dict_get name partitions = Some l ->
                 dict_get name partitions' = Some l.
Proof.
  unfold create_iterator.
  destruct (dict_get partition_name partitions) as [pl|] eqn:Hp.
  - intros (pd & _ & H0)%result_bind_Ok.
    destruct (alloc h (OList [])) as [h1 cleaned] eqn:Ha.
    destruct (kept_alloc h h h1 _ _ (kept_refl h) Ha) as [Hk1 ->].
    apply result_bind_Ok in H0 as ([pd' g1] & _ & H0).
    apply result_bind_Ok in H0 as (stage & _ & H0).
    apply result_bind_Ok in H0 as (dm & _ & H0).
    apply result_bind_Ok in H0 as (h2 & Hloop & H0).
    apply result_bind_Ok in H0 as ([[h3 b'] g3] & Hb & H0).
    injection H0 as <- <- <- <-. split; [|done].
    eapply Batcher_init_kept; [|done|exact Hb].
    revert Hloop. apply (foldM_invariant (kept h)); [done|].
    intros x s s' _ Hs Hx. by eapply enrich_kept.
  - destruct (alloc h (OList [])) as [h0' pl] eqn:Ha0.
    destruct (kept_alloc h h h0' _ _ (kept_refl h) Ha0) as [Hk0 ->].
    intros (pd & _ & H0)%result_bind_Ok.
    destruct (alloc h0' (OList [])) as [h1 cleaned] eqn:Ha.
    destruct (kept_alloc h h0' h1 _ _ Hk0 Ha) as [Hk1 ->].
    pose proof (kept_length _ _ Hk0) as Hlen0.
    apply result_bind_Ok in H0 as ([pd' g1] & _ & H0).
    apply result_bind_Ok in H0 as (stage & _ & H0).
    apply result_bind_Ok in H0 as (dm & _ & H0).
    apply result_bind_Ok in H0 as (h2 & Hloop & H0).
    apply result_bind_Ok in H0 as ([[h3 b'] g3] & Hb & H0).
    injection H0 as <- <- <- <-. split.
    + eapply Batcher_init_kept; [|exact Hlen0|exact Hb].
      revert Hloop. apply (foldM_invariant (kept h)); [done|].
      intros x s s' _ Hs Hx. by eapply enrich_kept.
    + intros name l Hl. rewrite dict_get_set_ne; [done|]. intros <-. congruence.
Qed.

Lemma create_iterators_kept (cfg : config) (st : processor)
    (partitions partitions' : odict string loc) (h h' : heap) (g g' : G)
    (calls : list (config * string * string)) (bs : list batcher) :
  create_iterators cfg st partitions h g calls = Ok (h', partitions', bs, g') ->
  kept h h' /\
  forall name l, dict_get name partitions = Some l ->
                 dict_get name partitions' = Some l.
Proof.
  revert partitions h g bs.
  induction calls as [|[[config name] stage] calls IH];
    intros partitions h g bs Hc; simpl in Hc.
  - injection Hc as <- <- <- <-. split; [apply kept_refl | done].
  - apply result_bind_Ok in Hc as ([[[h1 p1] b] g1] & H1 & Hc).
    apply result_bind_Ok in Hc as ([[[h2 p2] bs'] g2] & H2 & Hc).
    injection Hc as <- <- <- <-.
    destruct (create_iterator_kept _ _ _ _ _ _ _ _ _ _ _ _ H1) as [Hk1 Hp1].
    destruct (IH _ _ _ _ H2) as [Hk2 Hp2].
    split; [by eapply kept_trans | auto].
Qed.

End iterator_frame.

(** Reading a partition gives in a store that keeps [h0] what it gives
    in [h0]. *)
Lemma read_sample_kept (h0 h : heap) (l : loc) (s : sample) :
  kept h0 h -> read_sample h0 l = Ok s -> read_sample h l = Ok s.
Proof.
  intros Hk. unfold read_sample, load_sample, load_base, load_supp.
  destruct (h0 !! l) as [[bl sl| | |]|] eqn:E; try done.
  rewrite (kept_lookup _ _ _ _ Hk E). cbn [mbind result_bind].
  destruct (h0 !! bl) as [[|b| |]|] eqn:Eb; try done.
  rewrite (kept_lookup _ _ _ _ Hk Eb). cbn [mbind result_bind].
  destruct (h0 !! sl) as [[| |s'|]|] eqn:Es; try done.
  by rewrite (kept_lookup _ _ _ _ Hk Es).
Qed.

Lemma read_samples_kept (h0 h : heap) (l : loc) (samples : list sample) :
  kept h0 h -> read_samples h0 l = Ok samples -> read_samples h l = Ok samples.
Proof.
  intros Hk. unfold read_samples, load_list.
  destruct (h0 !! l) as [[| | |items]|] eqn:E; try done.
  rewrite (kept_lookup _ _ _ _ Hk E). cbn [mbind result_bind].
  rewrite !mapM_result_Ok. intros Hf. eapply Forall2_impl; [exact Hf|].
  intros x s Hx. by eapply read_sample_kept.
Qed.

(** * The claims of the specification *)

(** ** Position sequences *)

(** C8. For every span with [0 <= start <= end < length],
    [get_positions start end length] has exactly [length] entries; the
    entries at positions [start..end] are 0, the entry [k] steps before
    the span start is [-k], and the entry [k] steps after the span end
    is [k]. *)
Theorem get_positions_span (start_idx end_idx length : Z) :
  0 <= start_idx -> start_idx <= end_idx -> end_idx < length ->
  Py.len (get_positions start_idx end_idx length) = length /\
  (forall i, start_idx <= i <= end_idx ->
     get_positions start_idx end_idx length !! Z.to_nat i = Some 0) /\
  (forall k, 1 <= k <= start_idx ->
     get_positions start_idx end_idx length !! Z.to_nat (start_idx - k)
     = Some (- k)) /\
  (forall k, 1 <= k -> end_idx + k < length ->
     get_positions start_idx end_idx length !! Z.to_nat (end_idx + k) = Some k).
Proof.
  intros H0 Hse Hel. split; [|split; [|split]].
  - apply get_positions_length; lia.
  - intros i Hi. apply get_positions_inside; lia.
  - intros k Hk. rewrite get_positions_before by lia. f_equal. lia.
  - intros k Hk Hlt. rewrite get_positions_after by lia. f_equal. lia.
Qed.

Lemma get_positions_span_witness :
  Py.len (get_positions 2 3 6) = 6 /\
  (forall i, 2 <= i <= 3 -> get_positions 2 3 6 !! Z.to_nat i = Some 0) /\
  (forall k, 1 <= k <= 2 -> get_positions 2 3 6 !! Z.to_nat (2 - k) = Some (- k)) /\
  (forall k, 1 <= k -> 3 + k < 6 -> get_positions 2 3 6 !! Z.to_nat (3 + k) = Some k).
Proof. apply (get_positions_span 2 3 6); lia. Defined.

(** ** Sorting a batch *)

(** C4 (as amended). For every batch with at least one example whose
    field sequences all have one entry per example, [sort_all] returns;
    [orig_idx] is a permutation of the positions in which entry [i] is
    the pre-sort position of the example now at sorted position [i];
    every field sequence is reordered by it; lengths are in descending
    order; and of two examples of equal length the one LATER in pre-sort
    order comes first. *)
Theorem sort_all_descending_ties_later_first {V : Type}
    (V_eqb V_ltb : V -> V -> bool) (batch : list (list V)) (lens : list Z) :
  lens <> [] ->
  Forall (fun c => length c = length lens) batch ->
  exists sorted orig_idx,
    sort_all V_eqb V_ltb batch lens = Ok (sorted, orig_idx) /\
    Permutation orig_idx (Py.range 0 (Py.len lens)) /\
    Forall2 (reordered_by orig_idx) batch sorted /\
    lengths_descending lens orig_idx /\
    ties_later_first lens orig_idx.
Proof.
  intros Hne Hall.
  destruct (sort_all_returns V_eqb V_ltb batch lens Hne Hall)
    as (sorted & orig_idx & Hs).
  exists sorted, orig_idx. split; [done|].
  split; [by eapply sort_all_perm|]. split; [by eapply sort_all_reordered|].
  pose proof (sort_all_order V_eqb V_ltb batch lens sorted orig_idx Hall Hs) as Hord.
  split.
  - intros i j oi oj Hij Hi Hj.
    destruct (Hord i j oi oj Hij Hi Hj) as (li & lj & Hli & Hlj & Hcmp).
    exists li, lj. split; [done|]. split; [done|]. lia.
  - intros i j oi oj Hij Hi Hj Heq.
    destruct (Hord i j oi oj Hij Hi Hj) as (li & lj & Hli & Hlj & Hcmp).
    rewrite Hli, Hlj in Heq. injection Heq as ->. lia.
Qed.

Lemma sort_all_descending_ties_later_first_witness :
  exists sorted orig_idx,
    sort_all Z.eqb Z.ltb [[10; 11; 12]] [4; 7; 4] = Ok (sorted, orig_idx) /\
    Permutation orig_idx (Py.range 0 (Py.len [4; 7; 4])) /\
    Forall2 (reordered_by orig_idx) [[10; 11; 12]] sorted /\
    lengths_descending [4; 7; 4] orig_idx /\
    ties_later_first [4; 7; 4] orig_idx.
Proof.
  apply (sort_all_descending_ties_later_first Z.eqb Z.ltb [[10; 11; 12]] [4; 7; 4]).
  - discriminate.
  - repeat constructor.
Defined.

(** C4, as stated, fails: two examples of length 2 come out with the
    later one first, [orig_idx = [1; 0]]. *)
Lemma sort_all_ties_not_earlier_first :
  sort_all Z.eqb Z.ltb [[10; 11]] [2; 2] = Ok ([[11; 10]], [1; 0]) /\
  ~ ties_earlier_first [2; 2] [1; 0].
Proof.
  split; [reflexivity|]. intros H.
  specialize (H 0%nat 1%nat 1 0). simpl in H.
  assert (1 < 0) by (apply H; [lia | done | done | done]). lia.
Qed.

(** C7. For every batch, putting the item at sorted position [i] of each
    sorted field sequence back at position [orig_idx[i]] gives the field
    sequence in its pre-sort order. *)
Theorem sort_all_round_trip {V : Type} (V_eqb V_ltb : V -> V -> bool)
    (batch : list (list V)) (lens : list Z) (init : list V) :
  lens <> [] ->
  Forall (fun c => length c = length lens) batch ->
  length init = length lens ->
  exists sorted orig_idx,
    sort_all V_eqb V_ltb batch lens = Ok (sorted, orig_idx) /\
    Forall2 (fun c c' => restore_order orig_idx c' init = c) batch sorted.
Proof.
  intros Hne Hall Hinit.
  destruct (sort_all_returns V_eqb V_ltb batch lens Hne Hall)
    as (sorted & orig_idx & Hs).
  exists sorted, orig_idx. split; [done|]. by eapply sort_all_restore.
Qed.

Lemma sort_all_round_trip_witness :
  exists sorted orig_idx,
    sort_all Z.eqb Z.ltb [[10; 11; 12]; [20; 21; 22]] [3; 5; 4]
      = Ok (sorted, orig_idx) /\
    Forall2 (fun c c' => restore_order orig_idx c' [0; 0; 0] = c)
            [[10; 11; 12]; [20; 21; 22]] sorted.
Proof.
  apply (sort_all_round_trip Z.eqb Z.ltb [[10; 11; 12]; [20; 21; 22]] [3; 5; 4]).
  - discriminate.
  - repeat constructor.
  - reflexivity.
Defined.

(** ** Parsing *)

(** C5 (as amended). [parse_data] fails with a missing-key error when
    some record lacks a key it reads; it does not look at whether the
    span boundaries are in range: when every record has the keys and its
    entity-type tokens are words of the vocabulary, it returns exactly
    one Sample per record. *)
Theorem parse_data_missing_key_or_one_sample (cfg : config) (env : vocab_env)
    (data : list raw_record) (st : processor) :
  (Exists (fun d => ~ has_required_fields d) data ->
   exists key, parse_data cfg env data st = Raise (KeyError key)) /\
  (Forall (fun d => has_required_fields d /\ entity_types_in_vocab env d) data ->
   exists st' parsed,
     parse_data cfg env data st = Ok (st', parsed) /\
     length parsed = length data).
Proof.
  split.
  - intros Hex. destruct (parse_data cfg env data st) as [[st' parsed]|e] eqn:E.
    + exfalso. apply parse_data_Ok in E as (st1 & dm & Hp & _).
      apply parse_records_Ok_fields in Hp.
      apply Exists_exists in Hex as (d & Hd & Hmiss).
      rewrite Forall_forall in Hp. destruct (Hp d Hd) as [Hf _]. by apply Hmiss.
    + apply parse_data_Raise in E as [key ->]. by exists key.
  - apply parse_data_succeeds.
Qed.

Lemma example_record_well_formed (d : raw_record) :
  d ∈ example_corpus ->
  has_required_fields d /\ entity_types_in_vocab example_env d.
Proof.
  unfold example_corpus. rewrite !elem_of_cons, elem_of_nil.
  intros [->|[->|[->|[->|[]]]]];
    (split;
     [unfold has_required_fields; simpl; repeat split; eexists; reflexivity
     |intros subj_type obj_type [= <-] [= <-]; split; eexists; reflexivity]).
Qed.

Lemma example_corpus_well_formed :
  Forall (fun d => has_required_fields d /\ entity_types_in_vocab example_env d)
         example_corpus.
Proof. apply Forall_forall. intros d Hd. by apply example_record_well_formed. Qed.

Lemma parse_data_missing_key_or_one_sample_witness :
  (exists key,
     parse_data example_config example_env [record_without_subj_end]
                initial_processor = Raise (KeyError key)) /\
  (exists st' parsed,
     parse_data example_config example_env example_corpus initial_processor
       = Ok (st', parsed) /\
     length parsed = length example_corpus).
Proof.
  split.
  - apply (proj1 (parse_data_missing_key_or_one_sample example_config example_env
                    [record_without_subj_end] initial_processor)).
    apply Exists_cons_hd. intros (_ & _ & [x Hx] & _). discriminate Hx.
  - apply (proj2 (parse_data_missing_key_or_one_sample example_config example_env
                    example_corpus initial_processor)).
    exact example_corpus_well_formed.
Defined.

(** C5, as stated, fails: a record whose subject span [5..7] lies past
    the end of its three tokens is parsed into a Sample. *)
Lemma parse_data_span_out_of_range_accepted :
  snd <$> parse_data example_config example_env [record_span_out_of_range]
                     initial_processor
  = Ok [Sample
          (BaseSample [6; 3; 8; 2; 2; 2] [2; 3; 4] [3; 2; 2] [2; 3; 4]
                      [-5; -4; -3; -2; -1; 0; 0; 0] [-1; 0; 1; 2; 3; 4]
                      0 2 3 None)
          (SupplementalSample (2, 0, 3) (Some (MaskTriple (2, 0, 3))))] /\
  ~ spans_in_range record_span_out_of_range.
Proof.
  split; [vm_compute; reflexivity|].
  intros (tokens & ss & se & os & oe & [= <-] & [= <-] & [= <-] & _ & _ & _
          & Hse & _).
  vm_compute in Hse. discriminate Hse.
Qed.

(** C6. After [parse_data] completes, every triple of observed
    subject-type ids, relation ids and observed object-type ids has a
    label in [triple2subj_obj]; a triple that is neither a triple of a
    record parsed by this call nor one recorded before it has the label
    ["no_relation"]. *)
Theorem parse_data_closed_triple_world (cfg : config) (env : vocab_env)
    (data : list raw_record) (st st' : processor) (parsed : list sample)
    (s r o : Z) :
  parse_data cfg env data st = Ok (st', parsed) ->
  s ∈ dict_values (subj2id st') ->
  r ∈ dict_values (rel2id st') ->
  o ∈ dict_values (obj2id st') ->
  exists dm label,
    derived st' = Some dm /\
    dict_get (s, r, o) (triple2subj_obj dm) = Some label /\
    (~ observed st (s, r, o) ->
     (forall p, p ∈ parsed -> supp_triple (supplemental p) <> (s, r, o)) ->
     label = "no_relation").
Proof.
  intros (st1 & dm & Hp & Hdm & ->)%parse_data_Ok Hs Hr Ho.
  destruct (curriculum_mappings_spec st1) as (dm' & Hdm' & _ & Hget).
  rewrite Hdm in Hdm'. injection Hdm' as <-.
  simpl in Hs, Hr, Ho.
  assert ((s, r, o) ∈ create_all_possible_triples st1) as Hall
    by (by apply create_all_possible_triples_elem).
  specialize (Hget (s, r, o)). rewrite decide_True in Hget by done.
  match type of Hget with
  | _ = match ?x with _ => _ end => destruct x as [label|] eqn:E
  end.
  - exists dm, label. split; [done|]. split; [exact Hget|].
    intros Hnobs Hnparsed. exfalso.
    assert (observed st1 (s, r, o)) as Hobs.
    { apply reverse_set_maps_is_Some. by rewrite E. }
    apply (parse_records_observed cfg env data st st1 parsed) in Hobs; [|done].
    destruct Hobs as [?|(p & Hp' & Ht)]; [done|]. by eapply Hnparsed.
  - exists dm, "no_relation". split; [done|]. split; [exact Hget | done].
Qed.


Lemma parse_data_closed_triple_world_witness :
  exists st' parsed dm label,
    parse_data example_config example_env example_corpus initial_processor
      = Ok (st', parsed) /\
    derived st' = Some dm /\
    dict_get (4, 0, 3) (triple2subj_obj dm) = Some label /\
    (~ observed initial_processor (4, 0, 3) ->
     (forall p, p ∈ parsed -> supp_triple (supplemental p) <> (4, 0, 3)) ->
     label = "no_relation").
Proof.
  destruct (parse_data_succeeds example_config example_env example_corpus
              initial_processor example_corpus_well_formed)
    as (st' & parsed & E & _).
  exists st', parsed.
  destruct (parse_data_closed_triple_world example_config example_env
              example_corpus initial_processor st' parsed 4 0 3 E)
    as (dm & label & H).
  - vm_compute in E. injection E as <- _.
    apply (bool_decide_unpack _). vm_compute. reflexivity.
  - vm_compute in E. injection E as <- _.
    apply (bool_decide_unpack _). vm_compute. reflexivity.
  - vm_compute in E. injection E as <- _.
    apply (bool_decide_unpack _). vm_compute. reflexivity.
  - exists dm, label. split; [exact E | exact H].
Defined.

(** C9. In every state of the label tables, the id of a relation name is
    in the bucket ['per:relation'] exactly when ["per"] is a substring of
    the name; otherwise in ['org:relation'] exactly when ["org"] is a
    substring; otherwise (as for the name ["no_relation"]) in the bucket
    ['no_relation']. *)
Theorem subj_bucket_by_substring (cfg : config) (env : vocab_env)
    (st : processor) (name : string) (id : Z) :
  reachable cfg env st ->
  dict_get name (rel2id st) = Some id ->
  (id ∈ dd_get "per:relation" (subj2rels st) <-> substring_of "per" name) /\
  (id ∈ dd_get "org:relation" (subj2rels st) <->
     ~ substring_of "per" name /\ substring_of "org" name) /\
  (id ∈ dd_get "no_relation" (subj2rels st) <->
     ~ substring_of "per" name /\ ~ substring_of "org" name).
Proof.
  intros (_ & Hinj & Hbuckets)%reachable_consistent Hname.
  assert (forall b, id ∈ dd_get b (subj2rels st) <-> subj_bucket name = b) as Hb.
  { intros b. rewrite Hbuckets. split.
    - intros (n & Hn & <-). by rewrite (Hinj n name id Hn Hname).
    - intros <-. by exists name. }
  rewrite !Hb. split; [apply subj_bucket_per|].
  split; [apply subj_bucket_org | apply subj_bucket_no_relation].
Qed.

Lemma subj_bucket_by_substring_witness :
  exists st' parsed,
    parse_data example_config example_env example_corpus initial_processor
      = Ok (st', parsed) /\
    dict_get "per:title" (rel2id st') = Some 1 /\
    (1 ∈ dd_get "per:relation" (subj2rels st') <-> substring_of "per" "per:title") /\
    (1 ∈ dd_get "org:relation" (subj2rels st') <->
       ~ substring_of "per" "per:title" /\ substring_of "org" "per:title") /\
    (1 ∈ dd_get "no_relation" (subj2rels st') <->
       ~ substring_of "per" "per:title" /\ ~ substring_of "org" "per:title").
Proof.
  destruct (parse_data_succeeds example_config example_env example_corpus
              initial_processor example_corpus_well_formed)
    as (st' & parsed & E & _).
  exists st', parsed. split; [exact E|].
  assert (dict_get "per:title" (rel2id st') = Some 1) as Hid.
  { vm_compute in E. injection E as <- _. reflexivity. }
  split; [exact Hid|].
  apply (subj_bucket_by_substring example_config example_env st' "per:title" 1).
  - eapply parse_data_reachable; [apply reachable_init | exact E].
  - exact Hid.
Defined.

(** ** Stratified sampling *)







(** ** Readied batches *)

(** The example corpus as the partition ['train'] of a processor, with
    its samples in the store. *)
Definition example_store : result (processor * heap * odict string loc) :=
  '(st, partitions) ←
    DataProcessor_init example_config example_env
                       [("train", example_corpus)] ["train"];
  let '(h, refs) := alloc_partitions [] partitions in
  Ok (st, h, refs).

(** C1 (the code departs from it). With relation masking enabled the
    batches carry the known-relations sets under ['relation_masking'],
    but [ready_data_batch] dispatches on the name ['relation_masks']:
    no readied batch, from [ready_data_batch] or [__getitem__], has an
    entry under ['relation_masking'] in its supplemental map. *)
Theorem readied_batch_without_relation_masking {G : Type} `{Rng G}
    (env : vocab_env) (self : batcher) (g g' : G) (r : readied_batch) :
  (exists batch, ready_data_batch env self g batch = Ok (r, g')) \/
  (exists item, Batcher_getitem env self g item = Ok (r, g')) ->
  dict_get "relation_masking" (rb_supplemental r) = None.
Proof.
  intros [[batch Hb]|[item Hi]].
  - by apply (ready_data_batch_supplemental env self g g' batch).
  - unfold Batcher_getitem in Hi.
    destruct ((item <? 0) || (Py.len (b_batches self) <=? item)); [done|].
    apply result_bind_Ok in Hi as (batch & _ & Hb).
    by apply (ready_data_batch_supplemental env self g g' batch).
Qed.

Lemma readied_batch_without_relation_masking_witness :
  exists self g g' batch r,
    ready_data_batch example_env self g batch = Ok (r, g') /\
    dict_mem "relation_masking" (batch_supplemental batch) = true /\
    rb_supplemental r = [("triple", [Tensor1 [2; 2]; Tensor1 [1; 0]; Tensor1 [3; 3]])] /\
    dict_get "relation_masking" (rb_supplemental r) = None.
Proof.
  destruct example_store as [[[st h] refs]|e] eqn:Es;
    [|vm_compute in Es; discriminate Es].
  destruct (create_iterator example_config st refs h 0%nat example_config
              "train" "full") as [[[[h' refs'] self] g]|e] eqn:Ec;
    [|vm_compute in Es; injection Es as <- <- <-;
      vm_compute in Ec; discriminate Ec].
  destruct (Py.index (b_batches self) 0) as [batch|e] eqn:Eb;
    [|vm_compute in Es; injection Es as <- <- <-;
      vm_compute in Ec; injection Ec as <- <- <- <-;
      vm_compute in Eb; discriminate Eb].
  destruct (ready_data_batch example_env self g batch) as [[r g']|e] eqn:Er;
    [|vm_compute in Es; injection Es as <- <- <-;
      vm_compute in Ec; injection Ec as <- <- <- <-;
      vm_compute in Eb; injection Eb as <-;
      vm_compute in Er; discriminate Er].
  exists self, g, g', batch, r. split; [exact Er|].
  split; [|split].
  - vm_compute in Es; injection Es as <- <- <-.
    vm_compute in Ec; injection Ec as <- <- <- <-.
    vm_compute in Eb; injection Eb as <-. reflexivity.
  - vm_compute in Es; injection Es as <- <- <-.
    vm_compute in Ec; injection Ec as <- <- <- <-.
    vm_compute in Eb; injection Eb as <-.
    vm_compute in Er; injection Er as <- <-. reflexivity.
  - apply (readied_batch_without_relation_masking example_env self g g' r).
    left. by exists batch.
Defined.

(** A list object of two enriched samples, as [create_iterator] hands it
    to [Batcher.__init__], and the tables of an iterator at stage
    ['full'] over the relations [per:title] and [no_relation]. *)
Definition example_dataset : heap * loc :=
  let '(h, items) :=
    alloc_samples []
      [Sample (BaseSample [2; 7; 8; 3] [2; 3; 4; 5] [3; 2; 2; 4] [2; 3; 4; 5]
                          [0; 1; 2; 3] [-3; -2; -1; 0] 0 2 3 (Some [1; 0]))
              (SupplementalSample (2, 0, 3) None);
       Sample (BaseSample [2; 7; 8] [2; 3; 4] [3; 2; 2] [2; 3; 4]
                          [0; 1; 2] [-2; -1; 0] 1 2 3 (Some [0; 1]))
              (SupplementalSample (2, 1, 3) None)] in
  alloc h (OList items).

Definition example_tables : derived_maps :=
  DerivedMaps [(0, "per:title"); (1, "no_relation")] [] [] []
              [("per:title", {[0]}); ("no_relation", {[1]})] 2.

(** C2 (the code departs from it). [ready_binary_labels_batch] reads the
    attribute [rel2id] of the Batcher, which [Batcher.__init__] does not
    assign: on every Batcher that [__init__] builds, and on every label
    batch, it raises [AttributeError] instead of returning label
    vectors. *)
Theorem ready_binary_labels_batch_raises {G : Type} `{Rng G}
    (h h' : heap) (g g' : G) (dataset : loc) (cfg : config)
    (stage : curriculum_stage) (dm : derived_maps) (batch_size : Z)
    (is_eval : bool) (self : batcher)
    (label_batch : list (list pyval)) (sentence_lengths : list Z) :
  Batcher_init h g dataset cfg stage dm batch_size is_eval = Ok (h', self, g') ->
  ready_binary_labels_batch self label_batch sentence_lengths
  = Raise (AttributeError "rel2id").
Proof.
  intros Hinit%Batcher_init_rel2id.
  unfold ready_binary_labels_batch, get_rel2id. by rewrite Hinit.
Qed.

Lemma ready_binary_labels_batch_raises_witness :
  exists h' self g',
    Batcher_init example_dataset.1 0%nat example_dataset.2 example_config Full
                 example_tables 2 true = Ok (h', self, g') /\
    b_labels self = ["per:title"; "no_relation"] /\
    ready_binary_labels_batch self [[PInt 0]; [PInt 1]] [4; 3]
    = Raise (AttributeError "rel2id").
Proof.
  destruct (Batcher_init example_dataset.1 0%nat example_dataset.2
              example_config Full example_tables 2 true)
    as [[[h' self] g']|e] eqn:E; [|vm_compute in E; discriminate E].
  exists h', self, g'. split; [reflexivity|]. split.
  - vm_compute in E. injection E as <- <- <-. reflexivity.
  - exact (ready_binary_labels_batch_raises _ _ _ _ _ _ _ _ _ _ _
             [[PInt 0]; [PInt 1]] [4; 3] E).
Defined.

(** ** Iterators and the stored partitions *)

(** C10. After any number of calls of [create_iterator], every stored
    partition is the list object it was, and reading it gives the
    samples it gave before, in their order: none has gained an
    ['activated_relations'] entry and none has its ['relation_masking']
    tuple replaced. (Every object of the store is kept: [create_iterator]
    writes to the deep copies and to the new list, which is the list the
    Batcher shuffles.) *)
Theorem create_iterators_keep_partitions {G : Type} `{Rng G}
    (cfg : config) (st : processor) (partitions partitions' : odict string loc)
    (h h' : heap) (g g' : G) (calls : list (config * string * string))
    (bs : list batcher) :
  create_iterators cfg st partitions h g calls = Ok (h', partitions', bs, g') ->
  kept h h' /\
  forall name l samples,
    dict_get name partitions = Some l ->
    read_samples h l = Ok samples ->
    dict_get name partitions' = Some l /\ read_samples h' l = Ok samples.
Proof.
  intros [Hk Hp]%create_iterators_kept. split; [done|].
  intros name l samples Hl Hr. split; [by apply Hp|].
  by eapply read_samples_kept.
Qed.

Definition example_calls : list (config * string * string) :=
  [(example_config, "train", "full"); (example_config, "train", "binary");
   (example_config, "train", "subj_obj_type")].

Lemma create_iterators_keep_partitions_witness :
  exists st h refs h' refs' bs g' l samples,
    example_store = Ok (st, h, refs) /\
    create_iterators example_config st refs h 0%nat example_calls
      = Ok (h', refs', bs, g') /\
    length bs = 3%nat /\
    dict_get "train" refs = Some l /\
    read_samples h l = Ok samples /\
    length samples = 4%nat /\
    kept h h' /\
    dict_get "train" refs' = Some l /\
    read_samples h' l = Ok samples.
Proof.
  destruct example_store as [[[st h] refs]|e] eqn:Es;
    [|vm_compute in Es; discriminate Es].
  destruct (create_iterators example_config st refs h 0%nat example_calls)
    as [[[[h' refs'] bs] g']|e] eqn:Ec;
    [|vm_compute in Es; injection Es as <- <- <-;
      vm_compute in Ec; discriminate Ec].
  destruct (dict_get "train" refs) as [l|] eqn:El;
    [|vm_compute in Es; injection Es as <- <- <-; discriminate El].
  destruct (read_samples h l) as [samples|e] eqn:Er;
    [|vm_compute in Es; injection Es as <- <- <-;
      vm_compute in El; injection El as <-;
      vm_compute in Er; discriminate Er].
  destruct (create_iterators_keep_partitions example_config st refs refs' h h'
              0%nat g' example_calls bs Ec) as [Hk Hp].
  destruct (Hp "train" l samples El Er) as [Hl' Hr'].
  exists st, h, refs, h', refs', bs, g', l, samples.
  split; [reflexivity|]. split; [exact Ec|]. split.
  { vm_compute in Es; injection Es as <- <- <-.
    vm_compute in Ec; injection Ec as <- <- <- <-. reflexivity. }
  split; [exact El|]. split; [exact Er|]. split.
  { vm_compute in Es; injection Es as <- <- <-.
    vm_compute in El; injection El as <-.
    vm_compute in Er; injection Er as <-. reflexivity. }
  split; [exact Hk|]. split; [exact Hl' | exact Hr'].
Defined.

(** * Further properties of the code *)

(** ** Relation ids and the label tables of the curriculum stages *)

(** The bucket of [binary_rel2rels] that the loop of [parse_data] puts a
    relation name in. *)
Definition binary_bucket (relation_name : string) : string :=
  if decide (relation_name = "no_relation") then "no_relation" else "has_relation".

(** What the loop of [parse_data] keeps true of the label tables: ids are
    handed out in the order of first appearance, no key occurs twice, and
    each binary bucket holds the ids of the names that fall under it. *)
Definition label_tables_wf (st : processor) : Prop :=
  NoDup (dict_keys (rel2id st)) /\
  dict_values (rel2id st) = Py.range 0 (Py.len (rel2id st)) /\
  NoDup (dict_keys (binary_rel2rels st)) /\
  NoDup (dict_keys (subj2rels st)) /\
  (forall b r, r ∈ dd_get b (binary_rel2rels st) <->
     exists name, dict_get name (rel2id st) = Some r /\ binary_bucket name = b).

Lemma range_snoc (n : Z) : 0 <= n -> Py.range 0 (n + 1) = Py.range 0 n ++ [n].
Proof.
  intros Hn. unfold Py.range.
  replace (n + 1 - 0) with ((n - 0) + 1) by lia.
  rewrite seqZ_app by lia. f_equal. replace (0 + (n - 0)) with n by lia.
  reflexivity.
Qed.

Lemma add_relation_in_order (name : string) (d : odict string Z) :
  NoDup (dict_keys d) -> dict_values d = Py.range 0 (Py.len d) ->
  NoDup (dict_keys (add_relation name d)) /\
  dict_values (add_relation name d) = Py.range 0 (Py.len (add_relation name d)).
Proof.
  intros Hk Hv. unfold add_relation. destruct (dict_mem name d) eqn:E; [done|].
  apply dict_mem_false in E. split; [by apply dict_set_keys_NoDup|].
  rewrite dict_set_new by done. unfold dict_values in *. unfold Py.len in *.
  rewrite fmap_app, length_app, Hv. simpl.
  replace (Z.of_nat (length d + 1)) with (Z.of_nat (length d) + 1) by lia.
  rewrite range_snoc by lia. reflexivity.
Qed.

Lemma dd_add_keys_NoDup {K A} `{EqDecision K} `{Countable A}
    (k : K) (x : A) (d : odict K (gset A)) :
  NoDup (dict_keys d) -> NoDup (dict_keys (dd_add k x d)).
Proof. apply dict_set_keys_NoDup. Qed.

Lemma parse_record_wf cfg env (d : raw_record) (st st' : processor) (s : sample) :
  label_tables_wf st ->
  parse_record cfg env d st = Ok (st', s) ->
  label_tables_wf st'.
Proof.
  intros (Hk & Hv & Hkb & Hks & Hb).
  intros (tk & ss & se & os & oe & sty & oty & subject_id & object_id & sp & sn
          & sd & rl & relation_id & -> & Hs & Ho & Hr & -> & _)%parse_record_Ok.
  set (name := relation_name_of cfg sty rl oty) in *.
  pose proof (add_relation_lookup name) as Hlook.
  specialize (Hlook) with (1 := Hr).
  destruct (add_relation_in_order name _ Hk Hv) as [Hk' Hv'].
  unfold label_tables_wf, update_tables. cbn [rel2id subj2rels binary_rel2rels].
  split; [done|]. split; [done|].
  split; [case_decide; by apply dd_add_keys_NoDup|].
  split; [by apply dd_add_keys_NoDup|].
  assert ((if decide (name = "no_relation")
           then dd_add "no_relation" relation_id (binary_rel2rels st)
           else dd_add "has_relation" relation_id (binary_rel2rels st))
          = dd_add (binary_bucket name) relation_id (binary_rel2rels st)) as ->.
  { unfold binary_bucket. by case_decide. }
  intros b r. rewrite dd_get_add, Hb. split.
  - intros [[-> ->]|(n & Hn & Hbn)].
    + exists name. by rewrite Hlook, decide_True.
    + exists n. split; [|done]. rewrite Hlook. case_decide; [|done]. subst n.
      destruct (add_relation_new_id _ _ _ Hr) as [[Hold _]|[Hnew _]]; congruence.
  - intros (n & Hn & Hbn). rewrite Hlook in Hn.
    destruct (decide (name = n)) as [<-|Hne].
    + injection Hn as <-. by left.
    + right. by exists n.
Qed.

Lemma reachable_wf cfg env (st : processor) :
  reachable cfg env st -> label_tables_wf st.
Proof.
  induction 1 as [|d st st' s _ IH Hd|st dm _ IH _].
  - split; [constructor|]. split; [done|]. split; [constructor|].
    split; [constructor|]. intros b r. split.
    + intros Hr. by apply not_elem_of_empty in Hr.
    + intros (n & Hn & _). done.
  - by eapply parse_record_wf.
  - exact IH.
Qed.

(** [dict(pairs)] when no key occurs twice among the pairs. *)
Lemma dict_of_list_fold_get {K A} `{EqDecision K} (pairs : list (K * A))
    (acc : odict K A) (k : K) (v : A) :
  NoDup pairs.*1 ->
  dict_get k (fold_left (fun acc kv => dict_set kv.1 kv.2 acc) pairs acc) = Some v <->
  (k, v) ∈ pairs \/ ((k ∉ pairs.*1) /\ dict_get k acc = Some v).
Proof.
  revert acc. induction pairs as [|[k0 v0] pairs IH]; intros acc Hnd; simpl.
  - split; [intros ?; right; split; [apply not_elem_of_nil | done]|].
    intros [Hin|[_ ?]]; [by apply elem_of_nil in Hin | done].
  - apply NoDup_cons in Hnd as [Hk0 Hnd]. rewrite IH by done.
    rewrite dict_get_set, elem_of_cons, not_elem_of_cons. split.
    + intros [Hin|[Hnot Hget]]; [by left; right|].
      destruct (decide (k0 = k)) as [->|Hne].
      * injection Hget as ->. by left; left.
      * right. split; [split; [congruence | done] | done].
    + intros [[[= -> ->]|Hin]|[[Hne Hnot] Hget]].
      * right. split; [done|]. by rewrite decide_True.
      * by left.
      * right. split; [done|]. by rewrite decide_False by congruence.
Qed.

Lemma dict_of_list_get {K A} `{EqDecision K} (pairs : list (K * A)) (k : K) (v : A) :
  NoDup pairs.*1 ->
  dict_get k (dict_of_list pairs) = Some v <-> (k, v) ∈ pairs.
Proof.
  intros Hnd. unfold dict_of_list. rewrite dict_of_list_fold_get by done.
  split; [intros [?|[_ ?]]; done | by left].
Qed.


(** The value under which [reverse_set_maps] files [x]: the key of the
    last set that holds it. *)
Lemma reverse_set_maps_fold_last {K A} `{EqDecision A} `{Countable A}
    (dict2set : odict K (gset A)) (acc : odict A K) (x : A) (k : K) :
  dict_get x
    (fold_left
       (fun id2id kv =>
          fold_left (fun acc value => dict_set value kv.1 acc) (elements kv.2) id2id)
       dict2set acc) = Some k <->
  (exists before s after,
     dict2set = before ++ (k, s) :: after /\ x ∈ s /\
     Forall (fun kv => x ∉ kv.2) after) \/
  (Forall (fun kv => x ∉ kv.2) dict2set /\ dict_get x acc = Some k).
Proof.
  revert acc. induction dict2set as [|[k0 s0] d IH]; intros acc.
  - simpl. split.
    + intros Hget. right. by split.
    + intros [(before & s & after & Hd & _)|[_ Hget]]; [|done].
      by destruct before.
  - cbn [fold_left]. rewrite IH. cbn [fst snd]. rewrite fold_dict_set_get.
    split.
    + intros [(before & s & after & -> & Hx & Hafter)|[Hall Hget]].
      * left. by exists ((k0, s0) :: before), s, after.
      * destruct (decide (x ∈ elements s0)) as [Hin|Hnin].
        -- injection Hget as ->. left. exists [], s0, d.
           split; [done|]. split; [by apply elem_of_elements | done].
        -- right. split; [|done]. constructor; [|done].
           simpl. by rewrite <- elem_of_elements.
    + intros [(before & s & after & Hd & Hx & Hafter)|[Hall Hget]].
      * destruct before as [|p before]; simpl in Hd.
        -- injection Hd as -> -> ->. right. split; [done|].
           rewrite decide_True; [done | by apply elem_of_elements].
        -- injection Hd as <- ->. left. by exists before, s, after.
      * apply Forall_cons in Hall as [Hx Hall]. simpl in Hx. right.
        split; [done|]. rewrite decide_False; [done|].
        by rewrite elem_of_elements.
Qed.

(** When the sets under different keys share no value, [reverse_set_maps]
    files every value under the key of its set. *)
Lemma reverse_set_maps_disjoint {K A} `{EqDecision K} `{EqDecision A} `{Countable A}
    (dict2set : odict K (gset A)) (x : A) (k : K) :
  NoDup (dict_keys dict2set) ->
  (forall k', x ∈ dd_get k' dict2set -> k' = k) ->
  x ∈ dd_get k dict2set ->
  dict_get x (reverse_set_maps dict2set) = Some k.
Proof.
  intros Hnd Hone Hx.
  destruct (dd_get_elem _ _ _ Hx) as (s & Hs & Hxs).
  assert (is_Some (dict_get x (reverse_set_maps dict2set))) as [k' Hk'].
  { apply reverse_set_maps_is_Some. by exists k, s. }
  rewrite Hk'. f_equal. apply Hone.
  unfold reverse_set_maps in Hk'. apply reverse_set_maps_fold_last in Hk'.
  destruct Hk' as [(before & s' & after & -> & Hx' & _)|[_ ?]]; [|done].
  unfold dd_get. erewrite dict_elem_get; [exact Hx' | done |].
  apply elem_of_app. right. apply list_elem_of_here.
Qed.

(** Ids that [rel2id] has handed out stay as they are. *)
Lemma parse_record_rel2id_grows cfg env (d : raw_record) (st st' : processor)
    (s : sample) :
  parse_record cfg env d st = Ok (st', s) ->
  (forall name id, dict_get name (rel2id st) = Some id ->
                   dict_get name (rel2id st') = Some id) /\
  exists name, dict_get name (rel2id st') = Some (base_relation (base s)).
Proof.
  intros (tk & ss & se & os & oe & sty & oty & subject_id & object_id & sp & sn
          & sd & rl & relation_id & -> & Hs & Ho & Hr & -> & ->)%parse_record_Ok.
  set (name := relation_name_of cfg sty rl oty) in *.
  pose proof (add_relation_lookup name) as Hlook.
  specialize (Hlook) with (1 := Hr).
  unfold update_tables, make_sample. cbn [rel2id base base_relation]. split.
  - intros n id Hn. rewrite Hlook. case_decide; [|done]. subst n.
    destruct (add_relation_new_id _ _ _ Hr) as [[Hold _]|[Hnew _]]; congruence.
  - by exists name.
Qed.




(** X2. After [parse_data], the tables of the coarse curriculum stages
    label every relation id by the bucket of its name: [rel2binary_rel]
    says ['no_relation'] for the id of that name and ['has_relation'] for
    every other id, and [rel2subj] gives the subject-type bucket of the
    name. *)
Theorem parse_data_coarse_labels (cfg : config) (env : vocab_env)
    (data : list raw_record) (st st' : processor) (parsed : list sample) :
  reachable cfg env st ->
  parse_data cfg env data st = Ok (st', parsed) ->
  exists dm,
    derived st' = Some dm /\
    forall name id,
      dict_get name (rel2id st') = Some id ->
      dict_get id (rel2binary_rel dm)
        = Some (if decide (name = "no_relation")
                then "no_relation" else "has_relation") /\
      dict_get id (rel2subj dm) = Some (subj_bucket name).
Proof.
  intros Hst (st1 & dm & Hp & Hdm & ->)%parse_data_Ok.
  assert (reachable cfg env st1) as Hst1 by by eapply parse_records_reachable.
  destruct (reachable_wf _ _ _ Hst1) as (_ & _ & Hkb & Hks & Hb).
  pose proof (reachable_consistent _ _ _ Hst1) as (_ & Hinj & Hsubj).
  exists dm. cbn [set_derived derived rel2id]. split; [done|].
  unfold curriculum_mappings in Hdm.
  apply result_bind_Ok in Hdm as (t2so & _ & [= <-]).
  cbn [rel2binary_rel rel2subj]. intros name id Hname. split.
  - apply reverse_set_maps_disjoint; [done| |].
    + intros b (n & Hn & <-)%Hb. by rewrite (Hinj n name id Hn Hname).
    + apply Hb. by exists name.
  - apply reverse_set_maps_disjoint; [done| |].
    + intros b (n & Hn & <-)%Hsubj. by rewrite (Hinj n name id Hn Hname).
    + apply Hsubj. by exists name.
Qed.

Lemma parse_data_coarse_labels_witness :
  exists st' parsed dm,
    parse_data example_config example_env example_corpus initial_processor
      = Ok (st', parsed) /\
    derived st' = Some dm /\
    forall name id,
      dict_get name (rel2id st') = Some id ->
      dict_get id (rel2binary_rel dm)
        = Some (if decide (name = "no_relation")
                then "no_relation" else "has_relation") /\
      dict_get id (rel2subj dm) = Some (subj_bucket name).
Proof.
  destruct (parse_data_succeeds example_config example_env example_corpus
              initial_processor example_corpus_well_formed)
    as (st' & parsed & E & _).
  destruct (parse_data_coarse_labels example_config example_env example_corpus
              initial_processor st' parsed (reachable_init _ _) E)
    as (dm & Hdm).
  exists st', parsed, dm. split; [exact E | exact Hdm].
Defined.

(** X3. [reverse_set_maps] files a value under the key of the LAST set
    that holds it: a value that is in the sets of several keys keeps only
    the last of them, and a value of no set has no entry. *)
Theorem reverse_set_maps_last_key {K A} `{EqDecision A} `{Countable A}
    (dict2set : odict K (gset A)) (x : A) (k : K) :
  dict_get x (reverse_set_maps dict2set) = Some k <->
  exists before s after,
    dict2set = before ++ (k, s) :: after /\ x ∈ s /\
    Forall (fun kv => x ∉ kv.2) after.
Proof.
  unfold reverse_set_maps. rewrite reverse_set_maps_fold_last. split.
  - intros [?|[_ ?]]; done.
  - intros ?. by left.
Qed.

(** ** The graph of known relations *)

Lemma parse_record_graph cfg env (d : raw_record) (st st' : processor) (p : sample) :
  parse_record cfg env d st = Ok (st', p) ->
  graph st' =
  if cfg_relation_masking cfg
  then dd_add ((supp_triple (supplemental p)).1.1, (supp_triple (supplemental p)).2)
              (supp_triple (supplemental p)).1.2 (graph st)
  else graph st.
Proof.
  intros (tk & ss & se & os & oe & sty & oty & subject_id & object_id & sp & sn
          & sd & rl & relation_id & -> & Hs & Ho & Hr & -> & ->)%parse_record_Ok.
  reflexivity.
Qed.

Lemma dd_get_lookup {K A} `{EqDecision K} `{Countable A}
    (k : K) (x : A) (d : odict K (gset A)) :
  x ∈ dd_get k d <-> exists s, dict_get k d = Some s /\ x ∈ s.
Proof.
  unfold dd_get. destruct (dict_get k d) as [s|]; simpl.
  - split; [intros ?; by exists s | by intros (s' & [= ->] & ?)].
  - split; [intros Hx; by apply not_elem_of_empty in Hx | by intros (s' & [=] & _)].
Qed.

(** X4. With relation masking on, [parse_data] records in [graph], for
    every pair of a subject id and an object id, exactly the relations
    that some parsed sample (or an earlier call) has between them; so the
    lookup [graph[(subject, object)]] that [create_iterator] makes finds,
    for every parsed sample, a set that holds the sample's relation. With
    relation masking off the graph is left as it was. *)
Theorem parse_data_graph (cfg : config) (env : vocab_env)
    (data : list raw_record) (st st' : processor) (parsed : list sample) :
  parse_data cfg env data st = Ok (st', parsed) ->
  (cfg_relation_masking cfg = true ->
   (forall s r o,
      r ∈ dd_get (s, o) (graph st') <->
      r ∈ dd_get (s, o) (graph st) \/
      exists p, p ∈ parsed /\ supp_triple (supplemental p) = (s, r, o)) /\
   (forall p s r o,
      p ∈ parsed -> supp_triple (supplemental p) = (s, r, o) ->
      exists known_relations,
        dict_getitem "graph" (s, o) (graph st') = Ok known_relations /\
        r ∈ known_relations)) /\
  (cfg_relation_masking cfg = false -> graph st' = graph st).
Proof.
  intros (st1 & dm & Hp & Hdm & ->)%parse_data_Ok. cbn [set_derived graph].
  split.
  - intros Hmask.
    assert (forall s r o,
              r ∈ dd_get (s, o) (graph st1) <->
              r ∈ dd_get (s, o) (graph st) \/
              exists p, p ∈ parsed /\ supp_triple (supplemental p) = (s, r, o)) as Hg.
    { revert Hp.
      apply (parse_records_invariant cfg env
               (fun st1 parsed1 => forall s r o,
                  r ∈ dd_get (s, o) (graph st1) <->
                  r ∈ dd_get (s, o) (graph st) \/
                  exists p, p ∈ parsed1 /\ supp_triple (supplemental p) = (s, r, o))).
      - intros s r o. split; [by left|].
        intros [?|(p & Hin & _)]; [done | by apply elem_of_nil in Hin].
      - intros sta p1 d stb q IH _ Hd s r o.
        rewrite (parse_record_graph _ _ _ _ _ _ Hd), Hmask, dd_get_add, IH.
        destruct (supp_triple (supplemental q)) as [[qs qr] qo] eqn:Eq. simpl.
        split.
        + intros [[[= -> ->] ->]|[?|(p & Hin & Hp)]].
          * right. exists q. split; [|done]. apply elem_of_app. right.
            apply list_elem_of_here.
          * by left.
          * right. exists p. split; [|done]. apply elem_of_app. by left.
        + intros [?|(p & Hin & Hp)]; [by right; left|].
          apply elem_of_app in Hin as [Hin|Hin].
          * right. right. by exists p.
          * apply list_elem_of_singleton in Hin as ->. left.
            rewrite Eq in Hp. by injection Hp as -> -> ->. }
    split; [exact Hg|].
    intros p s r o Hin Ht.
    assert (r ∈ dd_get (s, o) (graph st1)) as Hr.
    { apply Hg. right. by exists p. }
    apply dd_get_lookup in Hr as (known & Hget & Hr).
    exists known. split; [|done]. by apply dict_getitem_Ok.
  - intros Hmask. revert Hp.
    apply (parse_records_invariant cfg env (fun st1 _ => graph st1 = graph st));
      [done|].
    intros sta p1 d stb q IH _ Hd.
    by rewrite (parse_record_graph _ _ _ _ _ _ Hd), Hmask.
Qed.

Lemma parse_data_graph_witness :
  exists st' parsed,
    parse_data example_config example_env example_corpus initial_processor
      = Ok (st', parsed) /\
    (cfg_relation_masking example_config = true ->
     (forall s r o,
        r ∈ dd_get (s, o) (graph st') <->
        r ∈ dd_get (s, o) (graph initial_processor) \/
        exists p, p ∈ parsed /\ supp_triple (supplemental p) = (s, r, o)) /\
     (forall p s r o,
        p ∈ parsed -> supp_triple (supplemental p) = (s, r, o) ->
        exists known_relations,
          dict_getitem "graph" (s, o) (graph st') = Ok known_relations /\
          r ∈ known_relations)) /\
    (cfg_relation_masking example_config = false ->
     graph st' = graph initial_processor).
Proof.
  destruct (parse_data_succeeds example_config example_env example_corpus
              initial_processor example_corpus_well_formed)
    as (st' & parsed & E & _).
  exists st', parsed. split; [exact E|].
  exact (parse_data_graph example_config example_env example_corpus
           initial_processor st' parsed E).
Defined.

(** ** The sample of a record whose spans lie inside the sentence *)

Lemma set_slice_span {A} (l : list A) (i j : Z) (x : A) :
  0 <= i <= j -> j < Py.len l ->
  Py.set_slice l i (j + 1) (Py.repeat x (j - i + 1)) =
  take (Z.to_nat i) l ++ replicate (Z.to_nat (j - i + 1)) x ++
  drop (Z.to_nat (j + 1)) l.
Proof.
  intros Hi Hj. unfold Py.set_slice, Py.clamp, Py.repeat.
  destruct (i <? 0) eqn:E1; [lia|]. destruct (j + 1 <? 0) eqn:E2; [lia|].
  rewrite (Z.min_l i), (Z.min_l (j + 1)), Z.max_r by lia. reflexivity.
Qed.

Lemma set_slice_span_len {A} (l : list A) (i j : Z) (x : A) :
  0 <= i <= j -> j < Py.len l ->
  Py.len (Py.set_slice l i (j + 1) (Py.repeat x (j - i + 1))) = Py.len l.
Proof.
  intros Hi Hj. rewrite set_slice_span by done. unfold Py.len in *.
  rewrite !length_app, length_take, length_replicate, length_drop. lia.
Qed.

Lemma set_slice_span_lookup {A} (l : list A) (i j : Z) (x : A) (k : Z) :
  0 <= i <= j -> j < Py.len l -> 0 <= k ->
  Py.set_slice l i (j + 1) (Py.repeat x (j - i + 1)) !! Z.to_nat k =
  if decide (i <= k <= j) then Some x else l !! Z.to_nat k.
Proof.
  intros Hi Hj Hk. rewrite set_slice_span by done. unfold Py.len in *.
  assert (length (take (Z.to_nat i) l) = Z.to_nat i) as Htake.
  { rewrite length_take. lia. }
  case_decide as Hin.
  - rewrite lookup_app_r by lia. rewrite lookup_app_l.
    + apply lookup_replicate_2. lia.
    + rewrite length_replicate. lia.
  - destruct (decide (k < i)) as [Hlt|Hge].
    + rewrite lookup_app_l by lia. apply lookup_take_lt. lia.
    + rewrite lookup_app_r by lia. rewrite lookup_app_r.
      * rewrite lookup_drop, length_replicate, Htake. f_equal. lia.
      * rewrite length_replicate. lia.
Qed.

(** X5. For a record whose subject and object spans lie inside the
    sentence, the parsed sample has as many token ids and as many subject
    and object positions as the record has tokens; the tokens of the
    object span are the id of the object type, those of the subject span
    outside the object span are the id of the subject type (the object is
    written last), and every other token is the id of the (lower-cased)
    word, or [UNK_ID] for a word the vocabulary does not have. *)
Theorem parse_record_in_range_sample (cfg : config) (env : vocab_env)
    (d : raw_record) (st st' : processor) (s : sample)
    (tokens : list string) (ss se os oe : Z) :
  parse_record cfg env d st = Ok (st', s) ->
  d_token d = Some tokens ->
  d_subj_start d = Some ss -> d_subj_end d = Some se ->
  d_obj_start d = Some os -> d_obj_end d = Some oe ->
  0 <= ss <= se -> se < Py.len tokens -> 0 <= os <= oe -> oe < Py.len tokens ->
  Py.len (base_tokens (base s)) = Py.len tokens /\
  Py.len (base_subj_positions (base s)) = Py.len tokens /\
  Py.len (base_obj_positions (base s)) = Py.len tokens /\
  (forall i, os <= i <= oe ->
     base_tokens (base s) !! Z.to_nat i = Some (base_obj_id (base s))) /\
  (forall i, ss <= i <= se -> ~ (os <= i <= oe) ->
     base_tokens (base s) !! Z.to_nat i = Some (base_subj_id (base s))) /\
  (forall i t, 0 <= i -> ~ (ss <= i <= se) -> ~ (os <= i <= oe) ->
     tokens !! Z.to_nat i = Some t ->
     base_tokens (base s) !! Z.to_nat i =
     Some (default (UNK_ID env)
             (dict_get (if cfg_lower cfg then str_lower env t else t)
                       (word2id env)))).
Proof.
  intros (tk & ss' & se' & os' & oe' & sty & oty & subject_id & object_id & sp
          & sn & sd & rl & relation_id & -> & Hs & Ho & Hr & -> & ->)%parse_record_Ok.
  cbn [d_token d_subj_start d_subj_end d_obj_start d_obj_end].
  intros [= ->] [= ->] [= ->] [= ->] [= ->] Hss Hse Hos Hoe.
  unfold make_sample.
  cbn [base base_tokens base_subj_positions base_obj_positions base_obj_id
       base_subj_id].
  set (tokens0 := if cfg_lower cfg then map (str_lower env) tokens else tokens).
  assert (Py.len tokens0 = Py.len tokens) as Hlen0.
  { unfold tokens0, Py.len. destruct (cfg_lower cfg); [|done]. by rewrite length_map. }
  set (tokens1 := Py.set_slice tokens0 ss (se + 1)
                    (Py.repeat ("SUBJ-" +:+ sty) (se - ss + 1))).
  assert (Py.len tokens1 = Py.len tokens) as Hlen1.
  { unfold tokens1. rewrite set_slice_span_len by lia. done. }
  assert (Py.len (anonymize cfg env tokens ss se os oe ("SUBJ-" +:+ sty)
                            ("OBJ-" +:+ oty)) = Py.len tokens) as Hlen.
  { unfold anonymize, map_to_ids. fold tokens0. fold tokens1.
    etrans; [|apply Hlen1].
    etrans; [|apply (set_slice_span_len tokens1 os oe ("OBJ-" +:+ oty)); lia].
    unfold Py.len. by rewrite length_map. }
  assert (forall i, 0 <= i ->
            anonymize cfg env tokens ss se os oe ("SUBJ-" +:+ sty) ("OBJ-" +:+ oty)
              !! Z.to_nat i =
            (fun t => default (UNK_ID env) (dict_get t (word2id env))) <$>
            (if decide (os <= i <= oe) then Some ("OBJ-" +:+ oty)
             else if decide (ss <= i <= se) then Some ("SUBJ-" +:+ sty)
             else tokens0 !! Z.to_nat i)) as Hlook.
  { intros i Hi. unfold anonymize, map_to_ids. fold tokens0. fold tokens1.
    rewrite list_lookup_fmap. f_equal.
    rewrite set_slice_span_lookup by lia. case_decide; [done|].
    unfold tokens1. rewrite set_slice_span_lookup by lia. done. }
  split; [exact Hlen|].
  split; [rewrite Hlen; apply get_positions_length; lia|].
  split; [rewrite Hlen; apply get_positions_length; lia|].
  split; [|split].
  - intros i Hi. rewrite Hlook by lia. rewrite decide_True by done. simpl.
    by rewrite Ho.
  - intros i Hi Hno. rewrite Hlook by lia.
    rewrite decide_False, decide_True by done. simpl. by rewrite Hs.
  - intros i t Hi Hns Hno Ht. rewrite Hlook by lia.
    rewrite !decide_False by done. unfold tokens0.
    destruct (cfg_lower cfg).
    + by rewrite list_lookup_fmap, Ht.
    + by rewrite Ht.
Qed.

Lemma parse_record_in_range_sample_witness :
  exists st' s,
    parse_record example_config example_env record_per_title initial_processor
      = Ok (st', s) /\
    Py.len (base_tokens (base s)) = 6 /\
    Py.len (base_subj_positions (base s)) = 6 /\
    Py.len (base_obj_positions (base s)) = 6 /\
    (forall i, 3 <= i <= 4 ->
       base_tokens (base s) !! Z.to_nat i = Some (base_obj_id (base s))) /\
    (forall i, 0 <= i <= 0 -> ~ (3 <= i <= 4) ->
       base_tokens (base s) !! Z.to_nat i = Some (base_subj_id (base s))).
Proof.
  destruct (example_record_well_formed record_per_title) as [Hf Hv].
  { apply list_elem_of_further, list_elem_of_here. }
  destruct (parse_record_succeeds example_config example_env record_per_title
              initial_processor Hf Hv) as (st' & s & E).
  exists st', s. split; [exact E|].
  - pose proof (parse_record_in_range_sample example_config example_env
                  record_per_title initial_processor st' s
                  ["She"; "is"; "the"; "vice"; "chairman"; "of"] 0 0 3 4 E
                  eq_refl eq_refl eq_refl eq_refl eq_refl
                  ltac:(lia) ltac:(vm_compute; reflexivity) ltac:(lia)
                  ltac:(vm_compute; reflexivity)) as HX.
    vm_compute (Py.len ["She"; "is"; "the"; "vice"; "chairman"; "of"]) in HX.
    tauto.
Defined.

(** ** Batches *)

Lemma bind_Ok {A B} (f : A -> result B) (a : A) : Ok a ≫= f = f a.
Proof. reflexivity. Qed.

Lemma mapM_result_fmap {A B} (f : A -> result B) (g : A -> B) (xs : list A) :
  (forall x, x ∈ xs -> f x = Ok (g x)) -> mapM_result f xs = Ok (map g xs).
Proof.
  induction xs as [|x xs IH]; intros Hf; simpl; [done|].
  rewrite Hf by apply list_elem_of_here. simpl.
  rewrite IH; [done|]. intros y Hy. apply Hf. by apply list_elem_of_further.
Qed.

Lemma foldM_fold {A S} (body : A -> S -> result S) (h : A -> S -> S)
    (xs : list A) (st : S) :
  (forall x s, x ∈ xs -> body x s = Ok (h x s)) ->
  foldM body xs st = Ok (fold_left (fun s x => h x s) xs st).
Proof.
  revert st. induction xs as [|x xs IH]; intros st Hb; simpl; [done|].
  rewrite Hb by apply list_elem_of_here. simpl.
  apply IH. intros y s Hy. apply Hb. by apply list_elem_of_further.
Qed.

(** The examples of a data set cut into runs of [n]. *)
Lemma concat_chunks {A} (n : nat) (l : list A) (count : nat) :
  (0 < n)%nat -> (length l <= count * n)%nat ->
  concat (map (fun k => take n (drop (k * n) l)) (seq 0 count)) = l.
Proof.
  intros Hn. revert l. induction count as [|count IH]; intros l Hl.
  - simpl in *. destruct l; [done | simpl in Hl; lia].
  - cbn [seq map concat]. rewrite Nat.mul_0_l, drop_0.
    rewrite <- seq_shift, map_map.
    etrans; [|apply (take_drop n l)]. f_equal.
    etrans; [|apply (IH (drop n l)); rewrite length_drop; lia].
    f_equal. apply map_ext. intros k. rewrite drop_drop. do 2 f_equal; lia.
Qed.

Lemma range_step_chunks (n step : Z) :
  0 < step -> 0 <= n ->
  Py.range_step 0 n step =
  Ok (map (fun k => Z.of_nat k * step) (seq 0 (Z.to_nat ((n + step - 1) / step)))).
Proof.
  intros Hs Hn. unfold Py.range_step.
  destruct (step =? 0) eqn:E0; [lia|]. destruct (0 <? step) eqn:E1; [|lia].
  replace (n - 0 + step - 1) with (n + step - 1) by lia. reflexivity.
Qed.

Lemma chunk_count_bounds (n step : Z) :
  0 < step -> 0 <= n ->
  let count := (n + step - 1) / step in
  0 <= count /\ step * (count - 1) < n /\ n <= step * count.
Proof.
  intros Hs Hn count. unfold count.
  pose proof (Z.mul_div_le (n + step - 1) step Hs).
  pose proof (Z.mul_succ_div_gt (n + step - 1) step Hs).
  pose proof (Z.div_pos (n + step - 1) step). lia.
Qed.

Lemma slice_chunk {A} (l : list A) (start size : Z) :
  0 <= start -> start < Py.len l -> 0 < size ->
  Py.slice l start (start + size) = take (Z.to_nat size) (drop (Z.to_nat start) l).
Proof.
  intros H0 Hlt Hs. unfold Py.slice, Py.clamp.
  destruct (start <? 0) eqn:E1; [lia|]. destruct (start + size <? 0) eqn:E2; [lia|].
  unfold Py.len in *. rewrite (Z.min_l start) by lia.
  destruct (decide (start + size <= Z.of_nat (length l))) as [Hle|Hgt].
  - rewrite Z.min_l by lia. do 2 f_equal. lia.
  - rewrite Z.min_r by lia.
    rewrite !take_ge; [done | rewrite length_drop; lia | rewrite length_drop; lia].
Qed.

(** The 7-tuple of an enriched sample. *)
Definition tuple_of (s : sample) : list (list Z) :=
  [base_tokens (base s); base_pos (base s); base_ner (base s);
   base_deprel (base s); base_subj_positions (base s);
   base_obj_positions (base s);
   default [] (base_activated_relations (base s))].

Lemma base_mapper_tuple (s : sample) :
  is_Some (base_activated_relations (base s)) ->
  base_mapper (base s) = Ok (tuple_of s).
Proof.
  intros [a Ha]. unfold base_mapper, tuple_of. by rewrite Ha.
Qed.

(** The value of a supplemental field, where the sample has it. *)
Definition supp_value (name : string) (s : sample) : list pyval :=
  match supplemental_getitem name (supplemental s) with
  | Ok v => v
  | Raise _ => []
  end.

Lemma supplemental_getitem_key (name : string) (s : sample) :
  name ∈ supplemental_keys (supplemental s) ->
  supplemental_getitem name (supplemental s) = Ok (supp_value name s).
Proof.
  unfold supplemental_keys, supp_value, supplemental_getitem.
  intros Hin. apply elem_of_cons in Hin as [->|Hin]; [done|].
  destruct (supp_relation_masking (supplemental s)) as [[t|known]|];
    [| |by apply elem_of_nil in Hin];
    apply list_elem_of_singleton in Hin as ->; reflexivity.
Qed.

(** Data that [create_batches] accepts: every sample has been enriched by
    [create_iterator], and all samples have the supplemental fields of the
    first. *)
Definition batchable (data : list sample) : Prop :=
  Forall (fun s => is_Some (base_activated_relations (base s))) data /\
  forall first s, data !! 0%nat = Some first -> s ∈ data ->
    supplemental_keys (supplemental s) = supplemental_keys (supplemental first).

(** The batch that [create_batches] makes of a run of examples, when
    [first] is the first example of the data set. *)
Definition batch_of (first : sample) (batch : list sample) : data_batch :=
  DataBatch (map tuple_of batch)
    (fold_left
       (fun columns name => dict_set name (map (supp_value name) batch) columns)
       (supplemental_keys (supplemental first)) []).

Lemma create_batches_batch_of (data : list sample) (batch_size : Z) (first : sample) :
  0 < batch_size -> batchable data -> data !! 0%nat = Some first ->
  create_batches data batch_size =
  Ok (map (fun k => batch_of first
                      (take (Z.to_nat batch_size) (drop (k * Z.to_nat batch_size) data)))
          (seq 0 (Z.to_nat ((Py.len data + batch_size - 1) / batch_size)))).
Proof.
  intros Hbs [Hact Hkeys] Hfirst. unfold create_batches.
  rewrite range_step_chunks by (unfold Py.len; lia). rewrite bind_Ok.
  pose proof (chunk_count_bounds (Py.len data) batch_size Hbs
                ltac:(unfold Py.len; lia)) as (Hc0 & Hc1 & Hc2).
  set (count := (Py.len data + batch_size - 1) / batch_size) in *.
  rewrite (mapM_result_fmap _
             (fun start => batch_of first
                (take (Z.to_nat batch_size) (drop (Z.to_nat start) data)))).
  - rewrite map_map. f_equal. apply map_ext. intros k. do 3 f_equal. lia.
  - intros start (k & -> & Hk%elem_of_seq)%list_elem_of_fmap.
    assert (Z.of_nat k * batch_size < Py.len data) as Hstart by nia.
    rewrite slice_chunk by lia.
    set (batch := take (Z.to_nat batch_size)
                       (drop (Z.to_nat (Z.of_nat k * batch_size)) data)).
    assert (forall s, s ∈ batch -> s ∈ data) as Hsub.
    { intros s Hs. unfold batch in Hs.
      apply elem_of_take in Hs as (i & Hs & _). rewrite lookup_drop in Hs.
      by eapply list_elem_of_lookup_2. }
    rewrite (mapM_result_fmap _ tuple_of).
    2:{ intros s Hs. apply base_mapper_tuple.
        rewrite Forall_forall in Hact. by apply Hact, Hsub. }
    rewrite bind_Ok.
    rewrite (proj2 (Py_index_Ok data 0 first ltac:(lia)) Hfirst), bind_Ok.
    rewrite (foldM_fold _
               (fun name columns => dict_set name (map (supp_value name) batch) columns)).
    + reflexivity.
    + intros name columns Hname.
      rewrite (mapM_result_fmap _ (supp_value name)); [done|].
      intros s Hs. apply supplemental_getitem_key.
      by rewrite (Hkeys first s Hfirst (Hsub s Hs)).
Qed.

Lemma supp_value_triple (s : sample) :
  supp_value "triple" s = triple_tuple (supp_triple (supplemental s)).
Proof. reflexivity. Qed.

Lemma chunk_fmap {A B} (f : A -> B) (n k : nat) (l : list A) :
  map f (take n (drop k l)) = take n (drop k (map f l)).
Proof. by rewrite <- fmap_drop, <- fmap_take. Qed.

(** X6. With a positive batch size, on samples that [create_iterator] has
    enriched and that all have the same supplemental fields,
    [create_batches] returns [ceil(len(data) / batch_size)] batches (none
    for an empty data set). Batch [i] holds the tuples of the examples
    [i * batch_size ..] of the data, at most [batch_size] of them and at
    least one, and exactly [batch_size] in every batch but the last; its
    ['triple'] column holds the triples of the same examples. Put one
    after the other, the batches are the tuples of all examples in the
    order of the data. *)
Theorem create_batches_chunks (data : list sample) (batch_size : Z) :
  0 < batch_size -> batchable data ->
  exists batches tuples,
    create_batches data batch_size = Ok batches /\
    mapM_result (fun s => base_mapper (base s)) data = Ok tuples /\
    Py.len batches = (Py.len data + batch_size - 1) / batch_size /\
    concat (batch_base <$> batches) = tuples /\
    forall (i : nat) b, batches !! i = Some b ->
      batch_base b
        = take (Z.to_nat batch_size) (drop (i * Z.to_nat batch_size) tuples) /\
      1 <= Py.len (batch_base b) <= batch_size /\
      ((S i < length batches)%nat -> Py.len (batch_base b) = batch_size) /\
      dict_get "triple" (batch_supplemental b)
        = Some (take (Z.to_nat batch_size)
                  (drop (i * Z.to_nat batch_size)
                     (map (fun s => triple_tuple (supp_triple (supplemental s)))
                          data))).
Proof.
  intros Hbs Hdata.
  pose proof (chunk_count_bounds (Py.len data) batch_size Hbs
                ltac:(unfold Py.len; lia)) as (Hc0 & Hc1 & Hc2).
  destruct data as [|first rest] eqn:Edata.
  { exists [], []. unfold create_batches.
    rewrite range_step_chunks by (unfold Py.len; simpl; lia).
    replace ((Py.len [] + batch_size - 1) / batch_size) with 0
      by (symmetry; apply Z.div_small; unfold Py.len; simpl; lia).
    repeat split; try done. }
  rewrite <- Edata in *.
  assert (data !! 0%nat = Some first) as Hfirst by by rewrite Edata.
  clear Edata.
  rewrite (create_batches_batch_of data batch_size first Hbs Hdata Hfirst).
  set (count := (Py.len data + batch_size - 1) / batch_size) in *.
  set (n := Z.to_nat batch_size).
  exists (map (fun k => batch_of first (take n (drop (k * n) data)))
              (seq 0 (Z.to_nat count))), (map tuple_of data).
  split; [done|].
  split.
  { apply mapM_result_fmap. intros s Hs. apply base_mapper_tuple.
    destruct Hdata as [Hact _]. rewrite Forall_forall in Hact. by apply Hact. }
  split.
  { unfold Py.len. rewrite length_map, length_seq. lia. }
  split.
  { rewrite <- list_fmap_compose.
    etrans; [|apply (concat_chunks n (map tuple_of data) (Z.to_nat count))].
    - f_equal. apply list_fmap_ext. intros _ k _. simpl. apply chunk_fmap.
    - unfold n. lia.
    - rewrite length_map. unfold Py.len in Hc2. unfold n. nia. }
  intros i b Hb. rewrite list_lookup_fmap in Hb.
  destruct (seq 0 (Z.to_nat count) !! i) as [k|] eqn:Ek; [|done].
  apply lookup_seq in Ek as [-> Hi]. simpl in Hi, Hb. injection Hb as <-.
  cbn [batch_of batch_base batch_supplemental].
  rewrite length_map, length_seq.
  split; [apply chunk_fmap|].
  assert (length (map tuple_of (take n (drop (i * n) data)))
          = Nat.min n (length data - i * n)) as Hlen.
  { by rewrite length_map, length_take, length_drop. }
  unfold Py.len in *. rewrite Hlen.
  split; [unfold n; nia|].
  split; [intros Hlast; unfold n; nia|].
  rewrite fold_dict_set_fun_get.
  rewrite decide_True by apply list_elem_of_here.
  f_equal. rewrite <- chunk_fmap. apply map_ext, supp_value_triple.
Qed.

(** A data set of three enriched samples. *)
Definition example_enriched : list sample :=
  [Sample (BaseSample [2; 7; 8; 3] [2; 3; 4; 5] [3; 2; 2; 4] [2; 3; 4; 5]
                      [0; 1; 2; 3] [-3; -2; -1; 0] 0 2 3 (Some [1; 0]))
          (SupplementalSample (2, 0, 3) None);
   Sample (BaseSample [2; 7; 8] [2; 3; 4] [3; 2; 2] [2; 3; 4]
                      [0; 1; 2] [-2; -1; 0] 1 2 3 (Some [0; 1]))
          (SupplementalSample (2, 1, 3) None);
   Sample (BaseSample [9; 2; 7; 8; 3] [6; 2; 3; 4; 5] [2; 3; 2; 2; 4]
                      [6; 2; 3; 4; 5] [-1; 0; 1; 2; 3] [-4; -3; -2; -1; 0]
                      0 2 3 (Some [1; 0]))
          (SupplementalSample (2, 0, 3) None)].

Lemma example_enriched_batchable : batchable example_enriched.
Proof.
  split.
  - repeat constructor; by eexists.
  - intros first s [= <-] Hs.
    repeat (apply elem_of_cons in Hs as [->|Hs]; [reflexivity|]).
    by apply elem_of_nil in Hs.
Qed.

Lemma create_batches_chunks_witness :
  exists batches tuples,
    create_batches example_enriched 2 = Ok batches /\
    mapM_result (fun s => base_mapper (base s)) example_enriched = Ok tuples /\
    Py.len batches = (Py.len example_enriched + 2 - 1) / 2 /\
    concat (batch_base <$> batches) = tuples.
Proof.
  destruct (create_batches_chunks example_enriched 2 ltac:(lia)
              example_enriched_batchable)
    as (batches & tuples & H1 & H2 & H3 & H4 & _).
  by exists batches, tuples.
Defined.

(** X7. A batch size that is not positive: with [batch_size = 0],
    [create_batches] raises the [ValueError] of [range], whatever the data
    (also for no data at all); with a negative batch size it returns no
    batch and no error, however many examples there are. *)
Theorem create_batches_degenerate_batch_size (data : list sample) (batch_size : Z) :
  (batch_size = 0 ->
   create_batches data batch_size
   = Raise (ValueError "range() arg 3 must not be zero")) /\
  (batch_size < 0 -> create_batches data batch_size = Ok []).
Proof.
  split.
  - intros ->. reflexivity.
  - intros Hneg. unfold create_batches, Py.range_step.
    destruct (batch_size =? 0) eqn:E0; [lia|].
    destruct (0 <? batch_size) eqn:E1; [lia|].
    assert ((0 - Py.len data - batch_size - 1) / - batch_size < 1) as Hc.
    { apply Z.div_lt_upper_bound; unfold Py.len; lia. }
    replace (Z.to_nat ((0 - Py.len data - batch_size - 1) / - batch_size))
      with 0%nat by lia.
    reflexivity.
Qed.

Lemma create_batches_degenerate_batch_size_witness :
  create_batches example_enriched 0
  = Raise (ValueError "range() arg 3 must not be zero") /\
  create_batches example_enriched (-2) = Ok [].
Proof.
  destruct (create_batches_degenerate_batch_size example_enriched 0) as [H0 _].
  destruct (create_batches_degenerate_batch_size example_enriched (-2)) as [_ Hneg].
  split; [apply H0; reflexivity | apply Hneg; lia].
Defined.

(** ** The order of a sorted batch depends on the lengths only *)

Lemma StronglySorted_pairwise {A} (R : A -> A -> Prop) (l : list A) :
  (forall i j x y, (i < j)%nat -> l !! i = Some x -> l !! j = Some y -> R x y) ->
  StronglySorted R l.
Proof.
  induction l as [|x l IH]; intros Hp; constructor.
  - apply IH. intros i j a b Hij Ha Hb. apply (Hp (S i) (S j)); [lia|done..].
  - apply Forall_lookup. intros j y Hy. apply (Hp 0%nat (S j)); [lia|done..].
Qed.

(** The order [sort_all] puts the positions in: longer first, and of two
    of one length the later first. *)
Definition sorts_before (lens : list Z) (oi oj : Z) : Prop :=
  exists li lj, lens !! Z.to_nat oi = Some li /\ lens !! Z.to_nat oj = Some lj /\
                (lj < li \/ (lj = li /\ oj < oi)).

Lemma sorts_before_antisymm (lens : list Z) : AntiSymm (=) (sorts_before lens).
Proof.
  intros a b (la & lb & Ha & Hb & H1) (lb' & la' & Hb' & Ha' & H2).
  rewrite Ha in Ha'. rewrite Hb in Hb'. injection Ha' as <-. injection Hb' as <-.
  lia.
Qed.

Lemma sort_all_sorted_positions {V} (V_eqb V_ltb : V -> V -> bool)
    (batch : list (list V)) (lens : list Z) sorted orig_idx :
  Forall (fun c => length c = length lens) batch ->
  sort_all V_eqb V_ltb batch lens = Ok (sorted, orig_idx) ->
  StronglySorted (sorts_before lens) orig_idx.
Proof.
  intros Hall Hs. apply StronglySorted_pairwise.
  intros i j oi oj Hij Hi Hj.
  exact (sort_all_order V_eqb V_ltb batch lens sorted orig_idx Hall Hs i j oi oj
           Hij Hi Hj).
Qed.

Lemma sort_all_same_order {V W} (V_eqb V_ltb : V -> V -> bool)
    (W_eqb W_ltb : W -> W -> bool)
    (batch : list (list V)) (batch' : list (list W)) (lens : list Z)
    sorted orig_idx sorted' orig_idx' :
  Forall (fun c => length c = length lens) batch ->
  Forall (fun c => length c = length lens) batch' ->
  sort_all V_eqb V_ltb batch lens = Ok (sorted, orig_idx) ->
  sort_all W_eqb W_ltb batch' lens = Ok (sorted', orig_idx') ->
  orig_idx' = orig_idx.
Proof.
  intros Hall Hall' Hs Hs'.
  pose proof (sorts_before_antisymm lens) as Hanti.
  apply (StronglySorted_unique (sorts_before lens)).
  - exact (sort_all_sorted_positions _ _ _ _ _ _ Hall' Hs').
  - exact (sort_all_sorted_positions _ _ _ _ _ _ Hall Hs).
  - rewrite (sort_all_perm _ _ _ _ _ _ Hall' Hs').
    by rewrite (sort_all_perm _ _ _ _ _ _ Hall Hs).
Qed.

(** X8. The permutation that [sort_all] returns is a function of the
    lengths alone: two calls with the same [lens], on whatever fields
    (the base fields of a batch and one of its supplemental fields, say),
    return the same [orig_idx], so the separately sorted fields of a
    batch stay aligned example by example. *)
Theorem sort_all_order_from_lengths {V W} (V_eqb V_ltb : V -> V -> bool)
    (W_eqb W_ltb : W -> W -> bool)
    (batch : list (list V)) (batch' : list (list W)) (lens : list Z) :
  lens <> [] ->
  Forall (fun c => length c = length lens) batch ->
  Forall (fun c => length c = length lens) batch' ->
  exists sorted sorted' orig_idx,
    sort_all V_eqb V_ltb batch lens = Ok (sorted, orig_idx) /\
    sort_all W_eqb W_ltb batch' lens = Ok (sorted', orig_idx) /\
    Forall2 (reordered_by orig_idx) batch sorted /\
    Forall2 (reordered_by orig_idx) batch' sorted'.
Proof.
  intros Hne Hall Hall'.
  destruct (sort_all_returns V_eqb V_ltb batch lens Hne Hall)
    as (sorted & orig_idx & Hs).
  destruct (sort_all_returns W_eqb W_ltb batch' lens Hne Hall')
    as (sorted' & orig_idx' & Hs').
  rewrite (sort_all_same_order _ _ _ _ _ _ _ _ _ _ _ Hall Hall' Hs Hs') in Hs'.
  exists sorted, sorted', orig_idx. split; [done|]. split; [done|].
  split; by eapply sort_all_reordered.
Qed.

Lemma sort_all_order_from_lengths_witness :
  exists sorted sorted' orig_idx,
    sort_all Z.eqb Z.ltb [[10; 11; 12]] [4; 7; 4] = Ok (sorted, orig_idx) /\
    sort_all pyval_eqb pyval_ltb [[PInt 2; PInt 1; PInt 0]; [PInt 5; PInt 5; PInt 5]]
             [4; 7; 4] = Ok (sorted', orig_idx) /\
    Forall2 (reordered_by orig_idx) [[10; 11; 12]] sorted /\
    Forall2 (reordered_by orig_idx)
            [[PInt 2; PInt 1; PInt 0]; [PInt 5; PInt 5; PInt 5]] sorted'.
Proof.
  apply (sort_all_order_from_lengths Z.eqb Z.ltb pyval_eqb pyval_ltb
           [[10; 11; 12]] [[PInt 2; PInt 1; PInt 0]; [PInt 5; PInt 5; PInt 5]]
           [4; 7; 4]).
  - done.
  - repeat constructor.
  - repeat constructor.
Defined.

(** ** Padded tensors and word dropout *)

(** The length of the longest row. *)
Definition longest (col : list (list Z)) : nat := max_list (length <$> col).



Lemma get_long_tensor_Ok env (tokens_list : list (list Z)) (batch_size : Z) :
  tokens_list <> [] -> Py.len tokens_list <= batch_size ->
  get_long_tensor env tokens_list batch_size =
  Ok (map (pad_row env (longest tokens_list)) tokens_list ++
      replicate (Z.to_nat batch_size - length tokens_list)
                (replicate (longest tokens_list) (PAD_ID env))).
Proof.
  intros Hne Hle. unfold get_long_tensor.
  destruct tokens_list as [|s l]; [done|].
  destruct (batch_size <? Py.len (s :: l)) eqn:E; [lia|]. reflexivity.
Qed.

Lemma get_long_tensor_full env (col : list (list Z)) (batch_size : Z) :
  col <> [] -> Py.len col = batch_size ->
  get_long_tensor env col batch_size = Ok (map (pad_row env (longest col)) col).
Proof.
  intros Hne Hlen. rewrite get_long_tensor_Ok by (done || lia).
  unfold Py.len in Hlen.
  replace (Z.to_nat batch_size - length col)%nat with 0%nat by lia.
  simpl. by rewrite app_nil_r.
Qed.



Section dropout.
Context {G : Type} `{Rng G}.
Variable env : vocab_env.

(** A token after word dropout: itself, or [UNK_ID] in its place. *)
Definition kept_or_unk (x y : Z) : Prop := y = x \/ y = UNK_ID env.

Lemma word_dropout_tokens (g : G) (tokens : list Z) (dropout : Qc) :
  Forall2 kept_or_unk tokens (word_dropout env g tokens dropout).1.
Proof.
  revert g. induction tokens as [|x tokens IH]; intros g; simpl; [constructor|].
  destruct (decide (x = UNK_ID env)); simpl.
  - constructor; [by left | apply IH].
  - constructor; [|apply IH]. case_decide; [by right | by left].
Qed.

Lemma word_dropout_all_tokens (g : G) (sents : list (list Z)) (dropout : Qc) :
  Forall2 (Forall2 kept_or_unk) sents (word_dropout_all env g sents dropout).1.
Proof.
  revert g. induction sents as [|sent sents IH]; intros g; simpl; constructor.
  - apply word_dropout_tokens.
  - apply IH.
Qed.

(** X10. Word dropout keeps the length of the sentence; every token is
    either kept or replaced by [UNK_ID]; when no token is anything but
    [UNK_ID] no random number is drawn. With draws in [[0, 1)], a rate of
    0 or less keeps every token and a rate of 1 or more replaces all of
    them. *)
Theorem word_dropout_keeps_or_replaces (g : G) (tokens : list Z) (dropout : Qc) :
  length (word_dropout env g tokens dropout).1 = length tokens /\
  Forall2 kept_or_unk tokens (word_dropout env g tokens dropout).1 /\
  (Forall (fun x => x = UNK_ID env) tokens ->
   (word_dropout env g tokens dropout).2 = g) /\
  ((forall g0, (0 <= (rng_random g0).1)%Qc /\ ((rng_random g0).1 < 1)%Qc) ->
   ((dropout <= 0)%Qc -> (word_dropout env g tokens dropout).1 = tokens) /\
   ((1 <= dropout)%Qc ->
    (word_dropout env g tokens dropout).1
    = replicate (length tokens) (UNK_ID env))).
Proof.
  split; [symmetry; eapply Forall2_length, word_dropout_tokens|].
  split; [apply word_dropout_tokens|].
  split.
  - revert g. induction tokens as [|x tokens IH]; intros g Hall; simpl; [done|].
    apply Forall_cons in Hall as [-> Hall]. rewrite decide_True by done. simpl.
    by apply IH.
  - intros Hdraw. split.
    + intros Hp. revert g. induction tokens as [|x tokens IH]; intros g; simpl; [done|].
      destruct (decide (x = UNK_ID env)); simpl; [by rewrite IH|].
      rewrite IH. rewrite decide_False; [done|].
      intros Hlt. destruct (Hdraw g) as [H0 _].
      apply (Qclt_not_le _ _ Hlt). by eapply Qcle_trans.
    + intros Hp. revert g. induction tokens as [|x tokens IH]; intros g; simpl; [done|].
      destruct (decide (x = UNK_ID env)) as [->|Hx]; simpl; [by rewrite IH|].
      rewrite IH. rewrite decide_True; [done|].
      destruct (Hdraw g) as [_ H1]. by eapply Qclt_le_trans.
Qed.

End dropout.

Lemma word_dropout_keeps_or_replaces_witness :
  (word_dropout example_env 0%nat [5; 1; 7] 0%Qc).1 = [5; 1; 7] /\
  (word_dropout example_env 0%nat [5; 1; 7] 1%Qc).1
  = replicate 3 (UNK_ID example_env).
Proof.
  destruct (word_dropout_keeps_or_replaces example_env 0%nat [5; 1; 7] 0%Qc)
    as (_ & _ & _ & Hzero).
  destruct (word_dropout_keeps_or_replaces example_env 0%nat [5; 1; 7] 1%Qc)
    as (_ & _ & _ & Hone).
  assert (forall g0 : nat,
            (0 <= (rng_random g0).1)%Qc /\ ((rng_random g0).1 < 1)%Qc) as Hdraw.
  { intros g0. simpl. split; [apply Qcle_refl | reflexivity]. }
  split.
  - apply (proj1 (Hzero Hdraw)). apply Qcle_refl.
  - apply (proj2 (Hone Hdraw)). apply Qcle_refl.
Defined.

(** ** Readied batches *)

(** The seven columns of a batch of enriched samples. *)
Definition base_columns (examples : list sample) : list (list (list Z)) :=
  [map (fun e => base_tokens (base e)) examples;
   map (fun e => base_pos (base e)) examples;
   map (fun e => base_ner (base e)) examples;
   map (fun e => base_deprel (base e)) examples;
   map (fun e => base_subj_positions (base e)) examples;
   map (fun e => base_obj_positions (base e)) examples;
   map (fun e => default [] (base_activated_relations (base e))) examples].

Lemma zip_star_tuple_of (examples : list sample) :
  examples <> [] -> zip_star (map tuple_of examples) = base_columns examples.
Proof.
  induction examples as [|e es IH]; [done|]. intros _.
  destruct es as [|e' es']; [reflexivity|].
  change (zip_star (map tuple_of (e :: e' :: es')))
    with (zip_with cons (tuple_of e) (zip_star (map tuple_of (e' :: es')))).
  rewrite IH by done. reflexivity.
Qed.

Lemma reordered_elem {A} (orig_idx : list Z) (c c' : list A) (x : A) :
  Permutation orig_idx (Py.range 0 (Py.len c)) -> reordered_by orig_idx c c' ->
  x ∈ c' <-> x ∈ c.
Proof.
  intros Hperm [Hlen Hre].
  assert (length orig_idx = length c) as Hlo.
  { rewrite (Permutation_length Hperm). unfold Py.range, Py.len.
    rewrite length_seqZ. lia. }
  split.
  - intros [i Hi]%list_elem_of_lookup_1.
    destruct (lookup_lt_is_Some_2 orig_idx i) as [o Ho].
    { rewrite Hlo, <- Hlen. by eapply lookup_lt_Some. }
    rewrite (Hre i o Ho) in Hi. by eapply list_elem_of_lookup_2.
  - intros [j Hj]%list_elem_of_lookup_1.
    assert (Z.of_nat j ∈ orig_idx) as [i Hi]%list_elem_of_lookup_1.
    { rewrite Hperm. unfold Py.range, Py.len. apply elem_of_seqZ.
      apply lookup_lt_Some in Hj. lia. }
    apply (list_elem_of_lookup_2 _ i). rewrite (Hre i _ Hi).
    by rewrite Nat2Z.id.
Qed.

Lemma max_list_subset (l l' : list nat) :
  (forall x, x ∈ l -> x ∈ l') -> (max_list l <= max_list l')%nat.
Proof.
  induction l as [|x l IH]; intros Hsub; simpl; [lia|].
  apply Nat.max_lub.
  - apply max_list_elem_of_le, Hsub, list_elem_of_here.
  - apply IH. intros y Hy. by apply Hsub, list_elem_of_further.
Qed.

Lemma longest_reordered (orig_idx : list Z) (c c' : list (list Z)) :
  Permutation orig_idx (Py.range 0 (Py.len c)) -> reordered_by orig_idx c c' ->
  longest c' = longest c.
Proof.
  intros Hperm Hre. unfold longest. apply Nat.le_antisymm; apply max_list_subset.
  - intros n (s & -> & Hs)%list_elem_of_fmap. apply list_elem_of_fmap.
    exists s. split; [done|]. exact (proj1 (reordered_elem _ _ _ s Hperm Hre) Hs).
  - intros n (s & -> & Hs)%list_elem_of_fmap. apply list_elem_of_fmap.
    exists s. split; [done|]. exact (proj2 (reordered_elem _ _ _ s Hperm Hre) Hs).
Qed.

Lemma index_of_seven {A} (c0 c1 c2 c3 c4 c5 c6 : A) :
  let l := [c0; c1; c2; c3; c4; c5; c6] in
  Py.index l 0 = Ok c0 /\ Py.index l 1 = Ok c1 /\ Py.index l 2 = Ok c2 /\
  Py.index l 3 = Ok c3 /\ Py.index l 4 = Ok c4 /\ Py.index l 5 = Ok c5 /\
  Py.index l (-1) = Ok c6.
Proof. repeat split; reflexivity. Qed.

Lemma Forall2_lengths {A B} (R : A -> B -> Prop) (a : list (list A))
    (b : list (list B)) :
  Forall2 (Forall2 R) a b -> length <$> a = length <$> b.
Proof.
  induction 1 as [|x y a b Hxy _ IH]; [done|].
  rewrite !fmap_cons, IH. f_equal. by eapply Forall2_length.
Qed.

Section ready.
Context {G : Type} `{Rng G}.
Variable env : vocab_env.

Lemma padded_column_row (orig_idx : list Z) (f : sample -> list Z)
    (examples : list sample) (c' : list (list Z)) (i : nat) (o : Z) (e : sample) :
  Permutation orig_idx (Py.range 0 (Py.len examples)) ->
  reordered_by orig_idx (map f examples) c' ->
  orig_idx !! i = Some o -> examples !! Z.to_nat o = Some e ->
  map (pad_row env (longest c')) c' !! i
  = Some (pad_row env (longest (map f examples)) (f e)).
Proof.
  intros Hperm Hre Ho He.
  rewrite (longest_reordered orig_idx (map f examples) c'); [|
    by unfold Py.len; rewrite length_map | done].
  change (map (pad_row env (longest (map f examples))) c')
    with (pad_row env (longest (map f examples)) <$> c').
  rewrite list_lookup_fmap. destruct Hre as [_ Hre]. rewrite (Hre i o Ho).
  change (map f examples) with (f <$> examples).
  by rewrite list_lookup_fmap, He.
Qed.

Lemma ready_base_batch_rows (self : batcher) (g : G) (examples : list sample) :
  examples <> [] ->
  exists r g' sorted,
    ready_base_batch env self g (map tuple_of examples) (Py.len examples)
      = Ok (r, g') /\
    sort_all list_eqb list_ltb (base_columns examples)
             (map (fun e => Py.len (base_tokens (base e))) examples)
      = Ok (sorted, rb_orig_idx r) /\
    rb_sentence_lengths r = map (fun e => Py.len (base_tokens (base e))) examples /\
    rb_supplemental r = [] /\
    rb_masks r = map (map (fun w => w =? 0)) (rb_words r) /\
    (b_is_eval self = true -> g' = g) /\
    forall i o, rb_orig_idx r !! i = Some o ->
      exists e words,
        examples !! Z.to_nat o = Some e /\
        (if b_is_eval self then words = base_tokens (base e)
         else Forall2 (kept_or_unk env) (base_tokens (base e)) words) /\
        rb_words r !! i
        = Some (pad_row env
                  (longest (map (fun e => base_tokens (base e)) examples)) words) /\
        rb_pos r !! i
        = Some (pad_row env (longest (map (fun e => base_pos (base e)) examples))
                        (base_pos (base e))) /\
        rb_ner r !! i
        = Some (pad_row env (longest (map (fun e => base_ner (base e)) examples))
                        (base_ner (base e))) /\
        rb_deprel r !! i
        = Some (pad_row env (longest (map (fun e => base_deprel (base e)) examples))
                        (base_deprel (base e))) /\
        rb_subj_positions r !! i
        = Some (pad_row env
                  (longest (map (fun e => base_subj_positions (base e)) examples))
                  (base_subj_positions (base e))) /\
        rb_obj_positions r !! i
        = Some (pad_row env
                  (longest (map (fun e => base_obj_positions (base e)) examples))
                  (base_obj_positions (base e))) /\
        rb_rels r !! i
        = Some (pad_row env
                  (longest (map (fun e => default [] (base_activated_relations (base e)))
                                examples))
                  (default [] (base_activated_relations (base e)))).
Proof.
  intros Hne. unfold ready_base_batch. rewrite zip_star_tuple_of by done.
  change (negb (length (base_columns examples) =? 7)%nat) with false.
  cbv iota.
  change (Py.index (base_columns examples) 0)
    with (Ok (A:=list (list Z)) (map (fun e => base_tokens (base e)) examples)).
  rewrite bind_Ok.
  rewrite (map_map (fun e => base_tokens (base e)) Py.len examples).
  set (lens := map (fun e => Py.len (base_tokens (base e))) examples).
  assert (length lens = length examples) as Hlens by apply length_map.
  assert (Forall (fun c => length c = length lens) (base_columns examples)) as Hall.
  { unfold base_columns. repeat constructor; by rewrite length_map. }
  destruct (sort_all_returns list_eqb list_ltb (base_columns examples) lens)
    as (sorted & orig_idx & Hs); [by destruct examples | done |].
  rewrite Hs, bind_Ok.
  pose proof (sort_all_perm _ _ _ _ _ _ Hall Hs) as Hperm.
  replace (Py.len lens) with (Py.len examples) in Hperm
    by (unfold Py.len; by rewrite Hlens).
  pose proof (sort_all_reordered _ _ _ _ _ _ Hall Hs) as HF.
  unfold base_columns in HF.
  apply Forall2_cons_inv_l in HF as (c0 & rest0 & H0 & HF & ->).
  apply Forall2_cons_inv_l in HF as (c1 & rest1 & H1 & HF & ->).
  apply Forall2_cons_inv_l in HF as (c2 & rest2 & H2 & HF & ->).
  apply Forall2_cons_inv_l in HF as (c3 & rest3 & H3 & HF & ->).
  apply Forall2_cons_inv_l in HF as (c4 & rest4 & H4 & HF & ->).
  apply Forall2_cons_inv_l in HF as (c5 & rest5 & H5 & HF & ->).
  apply Forall2_cons_inv_l in HF as (c6 & rest6 & H6 & HF & ->).
  apply Forall2_nil_inv_l in HF as ->.
  destruct (index_of_seven c0 c1 c2 c3 c4 c5 c6)
    as (E0 & E1 & E2 & E3 & E4 & E5 & E6).
  cbv zeta in E0, E1, E2, E3, E4, E5, E6.
  rewrite E0, E1, E2, E3, E4, E5, E6, !bind_Ok.
  assert (forall (f : sample -> list Z) c',
            reordered_by orig_idx (map f examples) c' ->
            c' <> [] /\ Py.len c' = Py.len examples) as Hcol.
  { intros f c' [Hl _]. rewrite length_map in Hl. split.
    - intros ->. by destruct examples.
    - unfold Py.len. by rewrite Hl. }
  set (words_g := if negb (b_is_eval self)
                  then word_dropout_all env g c0 (cfg_word_dropout (b_config self))
                  else (c0, g)).
  assert (Forall2 (Forall2 (kept_or_unk env)) c0 words_g.1 /\
          (b_is_eval self = true -> words_g = (c0, g)) /\
          (b_is_eval self = false ->
           words_g = word_dropout_all env g c0 (cfg_word_dropout (b_config self))))
    as (Hwords & Heval & Htrain).
  { unfold words_g. destruct (b_is_eval self); simpl.
    - split; [|done]. apply Forall2_same_length_lookup_2; [done|].
      intros j x y Hx Hy. rewrite Hx in Hy. injection Hy as <-.
      apply Forall2_same_length_lookup_2; [done|].
      intros k a b Ha Hb. rewrite Ha in Hb. injection Hb as <-. by left.
    - split; [apply word_dropout_all_tokens | done]. }
  destruct words_g as [words g'] eqn:Ew. simpl in Hwords.
  destruct (Hcol _ _ H0) as [Hne0 Hlen0].
  assert (words <> [] /\ Py.len words = Py.len examples /\
          longest words = longest c0) as (Hnew & Hlenw & Hlongw).
  { pose proof (Forall2_length _ _ _ Hwords) as Hl. split; [|split].
    - intros ->. by destruct c0.
    - unfold Py.len in *. lia.
    - unfold longest. by rewrite (Forall2_lengths _ _ _ Hwords). }
  rewrite (get_long_tensor_full env words) by done. rewrite bind_Ok.
  rewrite (get_long_tensor_full env c1) by apply (Hcol _ _ H1).
  rewrite (get_long_tensor_full env c2) by apply (Hcol _ _ H2).
  rewrite (get_long_tensor_full env c3) by apply (Hcol _ _ H3).
  rewrite (get_long_tensor_full env c4) by apply (Hcol _ _ H4).
  rewrite (get_long_tensor_full env c5) by apply (Hcol _ _ H5).
  rewrite (get_long_tensor_full env c6) by apply (Hcol _ _ H6).
  rewrite !bind_Ok.
  eexists _, g', _. split; [reflexivity|].
  cbn [rb_words rb_masks rb_pos rb_ner rb_deprel rb_subj_positions rb_obj_positions
       rb_rels rb_orig_idx rb_sentence_lengths rb_supplemental].
  split; [reflexivity|]. split; [done|]. split; [done|]. split; [done|].
  split.
  { intros Hev. specialize (Heval Hev). by injection Heval as _ ->. }
  intros i o Ho.
  assert (exists e, examples !! Z.to_nat o = Some e) as [e He].
  { apply lookup_lt_is_Some_2.
    assert (o ∈ Py.range 0 (Py.len examples)) as Hin.
    { rewrite <- Hperm. by eapply list_elem_of_lookup_2. }
    unfold Py.range, Py.len in Hin. apply elem_of_seqZ in Hin. lia. }
  assert (exists t, c0 !! i = Some t /\ t = base_tokens (base e)) as (t & Ht & ->).
  { destruct H0 as [_ Hre]. rewrite (Hre i o Ho).
    change (map (fun e0 => base_tokens (base e0)) examples)
      with ((fun e0 => base_tokens (base e0)) <$> examples).
    rewrite list_lookup_fmap, He. by eexists. }
  destruct (Forall2_lookup_l _ _ _ _ _ Hwords Ht) as (w & Hw & Hkept).
  exists e, w. split; [done|].
  split.
  { destruct (b_is_eval self) eqn:Ee; [|done].
    specialize (Heval eq_refl). injection Heval as <- _.
    rewrite Ht in Hw. by injection Hw as <-. }
  split.
  { rewrite Hlongw.
    rewrite (longest_reordered orig_idx
               (map (fun e0 => base_tokens (base e0)) examples) c0);
      [| by unfold Py.len; rewrite length_map | done].
    change (map (pad_row env (longest (map (fun e0 => base_tokens (base e0)) examples)))
                words)
      with (pad_row env (longest (map (fun e0 => base_tokens (base e0)) examples))
              <$> words).
    by rewrite list_lookup_fmap, Hw. }
  split; [exact (padded_column_row orig_idx (fun e0 => base_pos (base e0))
                  examples c1 i o e Hperm H1 Ho He)|].
  split; [exact (padded_column_row orig_idx (fun e0 => base_ner (base e0))
                  examples c2 i o e Hperm H2 Ho He)|].
  split; [exact (padded_column_row orig_idx (fun e0 => base_deprel (base e0))
                  examples c3 i o e Hperm H3 Ho He)|].
  split; [exact (padded_column_row orig_idx (fun e0 => base_subj_positions (base e0))
                  examples c4 i o e Hperm H4 Ho He)|].
  split; [exact (padded_column_row orig_idx (fun e0 => base_obj_positions (base e0))
                  examples c5 i o e Hperm H5 Ho He)|].
  exact (padded_column_row orig_idx
           (fun e0 => default [] (base_activated_relations (base e0)))
           examples c6 i o e Hperm H6 Ho He).
Qed.

End ready.

(** The three columns of the triples of a batch. *)
Definition triple_columns (examples : list sample) : list (list pyval) :=
  [map (fun e => PInt (supp_triple (supplemental e)).1.1) examples;
   map (fun e => PInt (supp_triple (supplemental e)).1.2) examples;
   map (fun e => PInt (supp_triple (supplemental e)).2) examples].

Lemma zip_star_triples (examples : list sample) :
  examples <> [] ->
  zip_star (map (supp_value "triple") examples) = triple_columns examples.
Proof.
  induction examples as [|e es IH]; [done|]. intros _.
  destruct es as [|e' es']; [reflexivity|].
  change (zip_star (map (supp_value "triple") (e :: e' :: es')))
    with (zip_with cons (supp_value "triple" e)
            (zip_star (map (supp_value "triple") (e' :: es')))).
  rewrite IH by done. reflexivity.
Qed.

Definition pyval_to_Z (v : pyval) : Z :=
  match v with PInt z => z | PSet _ => 0 end.

Lemma sorted_ints (orig_idx : list Z) (f : sample -> Z) (examples : list sample)
    (c' : list pyval) :
  Permutation orig_idx (Py.range 0 (Py.len examples)) ->
  reordered_by orig_idx (map (fun e => PInt (f e)) examples) c' ->
  mapM_result pyval_int c' = Ok (map pyval_to_Z c') /\
  forall i o e, orig_idx !! i = Some o -> examples !! Z.to_nat o = Some e ->
    map pyval_to_Z c' !! i = Some (f e).
Proof.
  intros Hperm Hre. split.
  - apply mapM_result_fmap. intros x Hx.
    apply (reordered_elem orig_idx (map (fun e => PInt (f e)) examples)) in Hx;
      [| by unfold Py.len; rewrite length_map | done].
    apply list_elem_of_fmap in Hx as (e & -> & _). reflexivity.
  - intros i o e Ho He. destruct Hre as [_ Hre].
    change (map pyval_to_Z c') with (pyval_to_Z <$> c').
    rewrite list_lookup_fmap, (Hre i o Ho).
    change (map (fun e0 => PInt (f e0)) examples)
      with ((fun e0 => PInt (f e0)) <$> examples).
    by rewrite list_lookup_fmap, He.
Qed.

Lemma ready_triple_batch_aligned {V} (V_eqb V_ltb : V -> V -> bool)
    (self : batcher) (examples : list sample) (lens : list Z)
    (batch : list (list V)) sorted orig_idx :
  examples <> [] -> length lens = length examples ->
  Forall (fun c => length c = length lens) batch ->
  sort_all V_eqb V_ltb batch lens = Ok (sorted, orig_idx) ->
  exists ss rs os,
    ready_triple_batch self (map (supp_value "triple") examples) lens
      = Ok [Tensor1 ss; Tensor1 rs; Tensor1 os] /\
    forall i o e, orig_idx !! i = Some o -> examples !! Z.to_nat o = Some e ->
      ss !! i = Some (supp_triple (supplemental e)).1.1 /\
      rs !! i = Some (supp_triple (supplemental e)).1.2 /\
      os !! i = Some (supp_triple (supplemental e)).2.
Proof.
  intros Hne Hlens Hall Hs. unfold ready_triple_batch.
  rewrite zip_star_triples by done.
  assert (Forall (fun c => length c = length lens) (triple_columns examples)) as Hall'.
  { unfold triple_columns. repeat constructor; by rewrite length_map. }
  destruct (sort_all_returns pyval_eqb pyval_ltb (triple_columns examples) lens)
    as (sorted' & orig_idx' & Hs'); [by destruct lens, examples | done |].
  pose proof (sort_all_same_order _ _ _ _ _ _ _ _ _ _ _ Hall Hall' Hs Hs') as ->.
  rewrite Hs', bind_Ok.
  pose proof (sort_all_perm _ _ _ _ _ _ Hall' Hs') as Hperm.
  replace (Py.len lens) with (Py.len examples) in Hperm
    by (unfold Py.len; by rewrite Hlens).
  pose proof (sort_all_reordered _ _ _ _ _ _ Hall' Hs') as HF.
  unfold triple_columns in HF.
  apply Forall2_cons_inv_l in HF as (c0 & rest0 & H0 & HF & ->).
  apply Forall2_cons_inv_l in HF as (c1 & rest1 & H1 & HF & ->).
  apply Forall2_cons_inv_l in HF as (c2 & rest2 & H2 & HF & ->).
  apply Forall2_nil_inv_l in HF as ->.
  destruct (sorted_ints orig_idx (fun e => (supp_triple (supplemental e)).1.1)
              examples c0 Hperm H0) as [E0 L0].
  destruct (sorted_ints orig_idx (fun e => (supp_triple (supplemental e)).1.2)
              examples c1 Hperm H1) as [E1 L1].
  destruct (sorted_ints orig_idx (fun e => (supp_triple (supplemental e)).2)
              examples c2 Hperm H2) as [E2 L2].
  rewrite E0, bind_Ok, E1, bind_Ok, E2, bind_Ok.
  eexists _, _, _. split; [reflexivity|].
  intros i o e Ho He. split; [by eapply L0|]. split; [by eapply L1 | by eapply L2].
Qed.

Section ready_data.
Context {G : Type} `{Rng G}.
Variable env : vocab_env.

Lemma ready_supplemental_triple (self : batcher) (lens : list Z)
    (column : list (list pyval)) (acc : odict string (list tensor))
    (readied : list tensor) :
  ready_triple_batch self column lens = Ok readied ->
  ready_supplemental self lens ("triple", column) acc
  = Ok (dict_set "triple" readied acc).
Proof.
  intros Ht. unfold ready_supplemental.
  rewrite decide_False by done. rewrite decide_False by done.
  rewrite decide_True by done. by rewrite Ht.
Qed.

Lemma ready_supplemental_other (self : batcher) (lens : list Z) (name : string)
    (column : list (list pyval)) (acc : odict string (list tensor)) :
  name <> "relation_masks" -> name <> "binary_labels" -> name <> "triple" ->
  ready_supplemental self lens (name, column) acc = Ok acc.
Proof.
  intros H1 H2 H3. unfold ready_supplemental.
  by rewrite !decide_False by done.
Qed.

Lemma ready_supplemental_batch_of (self : batcher) (lens : list Z)
    (first : sample) (examples : list sample) (readied : list tensor) :
  ready_triple_batch self (map (supp_value "triple") examples) lens = Ok readied ->
  foldM (ready_supplemental self lens)
        (batch_supplemental (batch_of first examples)) []
  = Ok [("triple", readied)].
Proof.
  intros Ht. unfold batch_of, supplemental_keys. cbn [batch_supplemental].
  destruct (supp_relation_masking (supplemental first)) as [m|].
  - cbn [fold_left].
    change (dict_set "relation_masking" ?v (dict_set "triple" ?c []))
      with [("triple", c); ("relation_masking", v)].
    cbn [foldM]. rewrite (ready_supplemental_triple _ _ _ _ _ Ht), bind_Ok.
    by rewrite ready_supplemental_other.
  - cbn [fold_left]. change (dict_set "triple" ?c []) with [("triple", c)].
    cbn [foldM]. by rewrite (ready_supplemental_triple _ _ _ _ _ Ht).
Qed.

End ready_data.

(** The examples that batch [k] is made of: [data[k * batch_size :
    (k + 1) * batch_size]]. *)
Definition batch_examples (data : list sample) (batch_size : Z) (k : nat)
  : list sample :=
  take (Z.to_nat batch_size) (drop (k * Z.to_nat batch_size) data).

Lemma created_batch (data : list sample) (batch_size : Z)
    (batches : list data_batch) (k : nat) (batch : data_batch) :
  0 < batch_size -> batchable data ->
  create_batches data batch_size = Ok batches -> batches !! k = Some batch ->
  exists first,
    batch = batch_of first (batch_examples data batch_size k) /\
    batch_examples data batch_size k <> [].
Proof.
  intros Hbs Hdata Hc Hk.
  pose proof (chunk_count_bounds (Py.len data) batch_size Hbs
                ltac:(unfold Py.len; lia)) as (Hc0 & Hc1 & Hc2).
  destruct data as [|first rest] eqn:Edata.
  { unfold create_batches in Hc.
    rewrite range_step_chunks in Hc by (unfold Py.len; simpl; lia).
    replace ((Py.len [] + batch_size - 1) / batch_size) with 0 in Hc
      by (symmetry; apply Z.div_small; unfold Py.len; simpl; lia).
    simpl in Hc. injection Hc as <-. done. }
  rewrite <- Edata in *.
  assert (data !! 0%nat = Some first) as Hfirst by by rewrite Edata.
  clear Edata.
  rewrite (create_batches_batch_of data batch_size first Hbs Hdata Hfirst) in Hc.
  injection Hc as <-.
  change (map ?f ?l !! k) with ((f <$> l) !! k) in Hk.
  rewrite list_lookup_fmap in Hk.
  destruct (seq 0 _ !! k) as [k'|] eqn:Ek; [|done].
  apply lookup_seq in Ek as [-> Hlt]. simpl in Hlt, Hk. injection Hk as <-.
  exists first. split; [done|].
  intros Hnil. apply (f_equal length) in Hnil. unfold batch_examples in Hnil.
  rewrite length_take, length_drop in Hnil. simpl in Hnil.
  unfold Py.len in *. nia.
Qed.

Lemma mask_of_padded_row env (m : nat) (words : list Z) :
  PAD_ID env = 0 -> Forall (fun w => w <> 0) words ->
  map (fun w => w =? 0) (pad_row env m words)
  = replicate (length words) false ++ replicate (m - length words) true.
Proof.
  intros Hpad Hw. unfold pad_row. rewrite map_app, Hpad. f_equal.
  - induction Hw as [|w words Hw _ IH]; [done|]. simpl. rewrite IH.
    f_equal. by apply Z.eqb_neq.
  - generalize (m - length words)%nat. intros n.
    induction n as [|n IH]; [done|]. simpl. by rewrite IH.
Qed.

Section ready_created.
Context {G : Type} `{Rng G}.
Variable env : vocab_env.

Lemma ready_data_batch_batch_of (self : batcher) (g g' : G) (first : sample)
    (examples : list sample) (r0 : readied_batch) sorted :
  examples <> [] ->
  ready_base_batch env self g (map tuple_of examples) (Py.len examples)
    = Ok (r0, g') ->
  sort_all list_eqb list_ltb (base_columns examples)
           (map (fun e => Py.len (base_tokens (base e))) examples)
    = Ok (sorted, rb_orig_idx r0) ->
  rb_sentence_lengths r0 = map (fun e => Py.len (base_tokens (base e))) examples ->
  exists ss rs os,
    ready_data_batch env self g (batch_of first examples)
      = Ok (set_supplemental r0 [("triple", [Tensor1 ss; Tensor1 rs; Tensor1 os])],
            g') /\
    forall i o e, rb_orig_idx r0 !! i = Some o -> examples !! Z.to_nat o = Some e ->
      ss !! i = Some (supp_triple (supplemental e)).1.1 /\
      rs !! i = Some (supp_triple (supplemental e)).1.2 /\
      os !! i = Some (supp_triple (supplemental e)).2.
Proof.
  intros Hne Hb Hs Hlens.
  assert (Forall (fun c => length c
                           = length (map (fun e => Py.len (base_tokens (base e)))
                                         examples))
                 (base_columns examples)) as Hall.
  { unfold base_columns. repeat constructor; by rewrite !length_map. }
  destruct (ready_triple_batch_aligned list_eqb list_ltb self examples _ _ _ _
              Hne ltac:(apply length_map) Hall Hs)
    as (ss & rs & os & Ht & Halign).
  exists ss, rs, os. split; [|exact Halign].
  unfold ready_data_batch.
  change (batch_base (batch_of first examples)) with (map tuple_of examples).
  replace (Py.len (map tuple_of examples)) with (Py.len examples)
    by (unfold Py.len; by rewrite length_map).
  rewrite Hb, bind_Ok, Hlens.
  by rewrite (ready_supplemental_batch_of self _ first examples _ Ht).
Qed.

(** X11. Readying a batch that [create_batches] has made returns. The
    rows of the tensors are the examples of the batch in the order of
    [orig_idx], which is a permutation of their positions that puts
    longer sentences first: row [i] of each tensor is the field of
    example [orig_idx[i]], filled up with [PAD_ID] to the longest entry
    of that field in the batch. In evaluation mode the words are the
    token ids and no random number is drawn; in training mode each word
    is the token id or [UNK_ID]. ['sentence_lengths'] is in the order of
    the examples before the sort. *)
Theorem ready_data_batch_rows (self : batcher) (g : G) (data : list sample)
    (batch_size : Z) (batches : list data_batch) (k : nat) (batch : data_batch) :
  0 < batch_size -> batchable data ->
  create_batches data batch_size = Ok batches -> batches !! k = Some batch ->
  exists r g',
    ready_data_batch env self g batch = Ok (r, g') /\
    (b_is_eval self = true -> g' = g) /\
    rb_sentence_lengths r
    = map (fun e => Py.len (base_tokens (base e)))
          (batch_examples data batch_size k) /\
    Permutation (rb_orig_idx r)
                (Py.range 0 (Py.len (batch_examples data batch_size k))) /\
    lengths_descending (rb_sentence_lengths r) (rb_orig_idx r) /\
    forall i o, rb_orig_idx r !! i = Some o ->
      exists e words,
        batch_examples data batch_size k !! Z.to_nat o = Some e /\
        (if b_is_eval self then words = base_tokens (base e)
         else Forall2 (kept_or_unk env) (base_tokens (base e)) words) /\
        rb_words r !! i
        = Some (pad_row env
                  (longest (map (fun e => base_tokens (base e))
                                (batch_examples data batch_size k))) words) /\
        rb_pos r !! i
        = Some (pad_row env
                  (longest (map (fun e => base_pos (base e))
                                (batch_examples data batch_size k)))
                  (base_pos (base e))) /\
        rb_ner r !! i
        = Some (pad_row env
                  (longest (map (fun e => base_ner (base e))
                                (batch_examples data batch_size k)))
                  (base_ner (base e))) /\
        rb_deprel r !! i
        = Some (pad_row env
                  (longest (map (fun e => base_deprel (base e))
                                (batch_examples data batch_size k)))
                  (base_deprel (base e))) /\
        rb_subj_positions r !! i
        = Some (pad_row env
                  (longest (map (fun e => base_subj_positions (base e))
                                (batch_examples data batch_size k)))
                  (base_subj_positions (base e))) /\
        rb_obj_positions r !! i
        = Some (pad_row env
                  (longest (map (fun e => base_obj_positions (base e))
                                (batch_examples data batch_size k)))
                  (base_obj_positions (base e))) /\
        rb_rels r !! i
        = Some (pad_row env
                  (longest (map (fun e => default [] (base_activated_relations (base e)))
                                (batch_examples data batch_size k)))
                  (default [] (base_activated_relations (base e)))).
Proof.
  intros Hbs Hdata Hc Hk.
  destruct (created_batch data batch_size batches k batch Hbs Hdata Hc Hk)
    as (first & -> & Hne).
  set (examples := batch_examples data batch_size k) in *.
  destruct (ready_base_batch_rows env self g examples Hne)
    as (r0 & g' & sorted & Hb & Hs & Hlens & _ & _ & Hg & Hrows).
  destruct (ready_data_batch_batch_of self g g' first examples r0 sorted
              Hne Hb Hs Hlens) as (ss & rs & os & Hr & _).
  eexists _, g'. split; [exact Hr|].
  cbn [set_supplemental rb_sentence_lengths rb_orig_idx rb_words rb_pos rb_ner
       rb_deprel rb_subj_positions rb_obj_positions rb_rels].
  split; [exact Hg|]. split; [exact Hlens|].
  assert (Forall (fun c => length c
                           = length (map (fun e => Py.len (base_tokens (base e)))
                                         examples))
                 (base_columns examples)) as Hall.
  { unfold base_columns. repeat constructor; by rewrite !length_map. }
  split.
  { rewrite (sort_all_perm _ _ _ _ _ _ Hall Hs). unfold Py.len.
    by rewrite length_map. }
  split; [|exact Hrows].
  rewrite Hlens. intros i j oi oj Hij Hi Hj.
  destruct (sort_all_order _ _ _ _ _ _ Hall Hs i j oi oj Hij Hi Hj)
    as (li & lj & Hli & Hlj & Hord).
  exists li, lj. split; [done|]. split; [done|]. lia.
Qed.

(** X12. The readied supplemental map of a batch has the one entry
    ['triple'] (an entry ['relation_masking'] of the batch is passed
    over): three vectors of the subject, relation and object ids, in the
    order of the rows of the base tensors, so entry [i] of each vector
    and row [i] of each tensor belong to the same example. *)
Theorem ready_data_batch_triples_aligned (self : batcher) (g : G)
    (data : list sample) (batch_size : Z) (batches : list data_batch) (k : nat)
    (batch : data_batch) :
  0 < batch_size -> batchable data ->
  create_batches data batch_size = Ok batches -> batches !! k = Some batch ->
  exists r g' ss rs os,
    ready_data_batch env self g batch = Ok (r, g') /\
    rb_supplemental r = [("triple", [Tensor1 ss; Tensor1 rs; Tensor1 os])] /\
    forall i o, rb_orig_idx r !! i = Some o ->
      exists e,
        batch_examples data batch_size k !! Z.to_nat o = Some e /\
        rb_pos r !! i
        = Some (pad_row env
                  (longest (map (fun e => base_pos (base e))
                                (batch_examples data batch_size k)))
                  (base_pos (base e))) /\
        ss !! i = Some (supp_triple (supplemental e)).1.1 /\
        rs !! i = Some (supp_triple (supplemental e)).1.2 /\
        os !! i = Some (supp_triple (supplemental e)).2.
Proof.
  intros Hbs Hdata Hc Hk.
  destruct (created_batch data batch_size batches k batch Hbs Hdata Hc Hk)
    as (first & -> & Hne).
  set (examples := batch_examples data batch_size k) in *.
  destruct (ready_base_batch_rows env self g examples Hne)
    as (r0 & g' & sorted & Hb & Hs & Hlens & _ & _ & Hg & Hrows).
  destruct (ready_data_batch_batch_of self g g' first examples r0 sorted
              Hne Hb Hs Hlens) as (ss & rs & os & Hr & Halign).
  eexists _, g', ss, rs, os. split; [exact Hr|].
  cbn [set_supplemental rb_supplemental rb_orig_idx rb_pos].
  split; [done|]. intros i o Ho.
  destruct (Hrows i o Ho) as (e & words & He & _ & _ & Hpos & _).
  exists e. split; [done|]. split; [done|]. by apply (Halign i o e).
Qed.

(** X13. The mask of a readied batch compares the words with the literal
    0. When [PAD_ID] is 0 and neither [UNK_ID] nor any token id of the
    data is 0, the mask marks exactly the padding: row [i] is [False] on
    the tokens of its example and [True] from there to the length of the
    longest sentence of the batch. *)
Theorem ready_data_batch_masks (self : batcher) (g : G) (data : list sample)
    (batch_size : Z) (batches : list data_batch) (k : nat) (batch : data_batch) :
  0 < batch_size -> batchable data ->
  create_batches data batch_size = Ok batches -> batches !! k = Some batch ->
  PAD_ID env = 0 -> UNK_ID env <> 0 ->
  Forall (fun e => Forall (fun w => w <> 0) (base_tokens (base e))) data ->
  exists r g',
    ready_data_batch env self g batch = Ok (r, g') /\
    forall i o, rb_orig_idx r !! i = Some o ->
      exists e,
        batch_examples data batch_size k !! Z.to_nat o = Some e /\
        rb_masks r !! i
        = Some (replicate (length (base_tokens (base e))) false ++
                replicate (longest (map (fun e => base_tokens (base e))
                                        (batch_examples data batch_size k))
                           - length (base_tokens (base e))) true).
Proof.
  intros Hbs Hdata Hc Hk Hpad Hunk Hnz.
  destruct (created_batch data batch_size batches k batch Hbs Hdata Hc Hk)
    as (first & -> & Hne).
  set (examples := batch_examples data batch_size k) in *.
  destruct (ready_base_batch_rows env self g examples Hne)
    as (r0 & g' & sorted & Hb & Hs & Hlens & _ & Hmasks & Hg & Hrows).
  destruct (ready_data_batch_batch_of self g g' first examples r0 sorted
              Hne Hb Hs Hlens) as (ss & rs & os & Hr & _).
  eexists _, g'. split; [exact Hr|].
  cbn [set_supplemental rb_orig_idx rb_masks].
  intros i o Ho.
  destruct (Hrows i o Ho) as (e & words & He & Hwords & Hw & _).
  exists e. split; [done|].
  assert (Forall (fun w => w <> 0) (base_tokens (base e))) as Hte.
  { rewrite Forall_forall in Hnz. apply Hnz.
    apply list_elem_of_lookup_2 in He. unfold examples, batch_examples in He.
    apply elem_of_take in He as (j & He & _). rewrite lookup_drop in He.
    by eapply list_elem_of_lookup_2. }
  assert (Forall2 (kept_or_unk env) (base_tokens (base e)) words) as Hkept.
  { destruct (b_is_eval self); [|done]. subst words.
    apply Forall2_same_length_lookup_2; [done|].
    intros j a b Ha Hb'. rewrite Ha in Hb'. injection Hb' as <-. by left. }
  assert (Forall (fun w => w <> 0) words) as Hwz.
  { apply Forall_lookup. intros j w Hj.
    destruct (Forall2_lookup_r _ _ _ _ _ Hkept Hj) as (t & Ht & [->| ->]); [|done].
    rewrite Forall_lookup in Hte. by eapply Hte. }
  rewrite Hmasks.
  change (map (map (fun w => w =? 0)) (rb_words r0))
    with (map (fun w => w =? 0) <$> rb_words r0).
  rewrite list_lookup_fmap, Hw. simpl.
  rewrite (mask_of_padded_row env _ words Hpad Hwz).
  by rewrite (Forall2_length _ _ _ Hkept).
Qed.

End ready_created.

(** A Batcher in evaluation mode. *)
Definition example_batcher : batcher :=
  Batcher Full (DerivedMaps [] [] [] [] [] 2) 2 true example_config [] 3 [] None.

Lemma example_enriched_batches :
  exists batches batch,
    create_batches example_enriched 2 = Ok batches /\ batches !! 0%nat = Some batch.
Proof. eexists _, _. split; reflexivity. Qed.

Lemma ready_data_batch_rows_witness :
  exists batches batch r g',
    create_batches example_enriched 2 = Ok batches /\
    batches !! 0%nat = Some batch /\
    ready_data_batch example_env example_batcher 0%nat batch = Ok (r, g') /\
    (b_is_eval example_batcher = true -> g' = 0%nat) /\
    rb_sentence_lengths r
    = map (fun e => Py.len (base_tokens (base e)))
          (batch_examples example_enriched 2 0) /\
    Permutation (rb_orig_idx r)
                (Py.range 0 (Py.len (batch_examples example_enriched 2 0))) /\
    lengths_descending (rb_sentence_lengths r) (rb_orig_idx r).
Proof.
  destruct example_enriched_batches as (batches & batch & Hc & Hk).
  destruct (ready_data_batch_rows example_env example_batcher 0%nat
              example_enriched 2 batches 0 batch ltac:(lia)
              example_enriched_batchable Hc Hk)
    as (r & g' & H1 & H2 & H3 & H4 & H5 & _).
  by exists batches, batch, r, g'.
Defined.

Lemma ready_data_batch_triples_aligned_witness :
  exists batches batch r g' ss rs os,
    create_batches example_enriched 2 = Ok batches /\
    batches !! 0%nat = Some batch /\
    ready_data_batch example_env example_batcher 0%nat batch = Ok (r, g') /\
    rb_supplemental r = [("triple", [Tensor1 ss; Tensor1 rs; Tensor1 os])].
Proof.
  destruct example_enriched_batches as (batches & batch & Hc & Hk).
  destruct (ready_data_batch_triples_aligned example_env example_batcher 0%nat
              example_enriched 2 batches 0 batch ltac:(lia)
              example_enriched_batchable Hc Hk)
    as (r & g' & ss & rs & os & H1 & H2 & _).
  by exists batches, batch, r, g', ss, rs, os.
Defined.

Lemma ready_data_batch_masks_witness :
  exists batches batch r g',
    create_batches example_enriched 2 = Ok batches /\
    batches !! 1%nat = Some batch /\
    ready_data_batch example_env example_batcher 0%nat batch = Ok (r, g') /\
    forall i o, rb_orig_idx r !! i = Some o ->
      exists e,
        batch_examples example_enriched 2 1 !! Z.to_nat o = Some e /\
        rb_masks r !! i
        = Some (replicate (length (base_tokens (base e))) false ++
                replicate (longest (map (fun e => base_tokens (base e))
                                        (batch_examples example_enriched 2 1))
                           - length (base_tokens (base e))) true).
Proof.
  assert (exists batches batch,
            create_batches example_enriched 2 = Ok batches /\
            batches !! 1%nat = Some batch) as (batches & batch & Hc & Hk).
  { eexists _, _. split; reflexivity. }
  destruct (ready_data_batch_masks example_env example_batcher 0%nat
              example_enriched 2 batches 1 batch ltac:(lia)
              example_enriched_batchable Hc Hk)
    as (r & g' & H1 & H2).
  - reflexivity.
  - done.
  - repeat constructor; done.
  - by exists batches, batch, r, g'.
Defined.

(** ** The quotas of stratified sampling *)






Section quota_total.
Context {G : Type} `{Rng G}.


End quota_total.


Lemma positions_from_sorted (start r : Z) (relations : list Z) :
  StronglySorted Z.lt (positions_from start r relations).
Proof.
  revert start. induction relations as [|x relations IH]; intros start; simpl.
  - constructor.
  - case_decide; simpl; [|apply IH]. constructor; [apply IH|].
    apply Forall_forall. intros i Hi%positions_from_spec. lia.
Qed.

(** X15. [group_by_class] has one key for every relation that occurs in
    the data and no other; under a relation it lists the positions of the
    examples of that relation, all of them and no other position, each
    once and in ascending order. *)
Theorem group_by_class_positions (relations : list Z) :
  NoDup (dict_keys (group_by_class relations)) /\
  (forall r, is_Some (dict_get r (group_by_class relations)) <-> r ∈ relations) /\
  (forall r indices, dict_get r (group_by_class relations) = Some indices ->
     indices <> [] /\ StronglySorted Z.lt indices /\
     forall i, i ∈ indices <-> 0 <= i /\ relations !! Z.to_nat i = Some r).
Proof.
  destruct (group_by_class_spec relations) as (Hnd & Hpos & Hkeys).
  split; [done|]. split; [done|].
  intros r indices Hget. specialize (Hpos r). rewrite Hget in Hpos. simpl in Hpos.
  subst indices.
  assert (r ∈ relations) as [i Hi]%list_elem_of_lookup_1.
  { apply Hkeys. by rewrite Hget. }
  split; [|split].
  - intros Hnil.
    assert (Z.of_nat i ∈ positions_from 0 r relations) as Hin.
    { apply positions_from_spec. split; [lia|].
      by rewrite Z.sub_0_r, Nat2Z.id. }
    rewrite Hnil in Hin. by apply elem_of_nil in Hin.
  - apply positions_from_sorted.
  - intros j. rewrite positions_from_spec. by rewrite Z.sub_0_r.
Qed.

(** ** Iterators over a name that is not a partition *)

Lemma create_batches_nil (batch_size : Z) :
  batch_size <> 0 -> create_batches [] batch_size = Ok [].
Proof.
  intros Hbs. unfold create_batches, Py.range_step.
  destruct (batch_size =? 0) eqn:E0; [lia|].
  change (Py.len (@nil sample)) with 0.
  destruct (0 <? batch_size) eqn:E1.
  - replace ((0 - 0 + batch_size - 1) / batch_size) with 0
      by (symmetry; apply Z.div_small; lia).
    reflexivity.
  - replace ((0 - 0 - batch_size - 1) / - batch_size) with 0
      by (symmetry; apply Z.div_small; lia).
    reflexivity.
Qed.

Lemma load_list_alloc (h : heap) (items : list loc) :
  load_list (h ++ [OList items]) (length h) = Ok items.
Proof.
  unfold load_list. rewrite lookup_app_r by lia. by rewrite Nat.sub_diag.
Qed.

Section unknown_partition.
Context {G : Type} `{Rng G}.

Lemma np_random_shuffle_nil {A} (g : G) :
  (np_random_shuffle g (@nil A)).1 = [].
Proof.
  unfold np_random_shuffle. simpl.
  pose proof (rng_permutation_perm g 0) as Hp. simpl in Hp.
  apply Permutation_nil_r in Hp. by rewrite Hp.
Qed.

Lemma perform_stratified_sampling_nil {A} (g : G) (sample_size : Z)
    (rel2id : odict string Z) :
  0 <= sample_size ->
  perform_stratified_sampling g sample_size rel2id [] (@nil A)
  = Raise (if decide (rel2id = []) then ZeroDivisionError
           else ValueError "need at least one array to concatenate").
Proof.
  intros Hs. unfold perform_stratified_sampling.
  destruct (decide (rel2id = [])) as [->|Hne]; [reflexivity|].
  destruct (distribute_sample_size_spec g sample_size rel2id Hs Hne)
    as (class2size & g' & bonus & -> & _).
  reflexivity.
Qed.

Lemma Batcher_init_nil (h : heap) (g : G) (cfg : config)
    (stage : curriculum_stage) (dm : derived_maps) (batch_size : Z)
    (is_eval : bool) :
  batch_size <> 0 ->
  exists g',
    Batcher_init (h ++ [OList []]) g (length h) cfg stage dm batch_size is_eval
    = Ok (h ++ [OList []],
          Batcher stage dm batch_size is_eval cfg [] 0 [] None, g') /\
    (is_eval = true -> g' = g).
Proof.
  intros Hbs. unfold Batcher_init. rewrite load_list_alloc, bind_Ok.
  assert (store (h ++ [OList []]) (length h) (OList []) = Ok (h ++ [OList []]))
    as Hstore.
  { unfold store. rewrite decide_True by (rewrite length_app; simpl; lia).
    f_equal. apply list_insert_id. rewrite lookup_app_r by lia.
    by rewrite Nat.sub_diag. }
  assert (read_samples (h ++ [OList []]) (length h) = Ok []) as Hread.
  { unfold read_samples. by rewrite load_list_alloc. }
  destruct is_eval; cbn [negb].
  - exists g. rewrite bind_Ok, Hread, bind_Ok. cbn [mapM_result].
    rewrite bind_Ok, create_batches_nil by done. done.
  - exists (np_random_shuffle g (@nil loc)).2.
    rewrite np_random_shuffle_nil, Hstore, !bind_Ok, Hread, bind_Ok.
    cbn [mapM_result]. rewrite bind_Ok, create_batches_nil by done. done.
Qed.

(** X16. [self.partitions] is a [defaultdict]: [create_iterator] on a
    name that is not a partition makes an empty partition of that name.
    With a sample size set, the call then fails in the sampling
    ([ZeroDivisionError] when no relation is known, otherwise the
    [ValueError] of concatenating no arrays). Without a sample size, for
    a supported stage, it returns a Batcher without examples and without
    batches, and the name stays registered as an empty partition. *)
Theorem create_iterator_unknown_partition (cfg : config) (st : processor)
    (partitions : odict string loc) (h : heap) (g : G) (config : config)
    (partition_name stage_name : string) :
  dict_get partition_name partitions = None ->
  (forall sample_size,
     cfg_sample_size cfg = Some sample_size -> 0 <= sample_size ->
     create_iterator cfg st partitions h g config partition_name stage_name
     = Raise (if decide (rel2id st = []) then ZeroDivisionError
              else ValueError "need at least one array to concatenate")) /\
  (forall stage dm,
     cfg_sample_size cfg = None -> parse_stage stage_name = Ok stage ->
     derived st = Some dm -> cfg_batch_size cfg <> 0 ->
     exists h' partitions' b g' l,
       create_iterator cfg st partitions h g config partition_name stage_name
       = Ok (h', partitions', b, g') /\
       b_batches b = [] /\ b_num_examples b = 0 /\ b_labels b = [] /\
       dict_get partition_name partitions' = Some l /\
       load_list h' l = Ok [] /\
       kept h h').
Proof.
  intros Hnone. split.
  - intros sample_size Hsz Hs. unfold create_iterator. rewrite Hnone. unfold alloc.
    rewrite load_list_alloc, bind_Ok, Hsz. cbn [mapM_result].
    rewrite bind_Ok, perform_stratified_sampling_nil by done. reflexivity.
  - intros stage dm Hsz Hstage Hdm Hbs. unfold create_iterator.
    rewrite Hnone. unfold alloc.
    rewrite load_list_alloc, bind_Ok, Hsz, bind_Ok, Hstage, bind_Ok, Hdm, bind_Ok.
    cbn [foldM]. rewrite bind_Ok.
    destruct (Batcher_init_nil (h ++ [OList []]) g cfg stage dm (cfg_batch_size cfg)
                (bool_decide (partition_name <> "train")) Hbs) as (g' & -> & _).
    rewrite bind_Ok. eexists _, _, _, g', (length h).
    split; [reflexivity|]. cbn [b_batches b_num_examples b_labels].
    split; [done|]. split; [done|]. split; [done|].
    split; [apply dict_get_set_eq|].
    split.
    + unfold load_list. rewrite <- app_assoc, lookup_app_r by lia.
      by rewrite Nat.sub_diag.
    + unfold kept. rewrite <- app_assoc. by rewrite take_app_length.
Qed.

End unknown_partition.

Lemma create_iterator_unknown_partition_witness :
  create_iterator (Config true false true (Some 4) 2 0%Qc) initial_processor
                  [] [] 0%nat example_config "dev" "full"
  = Raise ZeroDivisionError /\
  exists h' partitions' b g' l,
    create_iterator example_config
      (set_derived initial_processor (DerivedMaps [] [] [] [] [] 0))
      [] [] 0%nat example_config "dev" "full"
    = Ok (h', partitions', b, g') /\
    b_batches b = [] /\ b_num_examples b = 0 /\ b_labels b = [] /\
    dict_get "dev" partitions' = Some l /\
    load_list h' l = Ok [] /\
    kept [] h'.
Proof.
  split.
  - destruct (create_iterator_unknown_partition
                (Config true false true (Some 4) 2 0%Qc) initial_processor
                [] [] 0%nat example_config "dev" "full" eq_refl) as [Hraise _].
    exact (Hraise 4 eq_refl ltac:(lia)).
  - destruct (create_iterator_unknown_partition example_config
                (set_derived initial_processor (DerivedMaps [] [] [] [] [] 0))
                [] [] 0%nat example_config "dev" "full" eq_refl) as [_ Hempty].
    apply (Hempty Full (DerivedMaps [] [] [] [] [] 0)); [reflexivity..|].
    simpl. lia.
Defined.

(** ** The list a Batcher is built from *)

Lemma omap_lookup_seq {A} (pre l : list A) :
  omap (fun i => (pre ++ l) !! i) (seq (length pre) (length l)) = l.
Proof.
  revert pre. induction l as [|x l IH]; intros pre; [done|].
  cbn [length seq omap list_omap]. rewrite list_lookup_middle by done. f_equal.
  specialize (IH (pre ++ [x])). rewrite length_app, <- app_assoc in IH.
  simpl in IH. by rewrite Nat.add_1_r in IH.
Qed.

Section in_place.
Context {G : Type} `{Rng G}.

Lemma np_random_shuffle_perm {A} (g : G) (l : list A) :
  Permutation (np_random_shuffle g l).1 l.
Proof.
  unfold np_random_shuffle. simpl.
  rewrite (rng_permutation_perm g (length l)).
  by rewrite (omap_lookup_seq [] l
                : omap (fun i => l !! i) (seq 0 (length l)) = l).
Qed.

(** X17. [Batcher.__init__] shuffles the list it is given in place: in
    training mode the caller's list object holds, after the call, the same
    samples in a permuted order; in evaluation mode the store and the
    random generator are left as they were. No other object of the store
    is touched, and the Batcher counts one example and has one label for
    each sample of the list. *)
Theorem Batcher_init_shuffles_in_place (h h' : heap) (g g' : G) (dataset : loc)
    (cfg : config) (stage : curriculum_stage) (dm : derived_maps)
    (batch_size : Z) (is_eval : bool) (b : batcher) (items : list loc) :
  load_list h dataset = Ok items ->
  Batcher_init h g dataset cfg stage dm batch_size is_eval = Ok (h', b, g') ->
  exists items',
    load_list h' dataset = Ok items' /\
    Permutation items' items /\
    (is_eval = true -> h' = h /\ g' = g) /\
    (forall l, l <> dataset -> h' !! l = h !! l) /\
    b_num_examples b = Py.len items /\
    Py.len (b_labels b) = Py.len items.
Proof.
  intros Hload Hinit. unfold Batcher_init in Hinit.
  rewrite Hload, bind_Ok in Hinit.
  apply result_bind_Ok in Hinit as ([h1 g1] & Hshuffle & Hinit).
  apply result_bind_Ok in Hinit as (samples & Hread & Hinit).
  apply result_bind_Ok in Hinit as (labels & Hlabels & Hinit).
  apply result_bind_Ok in Hinit as (batches & Hbatches & Hinit).
  injection Hinit as <- <- <-.
  assert (exists items',
            load_list h1 dataset = Ok items' /\ Permutation items' items /\
            (is_eval = true -> h1 = h /\ g1 = g) /\
            (forall l, l <> dataset -> h1 !! l = h !! l))
    as (items' & Hload' & Hperm & Heval & Hframe).
  { destruct is_eval; cbn [negb] in Hshuffle.
    - injection Hshuffle as <- <-. by exists items.
    - apply result_bind_Ok in Hshuffle as (h2 & Hstore & [= <- <-]).
      unfold store in Hstore. case_decide as Hlt; [|done].
      injection Hstore as <-. exists (np_random_shuffle g items).1.
      split; [|split; [|split]].
      + unfold load_list. by rewrite list_lookup_insert_eq.
      + apply np_random_shuffle_perm.
      + done.
      + intros l Hl. by apply list_lookup_insert_ne. }
  exists items'. split; [done|]. split; [done|]. split; [done|]. split; [done|].
  cbn [b_num_examples b_labels].
  unfold read_samples in Hread. rewrite Hload', bind_Ok in Hread.
  apply mapM_result_Ok, Forall2_length in Hread.
  apply mapM_result_Ok, Forall2_length in Hlabels.
  apply Permutation_length in Hperm. unfold Py.len. lia.
Qed.

End in_place.

(** The enriched samples as a list object of the store, and the tables
    of stage ['full'] for the relations [per:title] and [no_relation]. *)
Definition example_list : heap * loc :=
  let '(h, items) := alloc_samples [] example_enriched in
  alloc h (OList items).

Definition example_full_tables : derived_maps :=
  DerivedMaps [(0, "per:title"); (1, "no_relation")] [] [] []
              [("per:title", {[0]}); ("no_relation", {[1]})] 2.

Lemma Batcher_init_shuffles_in_place_witness :
  exists h' b g' items',
    Batcher_init example_list.1 0%nat example_list.2 example_config Full
                 example_full_tables 2 false = Ok (h', b, g') /\
    load_list h' example_list.2 = Ok items' /\
    Permutation items' [2; 5; 8]%nat /\
    b_num_examples b = 3 /\
    Py.len (b_labels b) = 3.
Proof.
  assert (exists x,
            Batcher_init example_list.1 0%nat example_list.2 example_config Full
                         example_full_tables 2 false = Ok x)
    as [[[h' b] g'] E].
  { vm_compute. eexists. reflexivity. }
  destruct (Batcher_init_shuffles_in_place example_list.1 h' 0%nat g'
              example_list.2 example_config Full example_full_tables 2 false b
              [2; 5; 8]%nat eq_refl E)
    as (items' & H1 & H2 & _ & _ & H3 & H4).
  by exists h', b, g', items'.
Defined.

(** ** The activated relations of a sample *)

Lemma set_index_in_range {A} (l : list A) (i : Z) (x : A) :
  0 <= i < Py.len l -> Py.set_index l i x = Ok (<[Z.to_nat i := x]> l).
Proof.
  intros Hi. unfold Py.set_index.
  destruct (i <? 0) eqn:E; [lia|].
  destruct ((i <? 0) || (Py.len l <=? i)) eqn:E'; [|done].
  apply orb_true_iff in E' as [?|?]; lia.
Qed.

Lemma foldM_set_index (ids : list Z) (v0 : list Z) :
  Forall (fun i => 0 <= i < Py.len v0) ids ->
  exists v,
    foldM (fun i acc => Py.set_index acc i 1) ids v0 = Ok v /\
    length v = length v0 /\
    forall k : nat, v !! k = if decide (Z.of_nat k ∈ ids) then Some 1 else v0 !! k.
Proof.
  revert v0. induction ids as [|i ids IH]; intros v0 Hall.
  - exists v0. split; [done|]. split; [done|]. intros k.
    rewrite decide_False; [done | apply not_elem_of_nil].
  - apply Forall_cons in Hall as [Hi Hall]. cbn [foldM].
    rewrite set_index_in_range, bind_Ok by done.
    destruct (IH (<[Z.to_nat i := 1]> v0)) as (v & Hv & Hlen & Hlook).
    { unfold Py.len in *. by rewrite length_insert. }
    exists v. split; [done|]. rewrite length_insert in Hlen. split; [done|].
    intros k. rewrite Hlook. unfold Py.len in Hi.
    destruct (decide (Z.of_nat k = i)) as [<-|Hne].
    + rewrite Nat2Z.id, list_lookup_insert_eq by lia.
      rewrite (decide_True (P := _ ∈ _ :: _)) by apply list_elem_of_here.
      by case_decide.
    + rewrite list_lookup_insert_ne by lia.
      destruct (decide (Z.of_nat k ∈ ids)) as [Hin|Hnin].
      * rewrite decide_True; [done | by apply list_elem_of_further].
      * rewrite decide_False; [done|]. rewrite not_elem_of_cons. done.
Qed.

Lemma np_unique_elem (x : Z) (l : list Z) : x ∈ np_unique l <-> x ∈ l.
Proof.
  unfold np_unique. rewrite merge_sort_Permutation. apply elem_of_remove_dups.
Qed.

Lemma activate_spec (n : Z) (ids : list Z) :
  0 <= n -> ids <> [] -> Forall (fun i => 0 <= i < n) ids ->
  exists v,
    activate n (np_unique ids) = Ok v /\
    Py.len v = n /\
    forall i, 0 <= i < n ->
      v !! Z.to_nat i = Some (if decide (i ∈ ids) then 1 else 0).
Proof.
  intros Hn Hne Hall. unfold activate, np_zeros.
  destruct (n <? 0) eqn:E; [lia|]. rewrite bind_Ok.
  assert (Py.len (Py.repeat 0 n) = n) as Hlen0.
  { unfold Py.len, Py.repeat. rewrite length_replicate. lia. }
  destruct (foldM_set_index (np_unique ids) (Py.repeat 0 n))
    as (v & Hv & Hlen & Hlook).
  { rewrite Hlen0. apply Forall_forall. intros i Hi.
    apply (proj1 (np_unique_elem i ids)) in Hi.
    rewrite Forall_forall in Hall. exact (Hall i Hi). }
  exists v. split.
  - destruct (np_unique ids) as [|i0 rest] eqn:Eu; [|done].
    destruct ids as [|i ids]; [done|].
    assert (i ∈ np_unique (i :: ids)) as Hin
      by apply np_unique_elem, list_elem_of_here.
    rewrite Eu in Hin. by apply elem_of_nil in Hin.
  - split; [unfold Py.len in *; lia|].
    intros i Hi. rewrite Hlook, Z2Nat.id by lia.
    destruct (decide (i ∈ np_unique ids)) as [Hin|Hnin].
    + rewrite decide_True; [done | by apply np_unique_elem].
    + rewrite decide_False; [| by rewrite <- np_unique_elem].
      unfold Py.repeat. apply lookup_replicate_2. lia.
Qed.

Lemma if_decide_iff {A} (P Q : Prop) `{Decision P} `{Decision Q} (a b : A) :
  (P <-> Q) -> (if decide P then a else b) = (if decide Q then a else b).
Proof. intros HPQ. destruct (decide P), (decide Q); tauto. Qed.

(** The label of a relation name at a curriculum stage that labels
    relation ids. *)
Definition stage_label (stage : curriculum_stage) (name : string) : string :=
  match stage with
  | Binary => binary_bucket name
  | SubjType => subj_bucket name
  | SubjObjType | Full => name
  end.

(** What [create_iterator] computes for a sample of relation id [r], on
    the tables that [curriculum_mappings] has made of [st1]. *)
Lemma stage_activation (cfg : config) (env : vocab_env) (st1 : processor)
    (dm : derived_maps) (stage : curriculum_stage) (name : string) (r s o : Z) :
  reachable cfg env st1 ->
  curriculum_mappings st1 = Ok dm ->
  stage <> SubjObjType ->
  dict_get name (rel2id st1) = Some r ->
  exists ids v,
    id2label_lookup stage dm (s, r, o) = Ok (stage_label stage name) /\
    matched_ids_of stage (set_derived st1 dm) dm (stage_label stage name) = Ok ids /\
    activate (num_rel dm) (np_unique ids) = Ok v /\
    Py.len v = num_rel dm /\
    forall name' r', dict_get name' (rel2id st1) = Some r' ->
      v !! Z.to_nat r'
      = Some (if decide (stage_label stage name' = stage_label stage name)
              then 1 else 0).
Proof.
  intros Hst1 Hdm Hstage Hname.
  destruct (reachable_wf _ _ _ Hst1) as (Hk & Hv & Hkb & Hks & Hb).
  pose proof (reachable_consistent _ _ _ Hst1) as (Hrange & Hinj & Hsubj).
  unfold curriculum_mappings in Hdm.
  apply result_bind_Ok in Hdm as (t2so & _ & [= <-]).
  assert (forall (ids : list Z) (label : string -> string),
            (forall r', r' ∈ ids <->
               exists n, dict_get n (rel2id st1) = Some r' /\ label n = label name) ->
            exists v,
              activate (Py.len (rel2id st1)) (np_unique ids) = Ok v /\
              Py.len v = Py.len (rel2id st1) /\
              forall name' r', dict_get name' (rel2id st1) = Some r' ->
                v !! Z.to_nat r'
                = Some (if decide (label name' = label name) then 1 else 0))
    as Hact.
  { intros ids label Hids.
    destruct (activate_spec (Py.len (rel2id st1)) ids) as (v & Hv' & Hlen & Hlook).
    - unfold Py.len. lia.
    - intros ->. assert (r ∈ @nil Z) as Hin by (apply Hids; by exists name).
      by apply elem_of_nil in Hin.
    - apply Forall_forall. intros r' (n & Hn & _)%Hids. by eapply Hrange.
    - exists v. split; [done|]. split; [done|].
      intros name' r' Hname'. rewrite Hlook by by eapply Hrange.
      f_equal. apply if_decide_iff. rewrite Hids. split.
      + intros (n & Hn & <-). by rewrite (Hinj n name' r' Hn Hname').
      + intros Hl. by exists name'. }
  cbn [num_rel].
  destruct stage; [| |done|].
  - (* binary *)
    destruct (Hact (elements (dd_get (binary_bucket name) (binary_rel2rels st1)))
                   binary_bucket) as (v & Hv1 & Hv2 & Hv3).
    { intros r'. by rewrite elem_of_elements, Hb. }
    eexists _, v. split; [|done].
    unfold id2label_lookup. cbn [rel2binary_rel fst snd].
    apply dict_getitem_Ok, reverse_set_maps_disjoint; [done| |].
    + intros b' (n & Hn & <-)%Hb. by rewrite (Hinj n name r Hn Hname).
    + apply Hb. by exists name.
  - (* subj_type *)
    destruct (Hact (elements (dd_get (subj_bucket name) (subj2rels st1)))
                   subj_bucket) as (v & Hv1 & Hv2 & Hv3).
    { intros r'. by rewrite elem_of_elements, Hsubj. }
    eexists _, v. split; [|done].
    unfold id2label_lookup. cbn [rel2subj fst snd].
    apply dict_getitem_Ok, reverse_set_maps_disjoint; [done| |].
    + intros b' (n & Hn & <-)%Hsubj. by rewrite (Hinj n name r Hn Hname).
    + apply Hsubj. by exists name.
  - (* full *)
    destruct (Hact [r] (fun n => n)) as (v & Hv1 & Hv2 & Hv3).
    { intros r'. rewrite list_elem_of_singleton. split.
      - intros ->. by exists name.
      - intros (n & Hn & ->). congruence. }
    exists [r], v. split; [|split; [|done]].
    + unfold id2label_lookup. cbn [id2rel fst snd].
      apply dict_getitem_Ok, dict_of_list_get.
      * rewrite <- list_fmap_compose.
        assert ((fst ∘ (fun kv : string * Z => (kv.2, kv.1))) <$> rel2id st1
                = dict_values (rel2id st1)) as ->.
        { unfold dict_values. by apply list_fmap_ext. }
        rewrite Hv. apply range_NoDup.
      * apply list_elem_of_fmap. exists (name, r). split; [done|].
        by apply dict_get_Some_elem.
    + unfold matched_ids_of, stage_label. cbn [rel2ids].
      assert (dict_get name
                (dict_of_list (map (fun kv : string * Z => (kv.1, {[kv.2]}))
                                   (rel2id st1))) = Some ({[r]} : gset Z)) as Hget.
      { apply dict_of_list_get.
        - rewrite <- list_fmap_compose.
          assert ((fst ∘ (fun kv : string * Z => (kv.1, ({[kv.2]} : gset Z))))
                    <$> rel2id st1 = dict_keys (rel2id st1)) as ->.
          { unfold dict_keys. by apply list_fmap_ext. }
          done.
        - apply list_elem_of_fmap. exists (name, r). split; [done|].
          by apply dict_get_Some_elem. }
      unfold dict_getitem. rewrite Hget. simpl. by rewrite elements_singleton.
Qed.


(** X18. After [parse_data], at each of the stages ['binary'],
    ['subj_type'] and ['full'], what [create_iterator] computes for a
    sample of relation id [r] is: the label of the relation's name at
    that stage, the ids under that label, and as [activated_relations] a
    vector of [num_rel] entries that is 1 exactly at the ids of the
    relations with the same label (at ['full']: at [r] alone) and 0
    elsewhere. *)
Theorem activated_relations_by_stage (cfg : config) (env : vocab_env)
    (data : list raw_record) (st st' : processor) (parsed : list sample)
    (stage : curriculum_stage) (name : string) (r s o : Z) :
  reachable cfg env st ->
  parse_data cfg env data st = Ok (st', parsed) ->
  stage <> SubjObjType ->
  dict_get name (rel2id st') = Some r ->
  exists dm ids v,
    derived st' = Some dm /\
    id2label_lookup stage dm (s, r, o) = Ok (stage_label stage name) /\
    matched_ids_of stage st' dm (stage_label stage name) = Ok ids /\
    activate (num_rel dm) (np_unique ids) = Ok v /\
    Py.len v = num_rel dm /\
    forall name' r', dict_get name' (rel2id st') = Some r' ->
      v !! Z.to_nat r'
      = Some (if decide (stage_label stage name' = stage_label stage name)
              then 1 else 0).
Proof.
  intros Hst (st1 & dm & Hp & Hdm & ->)%parse_data_Ok Hstage Hname.
  assert (reachable cfg env st1) as Hst1 by by eapply parse_records_reachable.
  destruct (stage_activation cfg env st1 dm stage name r s o Hst1 Hdm Hstage Hname)
    as (ids & v & H1 & H2 & H3 & H4 & H5).
  exists dm, ids, v. by repeat split.
Qed.

Lemma activated_relations_by_stage_witness :
  exists st' parsed dm ids v,
    parse_data example_config example_env example_corpus initial_processor
      = Ok (st', parsed) /\
    dict_get "per:title" (rel2id st') = Some 1 /\
    derived st' = Some dm /\
    id2label_lookup Binary dm (2, 1, 3) = Ok "has_relation" /\
    matched_ids_of Binary st' dm "has_relation" = Ok ids /\
    activate (num_rel dm) (np_unique ids) = Ok v /\
    Py.len v = num_rel dm.
Proof.
  destruct (parse_data_succeeds example_config example_env example_corpus
              initial_processor example_corpus_well_formed)
    as (st' & parsed & E & _).
  assert (dict_get "per:title" (rel2id st') = Some 1) as Hid.
  { vm_compute in E. injection E as <- _. reflexivity. }
  destruct (activated_relations_by_stage example_config example_env
              example_corpus initial_processor st' parsed Binary "per:title"
              1 2 3 (reachable_init _ _) E ltac:(done) Hid)
    as (dm & ids & v & H1 & H2 & H3 & H4 & H5 & _).
  exists st', parsed, dm, ids, v.
  split; [exact E|]. split; [exact Hid|]. split; [exact H1|].
  split; [exact H2|]. split; [exact H3|]. split; [exact H4 | exact H5].
Defined.

(** ** The label tables across partitions *)

(** Whatever the tables of [st] hold, the tables of [st'] hold too. *)
Definition tables_grow (st st' : processor) : Prop :=
  (forall name id, dict_get name (rel2id st) = Some id ->
                   dict_get name (rel2id st') = Some id) /\
  (forall b r, r ∈ dd_get b (binary_rel2rels st) ->
               r ∈ dd_get b (binary_rel2rels st')) /\
  (forall b r, r ∈ dd_get b (subj2rels st) -> r ∈ dd_get b (subj2rels st')) /\
  (forall b t, t ∈ dd_get b (subj_obj2triples st) ->
               t ∈ dd_get b (subj_obj2triples st')) /\
  (forall pair r, r ∈ dd_get pair (graph st) -> r ∈ dd_get pair (graph st')).

Lemma tables_grow_refl (st : processor) : tables_grow st st.
Proof. by repeat split. Qed.

Lemma tables_grow_trans (st1 st2 st3 : processor) :
  tables_grow st1 st2 -> tables_grow st2 st3 -> tables_grow st1 st3.
Proof.
  intros (A1 & A2 & A3 & A4 & A5) (B1 & B2 & B3 & B4 & B5).
  split; [|split; [|split; [|split]]]; eauto.
Qed.

Lemma parse_record_grows cfg env (d : raw_record) (st st' : processor) (s : sample) :
  parse_record cfg env d st = Ok (st', s) -> tables_grow st st'.
Proof.
  intros Hd.
  destruct (parse_record_rel2id_grows _ _ _ _ _ _ Hd) as [Hrel _].
  apply parse_record_Ok in Hd
    as (tk & ss & se & os & oe & sty & oty & subject_id & object_id & sp & sn
        & sd & rl & relation_id & -> & Hs & Ho & Hr & -> & ->).
  split; [exact Hrel|]. unfold update_tables.
  cbn [binary_rel2rels subj2rels subj_obj2triples graph].
  split; [|split; [|split]].
  - intros b r Hin. case_decide; apply dd_get_add; by right.
  - intros b r Hin. apply dd_get_add. by right.
  - intros b t Hin. case_decide; apply dd_get_add; by right.
  - intros pair r Hin. destruct (cfg_relation_masking cfg); [|done].
    apply dd_get_add. by right.
Qed.

Lemma parse_records_length cfg env (data : list raw_record) (st st' : processor)
    (acc parsed : list sample) :
  parse_records cfg env data st acc = Ok (st', parsed) ->
  length parsed = (length acc + length data)%nat.
Proof.
  revert st acc. induction data as [|d data IH]; intros st acc Hp; simpl in Hp.
  - injection Hp as _ <-. simpl. lia.
  - apply result_bind_Ok in Hp as ([st1 s] & _ & Hp).
    apply IH in Hp. rewrite length_app in Hp. simpl in *. lia.
Qed.

Lemma parse_data_spec cfg env (data : list raw_record) (st st' : processor)
    (parsed : list sample) :
  parse_data cfg env data st = Ok (st', parsed) ->
  length parsed = length data /\ tables_grow st st'.
Proof.
  intros (st1 & dm & Hp & Hdm & ->)%parse_data_Ok. split.
  - by apply parse_records_length in Hp.
  - change (tables_grow st st1). revert Hp.
    apply (parse_records_invariant cfg env
             (fun st1 _ => tables_grow st st1)).
    + apply tables_grow_refl.
    + intros sta p1 d stb s IH _ Hd. eapply tables_grow_trans; [exact IH|].
      exact (parse_record_grows _ _ _ _ _ _ Hd).
Qed.

(** X19. [parse_data] only adds to the label tables: a relation name
    keeps the id it had before the call, and every bucket of the binary,
    subject-type and subject-object tables and every entry of the graph
    keeps its members. So the ids given while parsing one partition are
    the ids of those relations in every partition parsed later. *)
Theorem parse_data_keeps_relation_ids (cfg : config) (env : vocab_env)
    (data : list raw_record) (st st' : processor) (parsed : list sample) :
  parse_data cfg env data st = Ok (st', parsed) ->
  tables_grow st st'.
Proof. intros Hp. by apply parse_data_spec in Hp as [_ ?]. Qed.

Lemma parse_data_keeps_relation_ids_witness :
  exists st1 parsed1 st2 parsed2,
    parse_data example_config example_env example_corpus initial_processor
      = Ok (st1, parsed1) /\
    parse_data example_config example_env [record_org; record_per_title] st1
      = Ok (st2, parsed2) /\
    tables_grow st1 st2.
Proof.
  destruct (parse_data_succeeds example_config example_env example_corpus
              initial_processor example_corpus_well_formed)
    as (st1 & parsed1 & E1 & _).
  destruct (parse_data_succeeds example_config example_env
              [record_org; record_per_title] st1)
    as (st2 & parsed2 & E2 & _).
  { apply Forall_cons. split.
    - apply example_record_well_formed.
      do 3 apply list_elem_of_further. apply list_elem_of_here.
    - apply Forall_cons. split; [|by apply Forall_nil].
      apply example_record_well_formed.
      apply list_elem_of_further, list_elem_of_here. }
  exists st1, parsed1, st2, parsed2. split; [exact E1|]. split; [exact E2|].
  exact (parse_data_keeps_relation_ids _ _ _ _ _ _ E2).
Defined.

(** X20. When [preprocess_data] returns, every partition name had a file,
    and [partitions] holds under that name one sample for each record of
    the file; the entries under other names are as they were, and the
    label tables have only grown. *)
Theorem preprocess_data_partitions (cfg : config) (env : vocab_env)
    (files : odict string (list raw_record)) (partition_names : list string)
    (st st' : processor) (partitions partitions' : odict string (list sample)) :
  preprocess_data cfg env files partition_names st partitions
    = Ok (st', partitions') ->
  (forall name, name ∈ partition_names ->
     exists records parsed,
       dict_get name files = Some records /\
       dict_get name partitions' = Some parsed /\
       length parsed = length records) /\
  (forall name, name ∉ partition_names ->
     dict_get name partitions' = dict_get name partitions) /\
  tables_grow st st'.
Proof.
  revert st partitions.
  induction partition_names as [|name names IH]; intros st partitions Hp;
    simpl in Hp.
  - injection Hp as <- <-. split; [|split].
    + intros name Hin. by apply elem_of_nil in Hin.
    + done.
    + apply tables_grow_refl.
  - apply result_bind_Ok in Hp as (records & Hfile & Hp).
    apply result_bind_Ok in Hp as ([st1 parsed1] & Hparse & Hp).
    destruct (dict_get name files) as [records'|] eqn:Ef; [|done].
    injection Hfile as ->.
    destruct (parse_data_spec _ _ _ _ _ _ Hparse) as [Hlen Hgrow].
    destruct (IH _ _ Hp) as (Hin & Hout & Hgrow').
    split; [|split].
    + intros n Hn. destruct (decide (n ∈ names)) as [Hn'|Hn']; [by apply Hin|].
      apply elem_of_cons in Hn as [->|Hn]; [|done].
      exists records, parsed1. split; [done|]. split; [|done].
      rewrite (Hout name Hn'). apply dict_get_set_eq.
    + intros n Hn. apply not_elem_of_cons in Hn as [Hne Hn].
      rewrite (Hout n Hn). by apply dict_get_set_ne.
    + by eapply tables_grow_trans.
Qed.

Lemma preprocess_data_partitions_witness :
  exists st' partitions' parsed,
    preprocess_data example_config example_env
      [("train", example_corpus); ("dev", [record_org])] ["train"; "dev"]
      initial_processor [] = Ok (st', partitions') /\
    dict_get "dev" partitions' = Some parsed /\
    length parsed = 1%nat.
Proof.
  assert (exists x,
            preprocess_data example_config example_env
              [("train", example_corpus); ("dev", [record_org])] ["train"; "dev"]
              initial_processor [] = Ok x) as [[st' partitions'] E].
  { vm_compute. eexists. reflexivity. }
  destruct (preprocess_data_partitions _ _ _ _ _ _ _ _ E) as (Hin & _ & _).
  destruct (Hin "dev") as (records & parsed & Hf & Hp & Hl).
  { apply list_elem_of_further, list_elem_of_here. }
  injection Hf as <-. exists st', partitions', parsed.
  split; [exact E|]. split; [exact Hp | exact Hl].
Defined.

(** ** Relation masks on a Batcher *)

(** X21. [ready_relation_masks_batch] reads the attribute [rel2id] of the
    Batcher, which [Batcher.__init__] does not assign: on every Batcher
    that [__init__] builds, and on every mask batch, it raises
    [AttributeError]. *)
Theorem ready_relation_masks_batch_raises {G : Type} `{Rng G}
    (h h' : heap) (g g' : G) (dataset : loc) (cfg : config)
    (stage : curriculum_stage) (dm : derived_maps) (batch_size : Z)
    (is_eval : bool) (self : batcher)
    (mask_batch : list (list pyval)) (sentence_lengths : list Z) :
  Batcher_init h g dataset cfg stage dm batch_size is_eval = Ok (h', self, g') ->
  ready_relation_masks_batch self mask_batch sentence_lengths
  = Raise (AttributeError "rel2id").
Proof.
  intros Hinit%Batcher_init_rel2id.
  unfold ready_relation_masks_batch, get_rel2id. by rewrite Hinit.
Qed.

Lemma ready_relation_masks_batch_raises_witness :
  exists h' self g',
    Batcher_init example_list.1 0%nat example_list.2 example_config Full
                 example_full_tables 2 true = Ok (h', self, g') /\
    ready_relation_masks_batch self [[PSet {[0]}]; [PSet {[1]}]; [PSet {[0]}]]
                               [4; 3; 5]
    = Raise (AttributeError "rel2id").
Proof.
  assert (exists x,
            Batcher_init example_list.1 0%nat example_list.2 example_config Full
                         example_full_tables 2 true = Ok x)
    as [[[h' self] g'] E].
  { vm_compute. eexists. reflexivity. }
  exists h', self, g'. split; [exact E|].
  exact (ready_relation_masks_batch_raises _ _ _ _ _ _ _ _ _ _ _ _ _ E).
Defined.

(** ** Reading a flag (train.py) *)

(** [str2bool]: [('true')] is the string ['true'], not a tuple, so [in]
    is the substring test. [lower] is [str.lower]. *)
Definition str2bool (lower : string -> string) (v : string) : bool :=
  Py.str_in (lower v) "true".

(** The prefixes and the substrings of a string. *)
Fixpoint prefixes (t : string) : list string :=
  "" :: match t with
        | EmptyString => []
        | String c t' => map (String c) (prefixes t')
        end.

Fixpoint substrings (t : string) : list string :=
  prefixes t ++ match t with
                | EmptyString => []
                | String _ t' => substrings t'
                end.

Lemma prefix_prefixes (s t : string) :
  String.prefix s t = true <-> s ∈ prefixes t.
Proof.
  revert s. induction t as [|c t IH]; intros s.
  - destruct s as [|a s]; simpl.
    + split; [intros _; apply list_elem_of_here | done].
    + split; [done|]. intros Hin. apply list_elem_of_singleton in Hin. done.
  - destruct s as [|a s]; cbn [String.prefix prefixes].
    + split; [intros _; apply list_elem_of_here | done].
    + rewrite elem_of_cons, list_elem_of_fmap.
      destruct (ascii_dec a c) as [->|Hne].
      * rewrite IH. split.
        -- intros Hin. right. by exists s.
        -- intros [?|(s' & [= ->] & Hin)]; done.
      * split; [done|]. intros [?|(s' & [= -> ->] & _)]; done.
Qed.

Lemma str_in_substrings (s t : string) :
  Py.str_in s t = true <-> s ∈ substrings t.
Proof.
  induction t as [|c t IH]; cbn [Py.str_in substrings].
  - rewrite orb_false_r, app_nil_r. apply prefix_prefixes.
  - rewrite orb_true_iff, elem_of_app, IH. by rewrite prefix_prefixes.
Qed.

(** X22. [str2bool] is true of exactly the strings whose lower-case form
    is a substring of ['true']: the empty string and ['t'], ['ru'],
    ['e'] and the like count as true, beside ['true'] itself; every other
    string (['false'], ['yes'], ['1']) is false. *)
Theorem str2bool_substrings_of_true (lower : string -> string) (v : string) :
  str2bool lower v = true <->
  lower v ∈ [""; "t"; "r"; "u"; "e"; "tr"; "ru"; "ue"; "tru"; "rue"; "true"].
Proof.
  unfold str2bool. rewrite str_in_substrings.
  generalize (lower v). intros s. cbn [substrings prefixes map app].
  split; intros Hin;
    repeat (apply elem_of_cons in Hin as [->|Hin]);
    try (by apply elem_of_nil in Hin);
    repeat (apply list_elem_of_here || apply list_elem_of_further).
Qed.

(** ** Iterating over a Batcher *)

(** [Batcher.__len__] *)
Definition Batcher_len (self : batcher) : Z := Py.len (b_batches self).

Section iteration.
Context {G : Type} `{Rng G}.
Variable env : vocab_env.

(** [Batcher.__iter__], run to its end: the batches it yields, or the
    exception of the first [__getitem__] that raises. *)
Fixpoint Batcher_iter_from (self : batcher) (g : G) (items : list Z)
  : result (list readied_batch * G) :=
  match items with
  | [] => Ok ([], g)
  | i :: items' =>
      '(batch, g) ← Batcher_getitem env self g i;
      '(batches, g) ← Batcher_iter_from self g items';
      Ok (batch :: batches, g)
  end.

Definition Batcher_iter (self : batcher) (g : G) : result (list readied_batch * G) :=
  Batcher_iter_from self g (Py.range 0 (Batcher_len self)).

Lemma Batcher_getitem_in_range (self : batcher) (g : G) (item : Z)
    (batch : data_batch) :
  0 <= item -> b_batches self !! Z.to_nat item = Some batch ->
  Batcher_getitem env self g item = ready_data_batch env self g batch.
Proof.
  intros H0 Hb. unfold Batcher_getitem.
  pose proof (lookup_lt_Some _ _ _ Hb) as Hlt.
  destruct ((item <? 0) || (Py.len (b_batches self) <=? item)) eqn:E.
  - apply orb_true_iff in E as [E|E]; unfold Py.len in *; lia.
  - by rewrite (proj2 (Py_index_Ok _ _ _ H0) Hb).
Qed.

Lemma Batcher_iter_from_eval (self : batcher) (g : G) (items : list Z) :
  Forall (fun i => exists r, Batcher_getitem env self g i = Ok (r, g)) items ->
  exists rs,
    Batcher_iter_from self g items = Ok (rs, g) /\
    Forall2 (fun i r => Batcher_getitem env self g i = Ok (r, g)) items rs.
Proof.
  induction 1 as [|i items [r Hr] _ (rs & Hrs & HF)].
  - by exists [].
  - exists (r :: rs). cbn [Batcher_iter_from]. rewrite Hr, bind_Ok, Hrs.
    split; [done|]. by constructor.
Qed.

(** X23. Iterating over a Batcher in evaluation mode whose batches
    [create_batches] has made yields [len(self)] readied batches, the
    [k]-th being what [__getitem__(k)] returns, and draws no random
    number. [__getitem__] raises [IndexError] for an index that is
    negative or not below [len(self)]: it does not count from the end as
    a list does. *)
Theorem Batcher_iter_eval (self : batcher) (g : G) (data : list sample)
    (batch_size : Z) :
  b_is_eval self = true -> 0 < batch_size -> batchable data ->
  create_batches data batch_size = Ok (b_batches self) ->
  exists rs,
    Batcher_iter self g = Ok (rs, g) /\
    Py.len rs = Batcher_len self /\
    (forall (k : nat) r, rs !! k = Some r ->
       Batcher_getitem env self g (Z.of_nat k) = Ok (r, g)) /\
    (forall item, item < 0 \/ Batcher_len self <= item ->
       Batcher_getitem env self g item = Raise IndexError).
Proof.
  intros Heval Hbs Hdata Hc.
  destruct (Batcher_iter_from_eval self g (Py.range 0 (Batcher_len self)))
    as (rs & Hrs & HF).
  { apply Forall_forall. intros i Hi. unfold Py.range in Hi.
    apply elem_of_seqZ in Hi. unfold Batcher_len, Py.len in Hi.
    destruct (lookup_lt_is_Some_2 (b_batches self) (Z.to_nat i)) as [batch Hb];
      [lia|].
    rewrite (Batcher_getitem_in_range self g i batch (proj1 Hi) Hb).
    destruct (created_batch data batch_size (b_batches self) (Z.to_nat i) batch
                Hbs Hdata Hc Hb) as (first & -> & Hne).
    destruct (ready_base_batch_rows env self g _ Hne)
      as (r0 & g' & sorted & Hb0 & Hs & Hlens & _ & _ & Hg & _).
    rewrite (Hg Heval) in Hb0.
    destruct (ready_data_batch_batch_of env self g g first _ r0 sorted
                Hne Hb0 Hs Hlens) as (ss & rs' & os & Hr & _).
    eexists. exact Hr. }
  exists rs. split; [exact Hrs|].
  pose proof (Forall2_length _ _ _ HF) as Hlen.
  unfold Py.range in Hlen. rewrite length_seqZ in Hlen.
  split; [unfold Batcher_len, Py.len in *; lia|]. split.
  - intros k r Hk.
    destruct (Forall2_lookup_r _ _ _ _ _ HF Hk) as (i & Hi & Hget).
    unfold Py.range in Hi. apply lookup_seqZ in Hi as [-> _].
    by rewrite Z.add_0_l in Hget.
  - intros item Hitem. unfold Batcher_getitem, Batcher_len in *.
    destruct ((item <? 0) || (Py.len (b_batches self) <=? item)) eqn:E; [done|].
    apply orb_false_iff in E as [E1 E2]. lia.
Qed.

End iteration.

Lemma Batcher_iter_eval_witness :
  exists self rs,
    create_batches example_enriched 2 = Ok (b_batches self) /\
    b_is_eval self = true /\
    Batcher_iter example_env self 0%nat = Ok (rs, 0%nat) /\
    Py.len rs = Batcher_len self.
Proof.
  assert (exists batches, create_batches example_enriched 2 = Ok batches)
    as [batches Hc].
  { eexists. reflexivity. }
  set (self := Batcher Full example_full_tables 2 true example_config [] 3
                       batches None).
  destruct (Batcher_iter_eval example_env self 0%nat example_enriched 2
              eq_refl ltac:(lia) example_enriched_batchable Hc)
    as (rs & H1 & H2 & _).
  exists self, rs. split; [exact Hc|]. split; [reflexivity|].
  split; [exact H1 | exact H2].
Defined.

(** ** Iterators over the partitions of the processor *)

(** What [parse_data] makes true of a sample, in the tables of [st]. *)
Definition well_parsed (cfg : config) (st : processor) (p : sample) : Prop :=
  supp_triple (supplemental p)
  = (base_subj_id (base p), base_relation (base p), base_obj_id (base p)) /\
  (exists name, dict_get name (rel2id st) = Some (base_relation (base p))) /\
  supp_relation_masking (supplemental p)
  = (if cfg_relation_masking cfg
     then Some (MaskTriple (supp_triple (supplemental p))) else None) /\
  (cfg_relation_masking cfg = true ->
   base_relation (base p)
   ∈ dd_get (base_subj_id (base p), base_obj_id (base p)) (graph st)) /\
  (exists bucket,
     supp_triple (supplemental p) ∈ dd_get bucket (subj_obj2triples st)).

Lemma well_parsed_grow (cfg : config) (st st' : processor) (p : sample) :
  tables_grow st st' -> well_parsed cfg st p -> well_parsed cfg st' p.
Proof.
  intros (Hrel & _ & _ & Htriples & Hgraph)
         (H1 & (name & Hname) & H3 & H4 & (bucket & H5)).
  split; [done|]. split; [by exists name; apply Hrel|]. split; [done|].
  split; [intros Hm; by apply Hgraph, H4|].
  exists bucket. by apply Htriples.
Qed.

Lemma parse_record_well_parsed cfg env (d : raw_record) (st st' : processor)
    (s : sample) :
  parse_record cfg env d st = Ok (st', s) -> well_parsed cfg st' s.
Proof.
  intros (tk & ss & se & os & oe & sty & oty & subject_id & object_id & sp & sn
          & sd & rl & relation_id & -> & Hs & Ho & Hr & -> & ->)%parse_record_Ok.
  unfold well_parsed, make_sample, update_tables.
  cbn [base supplemental supp_triple base_subj_id base_relation base_obj_id
       supp_relation_masking rel2id graph subj_obj2triples].
  split; [done|]. split; [by eexists|]. split; [done|].
  split; [intros ->; apply dd_get_add; by left|].
  case_decide; eexists; apply dd_get_add; by left.
Qed.

Lemma parse_data_well_parsed cfg env (data : list raw_record) (st st' : processor)
    (parsed : list sample) :
  parse_data cfg env data st = Ok (st', parsed) ->
  Forall (well_parsed cfg st') parsed.
Proof.
  intros (st1 & dm & Hp & Hdm & ->)%parse_data_Ok.
  change (Forall (well_parsed cfg st1) parsed). revert Hp.
  apply (parse_records_invariant cfg env
           (fun st1 parsed1 => Forall (well_parsed cfg st1) parsed1)); [done|].
  intros sta p1 d stb s IH _ Hd. apply Forall_app. split.
  - eapply Forall_impl; [exact IH|]. intros p.
    apply well_parsed_grow. exact (parse_record_grows _ _ _ _ _ _ Hd).
  - apply Forall_singleton. by eapply parse_record_well_parsed.
Qed.

Lemma preprocess_data_well_parsed cfg env
    (files : odict string (list raw_record)) (names : list string)
    (st st' : processor) (partitions partitions' : odict string (list sample)) :
  preprocess_data cfg env files names st partitions = Ok (st', partitions') ->
  (forall n ps, dict_get n partitions = Some ps -> Forall (well_parsed cfg st) ps) ->
  forall n ps, dict_get n partitions' = Some ps -> Forall (well_parsed cfg st') ps.
Proof.
  revert st partitions. induction names as [|name names IH];
    intros st partitions Hp Hwp; simpl in Hp.
  - by injection Hp as <- <-.
  - apply result_bind_Ok in Hp as (records & _ & Hp).
    apply result_bind_Ok in Hp as ([st1 parsed1] & Hparse & Hp).
    apply (IH _ _ Hp). intros n ps. rewrite dict_get_set.
    case_decide.
    + intros [= <-]. by eapply parse_data_well_parsed.
    + intros Hn. eapply Forall_impl; [by eapply Hwp|]. intros p.
      apply well_parsed_grow. by apply parse_data_spec in Hparse as [_ ?].
Qed.

Lemma preprocess_data_derived cfg env
    (files : odict string (list raw_record)) (names : list string)
    (st st' : processor) (partitions partitions' : odict string (list sample)) :
  preprocess_data cfg env files names st partitions = Ok (st', partitions') ->
  reachable cfg env st -> names <> [] ->
  exists st1 dm,
    st' = set_derived st1 dm /\ curriculum_mappings st1 = Ok dm /\
    reachable cfg env st1.
Proof.
  revert st partitions. induction names as [|name names IH];
    intros st partitions Hp Hst Hne; [done|]. simpl in Hp.
  apply result_bind_Ok in Hp as (records & _ & Hp).
  apply result_bind_Ok in Hp as ([stA parsedA] & Hparse & Hp).
  destruct names as [|name' names'].
  - simpl in Hp. injection Hp as <- _.
    apply parse_data_Ok in Hparse as (st1 & dm & Hrec & Hdm & ->).
    exists st1, dm. split; [done|]. split; [done|].
    by eapply parse_records_reachable.
  - apply (IH _ _ Hp); [|done]. by eapply parse_data_reachable.
Qed.

(** What the loop of [create_iterator] needs of a sample. *)
Definition enrichable (cfg : config) (st : processor) (dm : derived_maps)
    (stage : curriculum_stage) (p : sample) : Prop :=
  supp_triple (supplemental p)
  = (base_subj_id (base p), base_relation (base p), base_obj_id (base p)) /\
  (exists label ids v,
     id2label_lookup stage dm (supp_triple (supplemental p)) = Ok label /\
     matched_ids_of stage st dm label = Ok ids /\
     activate (num_rel dm) (np_unique ids) = Ok v) /\
  supp_relation_masking (supplemental p)
  = (if cfg_relation_masking cfg
     then Some (MaskTriple (supp_triple (supplemental p))) else None) /\
  (cfg_relation_masking cfg = true ->
   is_Some (dict_get (base_subj_id (base p), base_obj_id (base p)) (graph st))).

(** The buckets of [subj_obj2triples] hold triples of known relations. *)
Definition triples_wf (st : processor) : Prop :=
  NoDup (dict_keys (subj_obj2triples st)) /\
  forall bucket t, t ∈ dd_get bucket (subj_obj2triples st) ->
    exists name, dict_get name (rel2id st) = Some t.1.2.

Lemma reachable_triples_wf cfg env (st : processor) :
  reachable cfg env st -> triples_wf st.
Proof.
  induction 1 as [|d st st' s _ [Hnd IH] Hd|st dm _ IH _].
  - split; [constructor|]. intros bucket t Ht. by apply not_elem_of_empty in Ht.
  - destruct (parse_record_rel2id_grows _ _ _ _ _ _ Hd) as [Hgrow _].
    apply parse_record_Ok in Hd
      as (tk & ss & se & os & oe & sty & oty & subject_id & object_id & sp & sn
          & sd & rl & relation_id & -> & Hs & Ho & Hr & -> & ->).
    unfold triples_wf, update_tables. cbn [subj_obj2triples rel2id]. split.
    + case_decide; by apply dd_add_keys_NoDup.
    + intros bucket t Ht.
      assert (t = (subject_id, relation_id, object_id) \/
              exists b, t ∈ dd_get b (subj_obj2triples st)) as [->|[b Hb]].
      { case_decide; apply dd_get_add in Ht as [[_ ->]|Ht]; eauto. }
      * by eexists.
      * destruct (IH b t Hb) as (name & Hname). exists name. by apply Hgrow.
  - exact IH.
Qed.

Lemma well_parsed_enrichable cfg env (st1 : processor) (dm : derived_maps)
    (stage : curriculum_stage) (p : sample) :
  reachable cfg env st1 -> curriculum_mappings st1 = Ok dm ->
  well_parsed cfg (set_derived st1 dm) p ->
  enrichable cfg (set_derived st1 dm) dm stage p.
Proof.
  intros Hst Hdm (Ht & (name & Hname) & Hmask & Hgraph & (bucket & Hbucket)).
  split; [done|]. split; [|split; [done|]].
  - assert (stage = SubjObjType \/ stage <> SubjObjType) as [->|Hstage]
      by (destruct stage; (by left) || (by right)).
    + cbn [set_derived subj_obj2triples] in Hbucket.
      destruct (reachable_triples_wf _ _ _ Hst) as [Hnd Hknown].
      pose proof (reachable_consistent _ _ _ Hst) as (Hrange & _ & _).
      destruct (curriculum_mappings_spec st1) as (dm' & Hdm' & Hnum & Hlabel).
      rewrite Hdm in Hdm'. injection Hdm' as <-.
      destruct (dd_get_elem _ _ _ Hbucket) as (s0 & Hs0 & Hts0).
      assert (is_Some (dict_get (supp_triple (supplemental p))
                                (reverse_set_maps (subj_obj2triples st1))))
        as [label Hrev].
      { apply reverse_set_maps_is_Some. by exists bucket, s0. }
      pose proof Hrev as Hlast. unfold reverse_set_maps in Hlast.
      apply reverse_set_maps_fold_last in Hlast
        as [(before & s1 & after & Hd & Hts1 & _)|[_ ?]]; [|done].
      assert (dd_get label (subj_obj2triples st1) = s1) as Hs1.
      { unfold dd_get. erewrite dict_elem_get; [done | done |].
        rewrite Hd. apply elem_of_app. right. apply list_elem_of_here. }
      destruct (activate_spec (num_rel dm)
                  (map (fun t : triple => t.1.2) (elements s1)))
        as (v & Hv & _).
      * rewrite Hnum. unfold Py.len. lia.
      * intros Hnil. apply (f_equal length) in Hnil.
        rewrite length_map in Hnil. simpl in Hnil.
        apply elem_of_elements, list_elem_of_lookup_1 in Hts1 as [i Hi].
        apply lookup_lt_Some in Hi. lia.
      * apply Forall_forall. intros r (t & -> & Hin)%list_elem_of_fmap.
        apply elem_of_elements in Hin. rewrite <- Hs1 in Hin.
        destruct (Hknown label t Hin) as (n & Hn). rewrite Hnum.
        by eapply Hrange.
      * exists label, (map (fun t : triple => t.1.2) (elements s1)), v.
        split; [|split; [|done]].
        -- unfold id2label_lookup. apply dict_getitem_Ok.
           by rewrite Hlabel, Hrev.
        -- unfold matched_ids_of. cbn [set_derived subj_obj2triples].
           by rewrite Hs1.
    + rewrite Ht.
      destruct (stage_activation cfg env st1 dm stage name _
                  (base_subj_id (base p)) (base_obj_id (base p))
                  Hst Hdm Hstage Hname)
        as (ids & v & H1 & H2 & H3 & _).
      by exists (stage_label stage name), ids, v.
  - intros Hm. specialize (Hgraph Hm).
    apply dd_get_lookup in Hgraph as (known & Hk & _). by exists known.
Qed.

(** The sample [e] is in the store at [l], in objects other than [c]. *)
Definition holds (h : heap) (c : loc) (l : loc) (e : sample) : Prop :=
  exists base_ref supplemental_ref,
    h !! l = Some (OSample base_ref supplemental_ref) /\
    h !! base_ref = Some (OBase (base e)) /\
    h !! supplemental_ref = Some (OSupp (supplemental e)) /\
    l <> c /\ base_ref <> c /\ supplemental_ref <> c.

(** Every object but [c] is still what it was. *)
Definition frame (c : loc) (h h' : heap) : Prop :=
  forall l o, l <> c -> h !! l = Some o -> h' !! l = Some o.

Lemma frame_refl (c : loc) (h : heap) : frame c h h.
Proof. by intros l o. Qed.

Lemma frame_trans (c : loc) (h1 h2 h3 : heap) :
  frame c h1 h2 -> frame c h2 h3 -> frame c h1 h3.
Proof. intros H12 H23 l o Hl Ho. by apply H23, H12. Qed.

Lemma holds_frame (c : loc) (h h' : heap) (l : loc) (e : sample) :
  frame c h h' -> holds h c l e -> holds h' c l e.
Proof.
  intros Hf (br & sr & H1 & H2 & H3 & N1 & N2 & N3).
  exists br, sr. repeat split; try done; by apply Hf.
Qed.

Lemma holds_read (h : heap) (c l : loc) (e : sample) :
  holds h c l e -> read_sample h l = Ok e.
Proof.
  intros (br & sr & H1 & H2 & H3 & _).
  unfold read_sample, load_sample, load_base, load_supp.
  rewrite H1, bind_Ok, H2, bind_Ok, H3, bind_Ok. by destruct e.
Qed.

Lemma read_sample_inv (h : heap) (l : loc) (p : sample) :
  read_sample h l = Ok p ->
  exists base_ref supplemental_ref,
    h !! l = Some (OSample base_ref supplemental_ref) /\
    h !! base_ref = Some (OBase (base p)) /\
    h !! supplemental_ref = Some (OSupp (supplemental p)).
Proof.
  unfold read_sample. intros Hr.
  apply result_bind_Ok in Hr as ([br sr] & Hs & Hr).
  apply result_bind_Ok in Hr as (b & Hb & Hr).
  apply result_bind_Ok in Hr as (s & Hsu & [= <-]).
  unfold load_sample in Hs. unfold load_base in Hb. unfold load_supp in Hsu.
  exists br, sr.
  destruct (h !! l) as [[| | |]|]; try done. injection Hs as -> ->.
  destruct (h !! br) as [[| | |]|]; try done. injection Hb as ->.
  destruct (h !! sr) as [[| | |]|]; try done. injection Hsu as ->.
  done.
Qed.

Lemma lookup_new0 {A} (h : list A) (a : A) (l : list A) :
  (h ++ a :: l) !! length h = Some a.
Proof. by rewrite list_lookup_middle. Qed.

Lemma lookup_new1 {A} (h : list A) (a b : A) (l : list A) :
  (h ++ a :: b :: l) !! S (length h) = Some b.
Proof.
  rewrite (cons_middle a h), app_assoc.
  rewrite list_lookup_middle; [done|]. rewrite length_app. simpl. lia.
Qed.

Lemma lookup_new2 {A} (h : list A) (a b c : A) (l : list A) :
  (h ++ a :: b :: c :: l) !! S (S (length h)) = Some c.
Proof.
  rewrite (cons_middle a h), app_assoc.
  replace (S (S (length h))) with (S (length (h ++ [a])))
    by (rewrite length_app; simpl; lia).
  apply lookup_new1.
Qed.

Lemma insert_new0 {A} (h : list A) (a x : A) (l : list A) :
  <[length h := x]> (h ++ a :: l) = h ++ x :: l.
Proof.
  replace (length h) with (length h + 0)%nat by lia.
  by rewrite insert_app_r.
Qed.

Lemma insert_new1 {A} (h : list A) (a b x : A) (l : list A) :
  <[S (length h) := x]> (h ++ a :: b :: l) = h ++ a :: x :: l.
Proof.
  replace (S (length h)) with (length h + 1)%nat by lia.
  by rewrite insert_app_r.
Qed.

Lemma store_Ok (h : heap) (l : loc) (o : obj) :
  (l < length h)%nat -> store h l o = Ok (<[l := o]> h).
Proof. intros Hl. unfold store. by rewrite decide_True. Qed.

Lemma deepcopy_read (h : heap) (raw_sample : loc) (p : sample) :
  read_sample h raw_sample = Ok p ->
  deepcopy h raw_sample
  = Ok (h ++ [OBase (base p); OSupp (supplemental p);
              OSample (length h) (S (length h))],
        S (S (length h))).
Proof.
  intros (br & sr & H1 & H2 & H3)%read_sample_inv.
  unfold deepcopy, load_sample, load_base, load_supp, alloc.
  rewrite H1, bind_Ok, H2, bind_Ok, H3, bind_Ok.
  rewrite !length_app. simpl. rewrite <- !app_assoc. simpl.
  by rewrite !Nat.add_1_r.
Qed.

(** The sample that [create_iterator] makes of [p], given the vector of
    its activated relations and the relations known between its subject
    and object. *)
Definition enriched (cfg : config) (p : sample) (activated : list Z)
    (known_relations : gset Z) : sample :=
  Sample (set_activated (base p) activated)
         (if cfg_relation_masking cfg
          then SupplementalSample (supp_triple (supplemental p))
                                  (Some (MaskKnown known_relations))
          else supplemental p).

(** What [Batcher.__init__] needs of an enriched sample. *)
Definition batch_ready (cfg : config) (dm : derived_maps)
    (stage : curriculum_stage) (e : sample) : Prop :=
  is_Some (base_activated_relations (base e)) /\
  (exists label, id2label_lookup stage dm (supp_triple (supplemental e)) = Ok label) /\
  supplemental_keys (supplemental e)
  = "triple" :: (if cfg_relation_masking cfg then ["relation_masking"] else []).

Lemma enrich_step (cfg : config) (st : processor) (dm : derived_maps)
    (stage : curriculum_stage) (c raw : loc) (h : heap) (p : sample)
    (cleaned : list loc) :
  read_sample h raw = Ok p ->
  h !! c = Some (OList cleaned) ->
  enrichable cfg st dm stage p ->
  exists h' e,
    enrich st dm stage cfg c raw h = Ok h' /\
    frame c h h' /\
    h' !! c = Some (OList (cleaned ++ [S (S (length h))])) /\
    holds h' c (S (S (length h))) e /\
    batch_ready cfg dm stage e.
Proof.
  intros Hraw Hc (Ht & (label & ids & v & Hl & Hi & Hv) & Hmask & Hgraph).
  pose proof (lookup_lt_Some _ _ _ Hc) as Hclt.
  unfold enrich. rewrite (deepcopy_read h raw p Hraw), bind_Ok.
  unfold load_sample. rewrite lookup_new2, bind_Ok.
  unfold load_base. rewrite lookup_new0, bind_Ok.
  rewrite <- Ht, Hl, bind_Ok, Hi, bind_Ok, Hv, bind_Ok.
  rewrite store_Ok by (rewrite length_app; simpl; lia).
  rewrite bind_Ok, insert_new0.
  assert (exists known,
            (if cfg_relation_masking cfg
             then
               s ← load_supp (h ++ [OBase (set_activated (base p) v);
                                    OSupp (supplemental p); OSample (length h) (S (length h))]) (S (length h));
               entry ← getfield "relation_masking" (supp_relation_masking s);
               match entry with
               | MaskTriple (subject, _, object) =>
                   known_relations ← dict_getitem "graph" (subject, object) (graph st);
                   store (h ++ [OBase (set_activated (base p) v);
                                OSupp (supplemental p); OSample (length h) (S (length h))]) (S (length h))
                         (OSupp (SupplementalSample (supp_triple s)
                                                    (Some (MaskKnown known_relations))))
               | MaskKnown _ =>
                   Raise (ValueError "not enough values to unpack (expected 3, got 1)")
               end
             else Ok (h ++ [OBase (set_activated (base p) v);
                            OSupp (supplemental p); OSample (length h) (S (length h))]))
            = Ok (h ++ [OBase (base (enriched cfg p v known));
                        OSupp (supplemental (enriched cfg p v known));
                        OSample (length h) (S (length h))])) as [known Hsupp].
  { unfold enriched. cbn [base supplemental].
    destruct (cfg_relation_masking cfg) eqn:Em.
    - destruct (Hgraph eq_refl) as [known Hk]. exists known.
      unfold load_supp. rewrite lookup_new1, bind_Ok.
      rewrite Hmask. cbn [getfield]. rewrite bind_Ok, Ht. cbn [fst snd].
      unfold dict_getitem. rewrite Hk, bind_Ok.
      rewrite store_Ok by (rewrite length_app; simpl; lia).
      by rewrite insert_new1.
    - by exists ∅. }
  rewrite Hsupp, bind_Ok.
  set (e := enriched cfg p v known) in *.
  set (h2 := h ++ [OBase (base e); OSupp (supplemental e); OSample (length h) (S (length h))]).
  assert (h2 !! c = Some (OList cleaned)) as Hc2.
  { unfold h2. by rewrite lookup_app_l. }
  unfold list_append, load_list. rewrite Hc2, bind_Ok.
  rewrite store_Ok by (unfold h2; rewrite length_app; lia).
  eexists _, e. split; [reflexivity|].
  split; [|split; [|split]].
  - intros l o Hl' Ho. rewrite list_lookup_insert_ne by done.
    unfold h2. rewrite lookup_app_l; [done|]. by eapply lookup_lt_Some.
  - apply list_lookup_insert_eq. unfold h2. rewrite length_app. lia.
  - exists (length h), (S (length h)).
    rewrite !list_lookup_insert_ne by lia. unfold h2.
    rewrite lookup_new2, lookup_new0, lookup_new1.
    repeat split; try done; lia.
  - unfold e, enriched, batch_ready.
    cbn [base supplemental set_activated base_activated_relations].
    split; [by eexists|]. split.
    + exists label. by destruct (cfg_relation_masking cfg).
    + unfold supplemental_keys. destruct (cfg_relation_masking cfg); [done|].
      by rewrite Hmask.
Qed.

Lemma kept_app (h l : heap) : kept h (h ++ l).
Proof. unfold kept. by rewrite take_app_length. Qed.

Lemma load_list_kept (h0 h : heap) (l : loc) (items : list loc) :
  kept h0 h -> load_list h0 l = Ok items -> load_list h l = Ok items.
Proof.
  intros Hk Hl. unfold load_list in *.
  destruct (h0 !! l) as [o|] eqn:E; [|done].
  by rewrite (kept_lookup _ _ _ _ Hk E).
Qed.

Lemma alloc_sample_spec (h : heap) (s : sample) :
  alloc_sample h s
  = (h ++ [OBase (base s); OSupp (supplemental s);
           OSample (length h) (S (length h))],
     S (S (length h))).
Proof.
  unfold alloc_sample, alloc. rewrite !length_app, <- !app_assoc. simpl.
  by rewrite !Nat.add_1_r.
Qed.

Lemma read_sample_new (h : heap) (s : sample) :
  read_sample (h ++ [OBase (base s); OSupp (supplemental s);
                     OSample (length h) (S (length h))])
              (S (S (length h))) = Ok s.
Proof.
  unfold read_sample, load_sample, load_base, load_supp.
  rewrite lookup_new2, bind_Ok, lookup_new0, bind_Ok, lookup_new1, bind_Ok.
  by destruct s.
Qed.

Lemma alloc_samples_spec (h h' : heap) (samples : list sample) (items : list loc) :
  alloc_samples h samples = (h', items) ->
  kept h h' /\ Forall2 (fun l p => read_sample h' l = Ok p) items samples.
Proof.
  revert h h' items. induction samples as [|s samples IH]; intros h h' items Ha.
  - injection Ha as <- <-. split; [apply kept_refl | constructor].
  - cbn [alloc_samples] in Ha. rewrite alloc_sample_spec in Ha.
    destruct (alloc_samples _ samples) as [h2 ls] eqn:E.
    injection Ha as <- <-. destruct (IH _ _ _ E) as [Hk HF].
    split; [eapply kept_trans; [apply kept_app | exact Hk]|].
    constructor; [|done].
    eapply read_sample_kept; [exact Hk|]. by apply read_sample_new.
Qed.

Lemma alloc_partitions_spec (h h' : heap) (partitions : odict string (list sample))
    (refs : odict string loc) :
  alloc_partitions h partitions = (h', refs) ->
  kept h h' /\
  forall name parsed, dict_get name partitions = Some parsed ->
    exists l items,
      dict_get name refs = Some l /\ load_list h' l = Ok items /\
      Forall2 (fun l p => read_sample h' l = Ok p) items parsed.
Proof.
  revert h h' refs. induction partitions as [|[n samples] partitions IH];
    intros h h' refs Ha.
  - injection Ha as <- <-. split; [apply kept_refl | done].
  - cbn [alloc_partitions] in Ha.
    destruct (alloc_samples h samples) as [h1 items] eqn:E1.
    unfold alloc in Ha.
    destruct (alloc_partitions (h1 ++ [OList items]) partitions) as [h3 refs'] eqn:E3.
    injection Ha as <- <-.
    destruct (alloc_samples_spec _ _ _ _ E1) as [Hk1 HF1].
    destruct (IH _ _ _ E3) as [Hk3 Hrest].
    assert (kept h1 h3) as Hk13
      by (eapply kept_trans; [apply kept_app | exact Hk3]).
    split; [by eapply kept_trans|].
    intros name parsed. cbn [dict_get]. case_decide as Hn.
    + intros [= <-]. exists (length h1), items. split; [done|]. split.
      * eapply load_list_kept; [exact Hk3|]. apply load_list_alloc.
      * eapply Forall2_impl; [exact HF1|]. intros l p.
        by apply read_sample_kept.
    + apply Hrest.
Qed.

Lemma enrich_loop (cfg : config) (st : processor) (dm : derived_maps)
    (stage : curriculum_stage) (c : loc) (h0 : heap) (items : list loc)
    (parsed : list sample) :
  Forall2 (fun l p => read_sample h0 l = Ok p) items parsed ->
  Forall (enrichable cfg st dm stage) parsed ->
  (length h0 <= c)%nat ->
  forall h cleaned,
    kept h0 h -> h !! c = Some (OList cleaned) ->
    Forall (fun l => exists e, holds h c l e /\ batch_ready cfg dm stage e) cleaned ->
    exists h' cleaned',
      foldM (enrich st dm stage cfg c) items h = Ok h' /\
      h' !! c = Some (OList cleaned') /\
      length cleaned' = (length cleaned + length items)%nat /\
      Forall (fun l => exists e, holds h' c l e /\ batch_ready cfg dm stage e)
             cleaned'.
Proof.
  intros HF. induction HF as [|raw p items parsed Hraw HF IH];
    intros Hen Hc h cleaned Hk Hlist Hcl.
  - exists h, cleaned. split; [done|]. split; [done|]. split; [simpl; lia | done].
  - apply Forall_cons in Hen as [Hp Hen].
    destruct (enrich_step cfg st dm stage c raw h p cleaned)
      as (h1 & e & He & Hframe & Hlist1 & Hholds & Hready);
      [by eapply read_sample_kept | done | done |].
    destruct (IH Hen Hc h1 (cleaned ++ [S (S (length h))]))
      as (h' & cleaned' & Hfold & Hlist' & Hlen & Hall).
    + by eapply enrich_kept.
    + done.
    + apply Forall_app. split.
      * eapply Forall_impl; [exact Hcl|]. intros l (e0 & Hh & Hr).
        exists e0. split; [by eapply holds_frame | done].
      * apply Forall_singleton. by exists e.
    + exists h', cleaned'. cbn [foldM]. rewrite He, bind_Ok.
      split; [done|]. split; [done|]. split; [|done].
      rewrite Hlen, length_app. simpl. lia.
Qed.

Lemma Forall_exists_Forall2 {A B} (R : A -> B -> Prop) (l : list A) :
  Forall (fun x => exists y, R x y) l -> exists k, Forall2 R l k.
Proof.
  induction 1 as [|x l [y Hy] _ [k Hk]].
  - by exists [].
  - exists (y :: k). by constructor.
Qed.

Lemma create_batches_length (data : list sample) (batch_size : Z) :
  0 < batch_size -> batchable data ->
  exists batches,
    create_batches data batch_size = Ok batches /\
    Py.len batches = (Py.len data + batch_size - 1) / batch_size.
Proof.
  intros Hbs Hdata. destruct data as [|first rest] eqn:Edata.
  - exists []. rewrite create_batches_nil by lia. split; [done|].
    symmetry. apply Z.div_small. unfold Py.len. simpl. lia.
  - rewrite <- Edata in *.
    rewrite (create_batches_batch_of data batch_size first Hbs Hdata)
      by by rewrite Edata.
    eexists. split; [reflexivity|].
    pose proof (chunk_count_bounds (Py.len data) batch_size Hbs
                  ltac:(unfold Py.len; lia)) as (Hc0 & _).
    unfold Py.len at 1. rewrite length_map, length_seq. lia.
Qed.

Section iterator_success.
Context {G : Type} `{Rng G}.

Lemma Batcher_init_tail (h1 : heap) (g1 : G) (c : loc) (cfg : config)
    (stage : curriculum_stage) (dm : derived_maps) (batch_size : Z)
    (is_eval : bool) (cl1 : list loc) :
  0 < batch_size ->
  h1 !! c = Some (OList cl1) ->
  Forall (fun l => exists e, holds h1 c l e /\ batch_ready cfg dm stage e) cl1 ->
  exists b,
    (samples ← read_samples h1 c;
     labels ← mapM_result
                (fun d => id2label_lookup stage dm (supp_triple (supplemental d)))
                samples;
     batches ← create_batches samples batch_size;
     Ok (h1,
         Batcher stage dm batch_size is_eval cfg labels (Py.len samples) batches None,
         g1)) = Ok (h1, b, g1) /\
    b_num_examples b = Py.len cl1 /\
    Py.len (b_labels b) = Py.len cl1 /\
    Py.len (b_batches b) = (Py.len cl1 + batch_size - 1) / batch_size.
Proof.
  intros Hbs Hlist1 Hcl1.
  apply Forall_exists_Forall2 in Hcl1 as [samples Hsamples].
  assert (read_samples h1 c = Ok samples) as ->.
  { unfold read_samples, load_list. rewrite Hlist1, bind_Ok.
    apply mapM_result_Ok. eapply Forall2_impl; [exact Hsamples|].
    intros l e [Hh _]. by eapply holds_read. }
  rewrite bind_Ok.
  assert (Forall (batch_ready cfg dm stage) samples) as Hready.
  { apply Forall_forall. intros e [i He]%list_elem_of_lookup_1.
    destruct (Forall2_lookup_r _ _ _ _ _ Hsamples He) as (l & _ & _ & Hr). done. }
  assert (exists labels,
            mapM_result
              (fun d => id2label_lookup stage dm (supp_triple (supplemental d)))
              samples = Ok labels) as [labels Hlabels].
  { destruct (Forall_exists_Forall2
                (fun e label =>
                   id2label_lookup stage dm (supp_triple (supplemental e)) = Ok label)
                samples) as [labels HF].
    - eapply Forall_impl; [exact Hready|]. by intros e (_ & ? & _).
    - exists labels. by apply mapM_result_Ok. }
  rewrite Hlabels, bind_Ok.
  destruct (create_batches_length samples batch_size Hbs) as (batches & -> & Hlen).
  { split.
    - eapply Forall_impl; [exact Hready|]. by intros e (? & _).
    - intros first s Hfirst Hs. rewrite Forall_forall in Hready.
      destruct (Hready s Hs) as (_ & _ & ->).
      apply list_elem_of_lookup_2 in Hfirst.
      by destruct (Hready first Hfirst) as (_ & _ & ->). }
  rewrite bind_Ok. eexists. split; [reflexivity|].
  cbn [b_num_examples b_labels b_batches].
  apply Forall2_length in Hsamples.
  apply mapM_result_Ok, Forall2_length in Hlabels.
  unfold Py.len in *. rewrite Hlen. repeat split; try lia.
  do 2 f_equal. lia.
Qed.

Lemma Batcher_init_ready (h : heap) (g : G) (c : loc) (cfg : config)
    (stage : curriculum_stage) (dm : derived_maps) (batch_size : Z)
    (is_eval : bool) (cleaned : list loc) :
  0 < batch_size ->
  h !! c = Some (OList cleaned) ->
  Forall (fun l => exists e, holds h c l e /\ batch_ready cfg dm stage e) cleaned ->
  exists h' b g',
    Batcher_init h g c cfg stage dm batch_size is_eval = Ok (h', b, g') /\
    b_num_examples b = Py.len cleaned /\
    Py.len (b_labels b) = Py.len cleaned /\
    Py.len (b_batches b) = (Py.len cleaned + batch_size - 1) / batch_size.
Proof.
  intros Hbs Hlist Hcl. unfold Batcher_init.
  assert (load_list h c = Ok cleaned) as -> by (unfold load_list; by rewrite Hlist).
  rewrite bind_Ok.
  pose proof (lookup_lt_Some _ _ _ Hlist) as Hlt.
  destruct is_eval; cbn [negb].
  - rewrite bind_Ok.
    destruct (Batcher_init_tail h g c cfg stage dm batch_size true cleaned
                Hbs Hlist Hcl) as (b & Hb & Hrest).
    exists h, b, g. split; [exact Hb | exact Hrest].
  - cbv zeta. rewrite store_Ok, !bind_Ok by done.
    set (shuffled := np_random_shuffle g cleaned).
    destruct (Batcher_init_tail (<[c := OList shuffled.1]> h) shuffled.2 c cfg
                stage dm batch_size false shuffled.1 Hbs)
      as (b & Hb & H1 & H2 & H3).
    + by apply list_lookup_insert_eq.
    + pose proof (np_random_shuffle_perm g cleaned) as Hp. fold shuffled in Hp.
      rewrite Hp. eapply Forall_impl; [exact Hcl|]. intros l (e & Hh & Hr).
      exists e. split; [|done]. eapply holds_frame; [|exact Hh].
      intros l' o Hl Ho. by rewrite list_lookup_insert_ne.
    + pose proof (Permutation_length (np_random_shuffle_perm g cleaned)) as Hp.
      fold shuffled in Hp. unfold Py.len in *.
      eexists _, b, _. split; [exact Hb|]. rewrite <- Hp. done.
Qed.

End iterator_success.

Section iterator_theorem.
Context {G : Type} `{Rng G}.

(** X24. On the partitions that [DataProcessor.__init__] has parsed, with
    no sample size set and a positive batch size, [create_iterator]
    called with the processor's own config returns for each of the four
    stages ['binary'], ['subj_type'], ['subj_obj_type'] and ['full']: no
    lookup of a label, of the ids under a label or of the graph fails
    for a sample the processor has parsed itself. The Batcher has one example and one
    label for each sample of the partition, in
    [ceil(len(partition) / batch_size)] batches. *)
Theorem create_iterator_succeeds (cfg : config) (env : vocab_env)
    (files : odict string (list raw_record)) (partition_names : list string)
    (st : processor) (partitions : odict string (list sample))
    (h0 h : heap) (refs : odict string loc) (g : G)
    (partition_name stage_name : string) (parsed : list sample)
    (stage : curriculum_stage) :
  DataProcessor_init cfg env files partition_names = Ok (st, partitions) ->
  alloc_partitions h0 partitions = (h, refs) ->
  dict_get partition_name partitions = Some parsed ->
  cfg_sample_size cfg = None -> 0 < cfg_batch_size cfg ->
  parse_stage stage_name = Ok stage ->
  exists h' refs' b g',
    create_iterator cfg st refs h g cfg partition_name stage_name
      = Ok (h', refs', b, g') /\
    b_num_examples b = Py.len parsed /\
    Py.len (b_labels b) = Py.len parsed /\
    Py.len (b_batches b)
    = (Py.len parsed + cfg_batch_size cfg - 1) / cfg_batch_size cfg.
Proof.
  intros Hinit Halloc Hget Hsz Hbs Hstage. unfold DataProcessor_init in Hinit.
  assert (partition_names <> []) as Hne.
  { intros ->. simpl in Hinit. injection Hinit as _ <-. done. }
  destruct (preprocess_data_derived _ _ _ _ _ _ _ _ Hinit (reachable_init _ _) Hne)
    as (st1 & dm & -> & Hdm & Hst1).
  assert (Forall (enrichable cfg (set_derived st1 dm) dm stage) parsed) as Hen.
  { eapply Forall_impl.
    - eapply (preprocess_data_well_parsed _ _ _ _ _ _ _ _ Hinit); [done|exact Hget].
    - intros p. by eapply well_parsed_enrichable. }
  destruct (alloc_partitions_spec _ _ _ _ Halloc) as [_ Hrefs].
  destruct (Hrefs _ _ Hget) as (l & items & Hl & Hload & HF).
  unfold create_iterator. rewrite Hl, Hload, bind_Ok. unfold alloc.
  rewrite Hsz, bind_Ok, Hstage, bind_Ok.
  change (derived (set_derived st1 dm)) with (Some dm). cbv iota.
  rewrite bind_Ok.
  destruct (enrich_loop cfg (set_derived st1 dm) dm stage (length h) h items parsed
              HF Hen ltac:(lia) (h ++ [OList []]) [])
    as (h' & cleaned' & Hfold & Hlist & Hlen & Hall).
  { apply kept_app. }
  { apply lookup_new0. }
  { constructor. }
  rewrite Hfold, bind_Ok.
  destruct (Batcher_init_ready h' g (length h) cfg stage dm (cfg_batch_size cfg)
              (bool_decide (partition_name <> "train")) cleaned' Hbs Hlist Hall)
    as (h'' & b & g' & -> & H1 & H2 & H3).
  rewrite bind_Ok. exists h'', refs, b, g'. split; [done|].
  apply Forall2_length in HF. simpl in Hlen.
  unfold Py.len in *. rewrite H1, H2, H3, Hlen, HF. done.
Qed.

End iterator_theorem.

Lemma create_iterator_succeeds_witness :
  exists st partitions h refs parsed h' refs' b g',
    DataProcessor_init example_config example_env
      [("train", example_corpus)] ["train"] = Ok (st, partitions) /\
    alloc_partitions [] partitions = (h, refs) /\
    dict_get "train" partitions = Some parsed /\
    create_iterator example_config st refs h 0%nat example_config "train"
                    "subj_obj_type"
      = Ok (h', refs', b, g') /\
    b_num_examples b = Py.len parsed /\
    Py.len (b_labels b) = Py.len parsed.
Proof.
  assert (exists st partitions parsed,
            DataProcessor_init example_config example_env
              [("train", example_corpus)] ["train"] = Ok (st, partitions) /\
            dict_get "train" partitions = Some parsed)
    as (st & partitions & parsed & Hinit & Hget).
  { vm_compute. eexists _, _, _. split; reflexivity. }
  destruct (alloc_partitions [] partitions) as [h refs] eqn:Halloc.
  destruct (create_iterator_succeeds example_config example_env
              [("train", example_corpus)] ["train"] st partitions [] h refs 0%nat
              "train" "subj_obj_type" parsed SubjObjType Hinit Halloc Hget eq_refl
              ltac:(reflexivity) eq_refl)
    as (h' & refs' & b & g' & H1 & H2 & H3 & _).
  exists st, partitions, h, refs, parsed, h', refs', b, g'.
  split; [exact Hinit|]. split; [exact Halloc|]. split; [exact Hget|].
  split; [exact H1|]. split; [exact H2 | exact H3].
Defined.
